(** * tomviz Pipeline (src/tomviz/Pipeline.cxx): a shallow embedding

    The pipeline coordinator is a Qt object that reacts to edits of a
    tree of data sources and operators, dispatches runs to a worker and
    consumes the worker's futures.  The embedding keeps the objects the
    C++ code points to in arenas (one list per class, a pointer is an
    index), threads one [Pipeline] state through every member function
    with a state-and-failure monad (failure stands for C++ undefined
    behaviour: a null or dangling dereference, [QList::last] on an empty
    list, an iterator run past the end), and records in a trace every
    signal emitted and every call made on a collaborator. *)

From Stdlib Require Import ZArith String Bool Lia.
From stdpp Require Import base option list.

Open Scope Z_scope.
Open Scope nat_scope.

(** ** Pointers *)

Abbreviation ObjId := nat (only parsing).  (* vtkDataObject*           *)
Abbreviation DsId := nat (only parsing).   (* DataSource*              *)
Abbreviation OpId := nat (only parsing).   (* Operator*                *)
Abbreviation FutId := nat (only parsing).  (* PipelineWorker::Future*  *)
Abbreviation ImgId := nat (only parsing).  (* Pipeline::ImageFuture*   *)

(** The contents of a vtkDataObject: opaque to the pipeline. *)
Definition Payload := list Z.

(** ** Collaborator objects *)

(** Modelled from the spec: the execution state of a Transform Step
    (Operator.h is not part of the sources): pending, finished or
    canceled.  [isCanceled] and [resetState] are the two members the
    pipeline uses. *)
Inductive OperatorState := OpPending | OpComplete | OpCanceled.

Record Operator := mkOperator {
  op_dataSource : DsId;               (* dataSource()         *)
  op_state : OperatorState;
  op_hasChildDataSource : bool;       (* hasChildDataSource() *)
  op_childDataSource : option DsId    (* childDataSource()    *)
}.

Inductive QParent := ThisPipeline.

Record DataSource := mkDataSource {
  ds_label : string;
  ds_parent : option QParent;
  ds_data : option ObjId;
  ds_operators : list OpId            (* operators()          *)
}.

(** Modelled from the spec: the status of an Execution Handle
    (PipelineWorker.h is not part of the sources).  A handle runs until
    it reaches a terminal state; [FutCanceling] is a handle whose
    cancellation was requested and whose [canceled] event is still to
    come. *)
Inductive FutureStatus := FutRunning | FutCanceling | FutTerminated.

Record Future := mkFuture {
  fut_result : ObjId;                 (* result()             *)
  fut_operators : list OpId;          (* operators()          *)
  fut_status : FutureStatus;
  fut_cancelable : list OpId          (* steps cancel(op) can still stop *)
}.

Record ImageFuture := mkImageFuture {
  img_operator : OpId;                (* m_operator  *)
  img_imageData : ObjId;              (* m_imageData *)
  img_future : option FutId           (* m_future    *)
}.

(** Field updates of the collaborator records (what the setters of the
    C++ classes change). *)
Definition withChild (c : option DsId) (o : Operator) : Operator :=
  mkOperator (op_dataSource o) (op_state o) (op_hasChildDataSource o) c.

Definition withState (x : OperatorState) (o : Operator) : Operator :=
  mkOperator (op_dataSource o) x (op_hasChildDataSource o) (op_childDataSource o).

Definition withData (x : option ObjId) (d : DataSource) : DataSource :=
  mkDataSource (ds_label d) (ds_parent d) x (ds_operators d).

Definition withParent (p : option QParent) (d : DataSource) : DataSource :=
  mkDataSource (ds_label d) p (ds_data d) (ds_operators d).

Definition withOperators (ops : list OpId) (d : DataSource) : DataSource :=
  mkDataSource (ds_label d) (ds_parent d) (ds_data d) ops.

Definition withStatus (x : FutureStatus) (f : Future) : Future :=
  mkFuture (fut_result f) (fut_operators f) x (fut_cancelable f).

(** ** Signals, slots and the trace *)

Inductive Sender :=
| SndDataSource (ds : DsId)
| SndOperator (op : OpId)
| SndFuture (f : FutId).

Inductive Signal :=
| SigOperatorAdded | SigOperatorRemoved | SigTransformModified
| SigFinished | SigCanceled.

Inductive Slot :=
| SlotAddedExecute        (* addDataSource, first operatorAdded lambda  *)
| SlotAddedRelocate       (* addDataSource, second operatorAdded lambda *)
| SlotRemoved             (* addDataSource, operatorRemoved lambda      *)
| SlotExecuteAll          (* transformModified lambda: execute()        *)
| SlotBranchFinished      (* Pipeline::pipelineBranchFinished           *)
| SlotBranchCanceled      (* Pipeline::pipelineBranchCanceled           *)
| SlotImageFinished (img : ImgId)   (* ImageFuture::finished (signal)   *)
| SlotImageCanceled (img : ImgId)   (* ImageFuture::canceled (signal)   *)
| SlotCallback (k : nat).           (* the std::function given to cancel *)

Definition Connection : Type := Sender * Signal * Slot.

Inductive SignalArg := ArgNone | ArgBool (b : bool) | ArgOperator (op : OpId).

Inductive Event :=
(* signals emitted towards observers *)
| EvStarted
| EvFinished
| EvNewChildDataSource (op : OpId) (ds : DsId)
| EvDataSourceMoved (op : OpId) (ds : DsId)
| EvImageFinished (img : ImgId) (result : bool)
| EvImageCanceled (img : ImgId)
| EvCallback (k : nat)
(* calls made on collaborators *)
| CallRun (f : FutId) (data : ObjId) (ops : list OpId)
| CallCancel (f : FutId)
| CallCancelOp (f : FutId) (op : OpId)
| CallSetData (ds : DsId) (data : ObjId)
| CallDataModified (ds : DsId)
| CallResetState (op : OpId)
| CallDelete (data : ObjId)
| CallDeleteLaterFuture (f : FutId)
| CallDeleteLaterDataSource (ds : DsId)
| CallRemoveAllOperators (ds : DsId).

(** ** The pipeline and the arenas it points into *)

Record Pipeline := mkPipeline {
  m_data : DsId;
  m_paused : bool;
  m_future : option FutId;
  objects : list (option Payload);    (* [None]: deleted *)
  dataSources : list DataSource;
  operators : list Operator;
  futures : list Future;
  imageFutures : list ImageFuture;
  connections : list Connection;
  timers : list Event;                (* QTimer::singleShot(0, emit ...) *)
  trace : list Event
}.

Definition set_paused (b : bool) (p : Pipeline) : Pipeline :=
  mkPipeline (m_data p) b (m_future p) (objects p) (dataSources p)
    (operators p) (futures p) (imageFutures p) (connections p) (timers p)
    (trace p).

Definition set_future (f : option FutId) (p : Pipeline) : Pipeline :=
  mkPipeline (m_data p) (m_paused p) f (objects p) (dataSources p)
    (operators p) (futures p) (imageFutures p) (connections p) (timers p)
    (trace p).

Definition set_objects (x : list (option Payload)) (p : Pipeline) : Pipeline :=
  mkPipeline (m_data p) (m_paused p) (m_future p) x (dataSources p)
    (operators p) (futures p) (imageFutures p) (connections p) (timers p)
    (trace p).

Definition set_dataSources (x : list DataSource) (p : Pipeline) : Pipeline :=
  mkPipeline (m_data p) (m_paused p) (m_future p) (objects p) x
    (operators p) (futures p) (imageFutures p) (connections p) (timers p)
    (trace p).

Definition set_operators (x : list Operator) (p : Pipeline) : Pipeline :=
  mkPipeline (m_data p) (m_paused p) (m_future p) (objects p) (dataSources p)
    x (futures p) (imageFutures p) (connections p) (timers p) (trace p).

Definition set_futures (x : list Future) (p : Pipeline) : Pipeline :=
  mkPipeline (m_data p) (m_paused p) (m_future p) (objects p) (dataSources p)
    (operators p) x (imageFutures p) (connections p) (timers p) (trace p).

Definition set_imageFutures (x : list ImageFuture) (p : Pipeline) : Pipeline :=
  mkPipeline (m_data p) (m_paused p) (m_future p) (objects p) (dataSources p)
    (operators p) (futures p) x (connections p) (timers p) (trace p).

Definition set_connections (x : list Connection) (p : Pipeline) : Pipeline :=
  mkPipeline (m_data p) (m_paused p) (m_future p) (objects p) (dataSources p)
    (operators p) (futures p) (imageFutures p) x (timers p) (trace p).

Definition set_timers (x : list Event) (p : Pipeline) : Pipeline :=
  mkPipeline (m_data p) (m_paused p) (m_future p) (objects p) (dataSources p)
    (operators p) (futures p) (imageFutures p) (connections p) x (trace p).

Definition set_trace (x : list Event) (p : Pipeline) : Pipeline :=
  mkPipeline (m_data p) (m_paused p) (m_future p) (objects p) (dataSources p)
    (operators p) (futures p) (imageFutures p) (connections p) (timers p) x.

(** ** The monad of member functions *)

Definition M (A : Type) : Type := Pipeline -> option (A * Pipeline).

#[global] Instance M_ret : MRet M := fun A a s => Some (a, s).

#[global] Instance M_bind : MBind M := fun A B k m s =>
  match m s with
  | Some (a, s') => k a s'
  | None => None
  end.

(** Undefined behaviour of the C++ program. *)
Definition undefined {A} : M A := fun _ => None.

Definition gets {A} (f : Pipeline -> A) : M A := fun s => Some (f s, s).

Definition modify (f : Pipeline -> Pipeline) : M unit := fun s => Some (tt, f s).

(** Dereference: a null pointer has no object behind it. *)
Definition deref {A} (o : option A) : M A :=
  match o with
  | Some a => mret a
  | None => undefined
  end.

Definition when (b : bool) (m : M unit) : M unit := if b then m else mret tt.

(** The state a member function leaves, when it is defined. *)
Definition exec {A} (m : M A) (s : Pipeline) : option Pipeline :=
  match m s with
  | Some (_, s') => Some s'
  | None => None
  end.

(** [emit sig(args)] towards observers, and calls on collaborators. *)
Definition emit (e : Event) : M unit :=
  modify (fun s => set_trace (trace s ++ [e]) s).

(** [QTimer::singleShot(0, [=] { emit ... })]. *)
Definition singleShot (e : Event) : M unit :=
  modify (fun s => set_timers (timers s ++ [e]) s).

(** [QObject::connect]. *)
Definition connect (snd : Sender) (sig : Signal) (slot : Slot) : M unit :=
  modify (fun s => set_connections (connections s ++ [(snd, sig, slot)]) s).

(** ** Qt containers *)

(** [QList::indexOf]: the first position of [x], or -1. *)
Fixpoint indexOf (l : list nat) (x : nat) : Z :=
  match l with
  | [] => (-1)%Z
  | y :: l' =>
      if Nat.eqb y x then 0%Z
      else let i := indexOf l' x in
           if (i <? 0)%Z then (-1)%Z else (i + 1)%Z
  end.

(** [QList::mid(pos, length)], with Qt's clamping of the two arguments
    (QContainerImplHelper::mid); [length = -1] is the default argument. *)
Definition mid {A} (l : list A) (pos len : Z) : list A :=
  let n := Z.of_nat (length l) in
  if (n <? pos)%Z then []
  else if (pos <? 0)%Z then
    if ((len <? 0) || (n <=? len + pos))%Z then l
    else if (len + pos <=? 0)%Z then []
    else take (Z.to_nat (len + pos)) l
  else
    let len' := if ((len <? 0) || (n - pos <? len))%Z then (n - pos)%Z else len in
    take (Z.to_nat len') (drop (Z.to_nat pos) l).

(** [QList::last]: undefined on an empty list. *)
Definition QList_last {A} (l : list A) : M A := deref (last l).

(** ** Arena access *)

Definition getDataSource (ds : DsId) : M DataSource :=
  l ← gets dataSources; deref (l !! ds).

Definition getOperator (op : OpId) : M Operator :=
  l ← gets operators; deref (l !! op).

Definition getFuture (f : FutId) : M Future :=
  l ← gets futures; deref (l !! f).

Definition getObject (o : ObjId) : M Payload :=
  l ← gets objects; p ← deref (l !! o); deref p.

Definition updDataSource (ds : DsId) (g : DataSource -> DataSource) : M unit :=
  d ← getDataSource ds;
  modify (fun s => set_dataSources (<[ds := g d]> (dataSources s)) s).

Definition updOperator (op : OpId) (g : Operator -> Operator) : M unit :=
  o ← getOperator op;
  modify (fun s => set_operators (<[op := g o]> (operators s)) s).

Definition updFuture (f : FutId) (g : Future -> Future) : M unit :=
  x ← getFuture f;
  modify (fun s => set_futures (<[f := g x]> (futures s)) s).

(** [new vtkDataObject]: the next free cell of the arena. *)
Definition newObject (p : Payload) : M ObjId :=
  n ← gets (fun s => length (objects s));
  modify (fun s => set_objects (objects s ++ [Some p]) s);;
  mret n.

(** ** DataSource members used by the pipeline (DataSource.cxx is not
    part of the sources) *)

(** Modelled from the spec: [DataSource::operators()], the ordered
    sequence of the node's steps. *)
Definition DataSource_operators (ds : DsId) : M (list OpId) :=
  d ← getDataSource ds; mret (ds_operators d).

(** Modelled from the spec: [DataSource::copyData()] returns a new data
    object with the contents of the stored one. *)
Definition DataSource_copyData (ds : DsId) : M ObjId :=
  d ← getDataSource ds;
  o ← deref (ds_data d);
  p ← getObject o;
  newObject p.

(** Modelled from the spec: [DataSource::setData(payload)] replaces the
    stored payload wholesale. *)
Definition DataSource_setData (ds : DsId) (o : ObjId) : M unit :=
  updDataSource ds (withData (Some o));;
  emit (CallSetData ds o).

(** Modelled from the spec: [DataSource::dataModified()] notifies the
    observers of the data source; the pipeline does not listen. *)
Definition DataSource_dataModified (ds : DsId) : M unit :=
  getDataSource ds;; emit (CallDataModified ds).

(** [QObject::setParent]. *)
Definition DataSource_setParent (ds : DsId) (p : QParent) : M unit :=
  updDataSource ds (withParent (Some p)).

(** Modelled from the spec: [new DataSource(label)], a data source with
    no parent, no payload and no step yet. *)
Definition DataSource_new (label : string) : M DsId :=
  n ← gets (fun s => length (dataSources s));
  modify (fun s =>
    set_dataSources (dataSources s ++ [mkDataSource label None None []]) s);;
  mret n.

(** Modelled from the spec: [DataSource::removeAllOperators]
    (DataSource.cxx is not part of the sources) detaches all of the
    data source's own steps. *)
Definition DataSource_removeAllOperators (ds : DsId) : M unit :=
  updDataSource ds (withOperators []);;
  emit (CallRemoveAllOperators ds).

(** [QObject::deleteLater]: the object lives on until the event loop
    deletes it. *)
Definition DataSource_deleteLater (ds : DsId) : M unit :=
  getDataSource ds;; emit (CallDeleteLaterDataSource ds).

(** ** Operator members used by the pipeline (Operator.cxx is not part
    of the sources) *)

(** Modelled from the spec: [Operator::dataSource()], the owning Data
    Node of the step. *)
Definition Operator_dataSource (op : OpId) : M DsId :=
  o ← getOperator op; mret (op_dataSource o).

(** Modelled from the spec: [Operator::hasChildDataSource()], the flag
    of a step that declares a child of its own (an explicit child). *)
Definition Operator_hasChildDataSource (op : OpId) : M bool :=
  o ← getOperator op; mret (op_hasChildDataSource o).

(** Modelled from the spec: [Operator::childDataSource()], the optional
    child Data Node of the step. *)
Definition Operator_childDataSource (op : OpId) : M (option DsId) :=
  o ← getOperator op; mret (op_childDataSource o).

(** Modelled from the spec: [Operator::setChildDataSource(child)] sets
    the child pointer and nothing else. *)
Definition Operator_setChildDataSource (op : OpId) (c : option DsId) : M unit :=
  updOperator op (withChild c).

(** Modelled from the spec: [Operator::isCanceled()]. *)
Definition Operator_isCanceled (op : OpId) : M bool :=
  o ← getOperator op;
  mret match op_state o with OpCanceled => true | _ => false end.

(** Modelled from the spec: [Operator::resetState()] makes the step
    pending again. *)
Definition Operator_resetState (op : OpId) : M unit :=
  updOperator op (withState OpPending);;
  emit (CallResetState op).

(** ** Worker and Execution Handle (PipelineWorker.cxx is not part of
    the sources) *)

(** Modelled from the spec: [PipelineWorker::run(data, operators)]
    returns a new Execution Handle that runs the given steps on the
    given payload; its result is that payload once the steps ran. *)
Definition Worker_run (data : ObjId) (ops : list OpId) : M FutId :=
  n ← gets (fun s => length (futures s));
  modify (fun s =>
    set_futures (futures s ++ [mkFuture data ops FutRunning ops]) s);;
  emit (CallRun n data ops);;
  mret n.

(** Modelled from the spec: a handle is running until it reaches a
    terminal state. *)
Definition Future_isRunning (f : FutId) : M bool :=
  x ← getFuture f;
  mret match fut_status x with FutTerminated => false | _ => true end.

(** Modelled from the spec: [Future::cancel()] requests that the whole
    run stops; the [canceled] event follows later. *)
Definition Future_cancel (f : FutId) : M unit :=
  updFuture f (fun x =>
    withStatus
      match fut_status x with FutTerminated => FutTerminated | _ => FutCanceling end
      x);;
  emit (CallCancel f).

(** Modelled from the spec: [Future::cancel(op)] stops the steps from
    [op] on, and answers whether that was still possible; where the
    boundary lies is the worker's business ([fut_cancelable]). *)
Definition Future_cancelOp (f : FutId) (op : OpId) : M bool :=
  x ← getFuture f;
  emit (CallCancelOp f op);;
  mret (existsb (Nat.eqb op) (fut_cancelable x)).

(** Modelled from the spec: [Future::result()], the result payload. *)
Definition Future_result (f : FutId) : M ObjId :=
  x ← getFuture f; mret (fut_result x).

(** Modelled from the spec: [Future::operators()], the step list being
    run. *)
Definition Future_operators (f : FutId) : M (list OpId) :=
  x ← getFuture f; mret (fut_operators x).

(** [QObject::deleteLater] on a handle. *)
Definition Future_deleteLater (f : FutId) : M unit :=
  getFuture f;; emit (CallDeleteLaterFuture f).

(** [vtkObject::Delete()] on a data object nothing else holds. *)
Definition vtk_Delete (o : ObjId) : M unit :=
  getObject o;;
  modify (fun s => set_objects (<[o := None]> (objects s)) s);;
  emit (CallDelete o).

(** ** Pipeline.cxx *)

(** [Pipeline::findTransformedDataSourceOperator]: the loop body over
    the reverse iterator, on the operators still to visit. *)
Fixpoint findTransformedIn (ops : list OpId) : M (option OpId) :=
  match ops with
  | [] => mret None
  | op :: rest =>
      h ← Operator_hasChildDataSource op;
      c ← Operator_childDataSource op;
      if negb h && bool_decide (is_Some c) then mret (Some op)
      else findTransformedIn rest
  end.

Definition findTransformedDataSourceOperator (dataSource : DsId)
  : M (option OpId) :=
  ops ← DataSource_operators dataSource;
  findTransformedIn (rev ops).

Definition findTransformedDataSource (dataSource : DsId) : M (option DsId) :=
  op ← findTransformedDataSourceOperator dataSource;
  match op with
  | Some o => Operator_childDataSource o
  | None => mret None
  end.

(** The loop [for (itr = begin(); *itr != start; ++itr)] of
    [executePipelineBranch], on the operators still to visit; the
    result is [haveCanceled].  Nothing stops the iterator at the end of
    the list. *)
Fixpoint scanCanceled (ops : list OpId) (start : OpId) : M bool :=
  match ops with
  | [] => undefined
  | currentOp :: rest =>
      if Nat.eqb currentOp start then mret false
      else
        c ← Operator_isCanceled currentOp;
        if (c : bool) then Operator_resetState currentOp;; mret true
        else scanCanceled rest start
  end.

Definition executePipelineBranch (dataSource : DsId) (start : option OpId)
  : M unit :=
  paused ← gets m_paused;
  if (paused : bool) then mret tt
  else
    ops ← DataSource_operators dataSource;
    if bool_decide (ops = []) then mret tt
    else
      (* Cancel any running operators. *)
      fut ← gets m_future;
      match fut with
      | Some f => r ← Future_isRunning f; when r (Future_cancel f)
      | None => mret tt
      end;;
      plan ←
        match start with
        | Some st =>
            (* Use the transform DataSource as the starting point. *)
            t ← findTransformedDataSource dataSource;
            data ← match t with
                   | Some tds => d ← DataSource_copyData tds; mret (Some d)
                   | None => mret None
                   end;
            all ← DataSource_operators dataSource;
            haveCanceled ← scanCanceled all st;
            if negb haveCanceled then
              Operator_resetState st;;
              mret (data, mid ops (indexOf ops st) (-1))
            else mret (data, ops)
        | None => mret (@None ObjId, ops)
        end;
      (* Use the original *)
      data ← match plan.1 with
             | Some d => mret d
             | None => DataSource_copyData dataSource
             end;
      f ← Worker_run data plan.2;
      modify (set_future (Some f));;
      connect (SndFuture f) SigFinished SlotBranchFinished;;
      connect (SndFuture f) SigCanceled SlotBranchCanceled.

(** [Pipeline::execute()]. *)
Definition execute : M unit :=
  emit EvStarted;;
  root ← gets m_data;
  executePipelineBranch root None.

(** [Pipeline::execute(DataSource* start, bool last)]. *)
Definition execute_last (start : DsId) (last : bool) : M unit :=
  emit EvStarted;;
  lastOp ← (if last then
              ops ← DataSource_operators start;
              o ← QList_last ops; mret (Some o)
            else mret None);
  executePipelineBranch start lastOp.

(** [Pipeline::execute(DataSource* start)]. *)
Definition execute_from (start : DsId) : M unit :=
  emit EvStarted;;
  executePipelineBranch start None.

(** [Pipeline::addDataSource]: the three lambdas are connected in this
    order; their bodies are [operatorAdded_execute],
    [operatorAdded_relocate] and [operatorRemoved] below. *)
Definition addDataSource (dataSource : DsId) : M unit :=
  connect (SndDataSource dataSource) SigOperatorAdded SlotAddedExecute;;
  connect (SndDataSource dataSource) SigOperatorAdded SlotAddedRelocate;;
  connect (SndDataSource dataSource) SigOperatorRemoved SlotRemoved.

Definition pipelineBranchFinished (future : FutId) (result : bool) : M unit :=
  if result then
    ops ← Future_operators future;
    lastOp ← QList_last ops;
    explicit ← Operator_hasChildDataSource lastOp;
    when (negb explicit) (
      c ← Operator_childDataSource lastOp;
      newChildDataSource ←
        match c with
        | None =>
            n ← DataSource_new "Output";
            DataSource_setParent n ThisPipeline;;
            addDataSource n;;
            Operator_setChildDataSource lastOp (Some n);;
            mret (Some n)
        | Some _ => mret None
        end;
      c1 ← Operator_childDataSource lastOp;
      child ← deref c1;
      r ← Future_result future;
      DataSource_setData child r;;
      DataSource_dataModified child;;
      match newChildDataSource with
      | Some n => emit (EvNewChildDataSource lastOp n)
      | None => mret tt
      end);;
    (* Do we have another branch to execute *)
    c ← Operator_childDataSource lastOp;
    match c with
    | Some child => execute_from child
    | None => emit EvFinished
    end;;
    Future_deleteLater future;;
    cur ← gets m_future;
    when (bool_decide (cur = Some future)) (modify (set_future None))
  else
    r ← Future_result future;
    vtk_Delete r.

Definition pipelineBranchCanceled (future : FutId) : M unit :=
  r ← Future_result future;
  vtk_Delete r;;
  Future_deleteLater future;;
  cur ← gets m_future;
  when (bool_decide (cur = Some future)) (modify (set_future None)).

Definition pause : M unit := modify (set_paused true).

Definition resume (run : bool) : M unit :=
  modify (set_paused false);;
  when run execute.

(** [Pipeline::cancel(std::function<void()> canceled)]; [None] is the
    empty function object. *)
Definition cancel (canceled : option nat) : M unit :=
  fut ← gets m_future;
  match fut with
  | Some f =>
      match canceled with
      | Some k => connect (SndFuture f) SigCanceled (SlotCallback k)
      | None => mret tt
      end;;
      Future_cancel f
  | None => mret tt
  end.

Definition isRunning : M bool :=
  fut ← gets m_future;
  match fut with
  | Some f => Future_isRunning f
  | None => mret false
  end.

(** The first [operatorAdded] lambda of [addDataSource]. *)
Definition operatorAdded_execute (op : OpId) : M unit :=
  ds ← Operator_dataSource op;
  execute_last ds true.

(** The second [operatorAdded] lambda of [addDataSource]. *)
Definition operatorAdded_relocate (op : OpId) : M unit :=
  connect (SndOperator op) SigTransformModified SlotExecuteAll;;
  (* We need to ensure we move add datasource to the end of the branch *)
  ds ← Operator_dataSource op;
  ops ← DataSource_operators ds;
  when (1 <? length ops) (
    t ← findTransformedDataSourceOperator ds;
    match t with
    | Some transformedDataSourceOp =>
        c ← Operator_childDataSource transformedDataSourceOp;
        Operator_setChildDataSource transformedDataSourceOp None;;
        Operator_setChildDataSource op c;;
        (* Delay emitting signal until next event loop *)
        transformedDataSource ← deref c;
        singleShot (EvDataSourceMoved op transformedDataSource)
    | None => mret tt
    end).

(** The [operatorRemoved] lambda of [addDataSource]. *)
Definition operatorRemoved (op : OpId) : M unit :=
  explicit ← Operator_hasChildDataSource op;
  c ← Operator_childDataSource op;
  when (negb explicit && bool_decide (is_Some c)) (
    transformedDataSource ← deref c;
    ds ← Operator_dataSource op;
    ops ← DataSource_operators ds;
    if negb (bool_decide (ops = [])) then
      (* We have an operator to move it to. *)
      newOp ← QList_last ops;
      Operator_setChildDataSource op None;;
      Operator_setChildDataSource newOp (Some transformedDataSource);;
      emit (EvDataSourceMoved newOp transformedDataSource)
    else
      (* Clean it up *)
      DataSource_removeAllOperators transformedDataSource;;
      DataSource_deleteLater transformedDataSource);;
  (* If pipeline is running see if we can safely remove the operator *)
  fut ← gets m_future;
  running ← match fut with
            | Some f => Future_isRunning f
            | None => mret false
            end;
  if (running : bool) then
    f ← deref fut;
    ok ← Future_cancelOp f op;
    when (negb ok) (ds ← Operator_dataSource op; execute_from ds)
  else
    (* Trigger the pipeline to run *)
    ds ← Operator_dataSource op;
    execute_from ds.

(** [Pipeline::ImageFuture::ImageFuture]. *)
Definition ImageFuture_new (op : OpId) (imageData : ObjId)
  (future : option FutId) : M ImgId :=
  n ← gets (fun s => length (imageFutures s));
  modify (fun s =>
    set_imageFutures (imageFutures s ++ [mkImageFuture op imageData future]) s);;
  match future with
  | Some f =>
      connect (SndFuture f) SigFinished (SlotImageFinished n);;
      connect (SndFuture f) SigCanceled (SlotImageCanceled n)
  | None => mret tt
  end;;
  mret n.

(** [Pipeline::getCopyOfImagePriorTo]; the payload of the root is image
    data, so that [vtkImageData::SafeDownCast] returns its argument. *)
Definition getCopyOfImagePriorTo (op : OpId) : M ImgId :=
  dataSource ← gets m_data;
  result ← DataSource_copyData dataSource;
  ops ← DataSource_operators dataSource;
  let immediate : M ImgId :=
    imageFuture ← ImageFuture_new op result None;
    (* Delay emitting signal until next event loop *)
    singleShot (EvImageFinished imageFuture true);;
    mret imageFuture in
  if 1 <? length ops then
    let index := indexOf ops op in
    (* Only run operators if we have some to run *)
    if (0 <? index)%Z then
      future ← Worker_run result (mid ops 0 index);
      ImageFuture_new op result (Some future)
    else immediate
  else immediate.

(** [Pipeline::Pipeline(dataSource, parent)], on arenas that already
    hold the data source and its operators. *)
Definition Pipeline_new (objs : list (option Payload)) (dss : list DataSource)
  (ops : list Operator) (dataSource : DsId) : option Pipeline :=
  exec (DataSource_setParent dataSource ThisPipeline;; addDataSource dataSource)
    (mkPipeline dataSource false None objs dss ops [] [] [] [] []).

(** ** Signal delivery *)

(** What a connected slot does when its signal arrives.  [snd] is
    [sender()]. *)
Definition run_slot (snd : Sender) (arg : SignalArg) (slot : Slot) : M unit :=
  match slot, snd, arg with
  | SlotAddedExecute, _, ArgOperator op => operatorAdded_execute op
  | SlotAddedRelocate, _, ArgOperator op => operatorAdded_relocate op
  | SlotRemoved, _, ArgOperator op => operatorRemoved op
  | SlotExecuteAll, _, _ => execute
  | SlotBranchFinished, SndFuture f, ArgBool r => pipelineBranchFinished f r
  | SlotBranchCanceled, SndFuture f, _ => pipelineBranchCanceled f
  | SlotImageFinished img, _, ArgBool r => emit (EvImageFinished img r)
  | SlotImageCanceled img, _, _ => emit (EvImageCanceled img)
  | SlotCallback k, _, _ => emit (EvCallback k)
  | _, _, _ => undefined
  end.

Definition sender_eqb (a b : Sender) : bool :=
  match a, b with
  | SndDataSource x, SndDataSource y => Nat.eqb x y
  | SndOperator x, SndOperator y => Nat.eqb x y
  | SndFuture x, SndFuture y => Nat.eqb x y
  | _, _ => false
  end.

Definition signal_eqb (a b : Signal) : bool :=
  match a, b with
  | SigOperatorAdded, SigOperatorAdded
  | SigOperatorRemoved, SigOperatorRemoved
  | SigTransformModified, SigTransformModified
  | SigFinished, SigFinished
  | SigCanceled, SigCanceled => true
  | _, _ => false
  end.

(** The slots connected to a signal of a sender, in connection order. *)
Fixpoint slots_of (conns : list Connection) (snd : Sender) (sig : Signal)
  : list Slot :=
  match conns with
  | [] => []
  | (s, g, slot) :: rest =>
      if sender_eqb s snd && signal_eqb g sig
      then slot :: slots_of rest snd sig
      else slots_of rest snd sig
  end.

Fixpoint run_slots (snd : Sender) (arg : SignalArg) (slots : list Slot)
  : M unit :=
  match slots with
  | [] => mret tt
  | slot :: rest => run_slot snd arg slot;; run_slots snd arg rest
  end.

(** A signal of a collaborator arrives: the slots connected when the
    emission starts run in connection order. *)
Definition deliver (snd : Sender) (sig : Signal) (arg : SignalArg) : M unit :=
  conns ← gets connections;
  run_slots snd arg (slots_of conns snd sig).

(** ** The collaborators' side of the events *)

(** Modelled from the spec: a step is added to a Data Node
    ([DataSource::addOperator], not part of the sources): the step joins
    the end of the node's sequence and the node notifies "step added". *)
Definition DataSource_addOperator (ds : DsId) (op : OpId) : M unit :=
  updDataSource ds (fun d => withOperators (ds_operators d ++ [op]) d);;
  deliver (SndDataSource ds) SigOperatorAdded (ArgOperator op).

(** Modelled from the spec: a step is removed from a Data Node
    ([DataSource::removeOperator], not part of the sources): the step
    leaves the node's sequence and the node notifies "step removed". *)
Definition DataSource_removeOperator (ds : DsId) (op : OpId) : M unit :=
  updDataSource ds (fun d =>
    withOperators (filter (fun o => o ≠ op) (ds_operators d)) d);;
  deliver (SndDataSource ds) SigOperatorRemoved (ArgOperator op).

(** Modelled from the spec: a handle reaches its terminal state. *)
Definition Future_setTerminated (f : FutId) : M unit :=
  updFuture f (withStatus FutTerminated).

(** Modelled from the spec: the terminal event [finished(success)] of an
    Execution Handle. *)
Definition Future_finished (f : FutId) (result : bool) : M unit :=
  Future_setTerminated f;;
  deliver (SndFuture f) SigFinished (ArgBool result).

(** Modelled from the spec: the terminal event [canceled()] of an
    Execution Handle. *)
Definition Future_canceled (f : FutId) : M unit :=
  Future_setTerminated f;;
  deliver (SndFuture f) SigCanceled ArgNone.

(** The next turn of the event loop: the zero-delay timers fire. *)
Definition processEvents : M unit :=
  modify (fun s => set_timers [] (set_trace (trace s ++ timers s) s)).

(** The last statements of the success path of
    [pipelineBranchFinished], named for the statements below:
    [future->deleteLater()] and the reset of [m_future] when it is this
    handle. *)
Definition release (future : FutId) : M unit :=
  Future_deleteLater future;;
  cur ← gets m_future;
  when (bool_decide (cur = Some future)) (modify (set_future None)).

(** Calls of [DataSource::setData] in a trace. *)
Definition is_setData (e : Event) : bool :=
  match e with
  | CallSetData _ _ => true
  | _ => false
  end.

(** Calls of [PipelineWorker::run] in a trace. *)
Definition is_run (e : Event) : bool :=
  match e with
  | CallRun _ _ _ => true
  | _ => false
  end.

(** ** Pure readings of the state, for the statements below *)

(** The implicit ("transformed") child of an operator: a child that the
    operator does not declare itself. *)
Definition implicitChild (o : Operator) : option DsId :=
  if op_hasChildDataSource o then None else op_childDataSource o.

(** What [findTransformedIn] computes, as a function of the operator
    arena: [None] when a pointer of the list dangles. *)
Fixpoint transformedIn (arena : list Operator) (ops : list OpId)
  : option (option OpId) :=
  match ops with
  | [] => Some None
  | op :: rest =>
      match arena !! op with
      | Some o =>
          if negb (op_hasChildDataSource o)
             && bool_decide (is_Some (op_childDataSource o))
          then Some (Some op)
          else transformedIn arena rest
      | None => None
      end
  end.

(** What [findTransformedDataSource] returns when
    [findTransformedDataSourceOperator] returned [t]. *)
Definition transformedChild (arena : list Operator) (t : option OpId)
  : option DsId :=
  match t with
  | Some top =>
      match arena !! top with
      | Some o => implicitChild o
      | None => None
      end
  | None => None
  end.

(** The pipeline after the first block of [executePipelineBranch]
    ("Cancel any running operators"). *)
Definition canceled_state (st : Pipeline) : Pipeline :=
  match m_future st with
  | Some f =>
      match futures st !! f with
      | Some x =>
          match fut_status x with
          | FutTerminated => st
          | _ => set_trace (trace st ++ [CallCancel f])
                   (set_futures (<[f := withStatus FutCanceling x]> (futures st)) st)
          end
      | None => st
      end
  | None => st
  end.

(** The two connections [executePipelineBranch] makes on a new handle. *)
Definition branch_connections (f : FutId) : list Connection :=
  [(SndFuture f, SigFinished, SlotBranchFinished);
   (SndFuture f, SigCanceled, SlotBranchCanceled)].

(** ** Frames: what a member function leaves related *)

(** Every defined run of [m] relates the pipeline before and after. *)
Definition frames (R : Pipeline -> Pipeline -> Prop) {A} (m : M A) : Prop :=
  forall s a s', m s = Some (a, s') -> R s s'.

(** The structure of an operator: everything but its execution state. *)
Definition skeleton (o : Operator) : Operator := withState OpPending o.

(** The graph: data sources, and operators up to their execution state. *)
Definition same_graph (s s' : Pipeline) : Prop :=
  m_data s' = m_data s /\
  m_paused s' = m_paused s /\
  dataSources s' = dataSources s /\
  skeleton <$> operators s' = skeleton <$> operators s /\
  timers s' = timers s.

(** The handles: the active handle, the handle arena, the connections. *)
Definition same_handles (s s' : Pipeline) : Prop :=
  m_future s' = m_future s /\
  futures s' = futures s /\
  connections s' = connections s.

(** The trace only grows. *)
Definition trace_extends (s s' : Pipeline) : Prop :=
  exists new, trace s' = trace s ++ new.

(** The repair of the graph after the removal of step [op], in the
    words of the specification: if the removed step owned an implicit
    child, the child moves to the new last step of the node and
    observers are notified; if no step remains, the steps of the
    orphaned child are detached and the child is discarded.  [st0] is
    the pipeline without the step in its node's list. *)
Definition repaired_after_removal (op : OpId) (st0 : Pipeline) : Pipeline :=
  match operators st0 !! op with
  | Some o =>
      match implicitChild o, dataSources st0 !! op_dataSource o with
      | Some c, Some d =>
          match last (ds_operators d) with
          | Some newOp =>
              set_trace (trace st0 ++ [EvDataSourceMoved newOp c])
                (set_operators
                   (alter (withChild (Some c)) newOp
                      (alter (withChild None) op (operators st0))) st0)
          | None =>
              set_trace
                (trace st0 ++
                   [CallRemoveAllOperators c; CallDeleteLaterDataSource c])
                (set_dataSources
                   (alter (withOperators []) c (dataSources st0)) st0)
          end
      | _, _ => st0
      end
  | None => st0
  end.

(** What the second "step added" handler leaves of the pipeline [st1]
    that the first one (the re-run of the branch) left, [st] being the
    pipeline before the event: it changes no data source, no handle and
    no data object, emits nothing, and connects the
    [transformModified] signal of the added step [op]; and when the
    node has more than one step and [t] is the step that holds the
    implicit child, the child [c] is detached from [t] and attached to
    [op], while [dataSourceMoved] waits on a zero-delay timer, which
    emits it at the next turn of the event loop. *)
Definition step_added_after (st : Pipeline) (d : DataSource) (op : OpId)
  (t : option OpId) (st1 st' : Pipeline) : Prop :=
  trace st' = trace st1 /\
  dataSources st' = dataSources st1 /\
  m_future st' = m_future st1 /\
  futures st' = futures st1 /\
  objects st' = objects st1 /\
  connections st'
    = connections st1 ++ [(SndOperator op, SigTransformModified, SlotExecuteAll)] /\
  (ds_operators d = [] \/ t = None ->
   operators st' = operators st1 /\ timers st' = timers st1) /\
  (forall top, ds_operators d <> [] -> t = Some top ->
   exists c,
     transformedChild (operators st) (Some top) = Some c /\
     operators st'
       = alter (withChild (Some c)) op
           (alter (withChild None) top (operators st1)) /\
     timers st' = timers st1 ++ [EvDataSourceMoved op c] /\
     trace <$> exec processEvents st'
       = Some (trace st1 ++ timers st1 ++ [EvDataSourceMoved op c])).

(** ** Handles of the pipeline *)

(** A handle dispatched by [executePipelineBranch]: its [finished]
    signal is connected to [pipelineBranchFinished] (the handles of
    previews are not). *)
Definition main_handle (s : Pipeline) (f : FutId) : Prop :=
  (SndFuture f, SigFinished, SlotBranchFinished) ∈ connections s.

(** An active handle of the pipeline: dispatched for a branch, still
    running, and not asked to cancel. *)
Definition active (s : Pipeline) (f : FutId) : Prop :=
  main_handle s f /\
  exists x, futures s !! f = Some x /\ fut_status x = FutRunning.

(** The invariant: an active handle is the one [m_future] points to,
    and connections are made on existing handles only. *)
Definition handles_ok (s : Pipeline) : Prop :=
  (forall f, active s f -> m_future s = Some f) /\
  (forall f sig slot,
     (SndFuture f, sig, slot) ∈ connections s -> f < length (futures s)).

(** The cancellation [executePipelineBranch] requests before it
    dispatches: of the handle [m_future] points to, if it is running. *)
Definition cancel_calls (s : Pipeline) : list Event :=
  match m_future s with
  | Some f =>
      match futures s !! f with
      | Some x =>
          match fut_status x with
          | FutTerminated => []
          | _ => [CallCancel f]
          end
      | None => []
      end
  | None => []
  end.

(** Between the cancellation and the dispatch: the handles are left
    alone and the worker is not called. *)
Definition prepares (s s' : Pipeline) : Prop :=
  same_handles s s' /\
  exists new, trace s' = trace s ++ new /\
              Forall (fun e => is_run e = false) new.

(** ** The events a pipeline lives through *)

(** The handle a signal comes from, if it comes from a handle. *)
Definition sender_future (snd : Sender) : option FutId :=
  match snd with
  | SndFuture f => Some f
  | _ => None
  end.

(** The handle whose terminal event is being delivered exists and is no
    longer running. *)
Definition settled (h : option FutId) (s : Pipeline) : Prop :=
  forall f, h = Some f ->
    exists x, futures s !! f = Some x /\ fut_status x <> FutRunning.

(** A member function keeps the invariant, while the terminal event of
    [h] is being delivered. *)
Definition keeps (h : option FutId) (s s' : Pipeline) : Prop :=
  handles_ok s /\ settled h s -> handles_ok s' /\ settled h s'.

(** One event: a call of the public interface, an edit of the graph, a
    terminal event of a handle, or a turn of the event loop. *)
Inductive event_step (s s' : Pipeline) : Prop :=
| step_execute : exec execute s = Some s' -> event_step s s'
| step_execute_last ds last :
    exec (execute_last ds last) s = Some s' -> event_step s s'
| step_execute_from ds : exec (execute_from ds) s = Some s' -> event_step s s'
| step_pause : exec pause s = Some s' -> event_step s s'
| step_resume run : exec (resume run) s = Some s' -> event_step s s'
| step_cancel k : exec (cancel k) s = Some s' -> event_step s s'
| step_isRunning : exec isRunning s = Some s' -> event_step s s'
| step_preview op :
    exec (getCopyOfImagePriorTo op) s = Some s' -> event_step s s'
| step_added ds op :
    exec (DataSource_addOperator ds op) s = Some s' -> event_step s s'
| step_removed ds op :
    exec (DataSource_removeOperator ds op) s = Some s' -> event_step s s'
| step_modified op :
    exec (deliver (SndOperator op) SigTransformModified ArgNone) s = Some s' ->
    event_step s s'
| step_finished f result :
    exec (Future_finished f result) s = Some s' -> event_step s s'
| step_canceled f : exec (Future_canceled f) s = Some s' -> event_step s s'
| step_events : exec processEvents s = Some s' -> event_step s s'.

(** The pipelines reachable from a new one. *)
Inductive reachable (s0 : Pipeline) : Pipeline -> Prop :=
| reachable_start : reachable s0 s0
| reachable_step s s' : reachable s0 s -> event_step s s' -> reachable s0 s'.


(** ** Further readings of the state *)

(** A step without an implicit child, in the arena. *)
Definition plain_step (arena : list Operator) (x : OpId) : Prop :=
  exists ox, arena !! x = Some ox /\ implicitChild ox = None.

(** The nodes of the graph, execution states included. *)
Definition same_nodes (s s' : Pipeline) : Prop :=
  dataSources s' = dataSources s /\ operators s' = operators s.

(** The payloads: the data objects and the data sources that hold
    them. *)
Definition same_payloads (s s' : Pipeline) : Prop :=
  objects s' = objects s /\ dataSources s' = dataSources s.

(** The structure of the graph: the data sources with their payload
    pointers and step lists, and the operators up to their execution
    state. *)
Definition same_structure (s s' : Pipeline) : Prop :=
  dataSources s' = dataSources s /\
  skeleton <$> operators s' = skeleton <$> operators s.

(** The calls and events that start, stop or watch the execution: the
    public entry points, the preview, the [canceled] event of a handle
    and its [finished(false)] event. *)
Inductive control (s s' : Pipeline) : Prop :=
| ctl_execute : exec execute s = Some s' -> control s s'
| ctl_execute_last ds last :
    exec (execute_last ds last) s = Some s' -> control s s'
| ctl_execute_from ds : exec (execute_from ds) s = Some s' -> control s s'
| ctl_pause : exec pause s = Some s' -> control s s'
| ctl_resume run : exec (resume run) s = Some s' -> control s s'
| ctl_cancel k : exec (cancel k) s = Some s' -> control s s'
| ctl_isRunning : exec isRunning s = Some s' -> control s s'
| ctl_preview op :
    exec (getCopyOfImagePriorTo op) s = Some s' -> control s s'
| ctl_canceled f : exec (Future_canceled f) s = Some s' -> control s s'
| ctl_failed f : exec (Future_finished f false) s = Some s' -> control s s'.

(** No run is dispatched: no handle joins the arena and the worker's
    [run] is not called. *)
Definition dispatches_nothing (s s' : Pipeline) : Prop :=
  length (futures s') = length (futures s) /\
  exists new, trace s' = trace s ++ new /\
              Forall (fun e => is_run e = false) new.

(** The pause flag is left alone and nothing is dispatched. *)
Definition silent (s s' : Pipeline) : Prop :=
  m_paused s' = m_paused s /\ dispatches_nothing s s'.

(** A paused pipeline stays paused and dispatches nothing. *)
Definition stays_paused (s s' : Pipeline) : Prop :=
  m_paused s = true -> m_paused s' = true /\ dispatches_nothing s s'.

(** One reaction of the pipeline: a call of its interface other than
    [resume] and the preview, the delivery of a signal to the slots
    connected to it, or an event of a collaborator that ends in such a
    delivery. *)
Inductive reaction (s s' : Pipeline) : Prop :=
| on_execute : exec execute s = Some s' -> reaction s s'
| on_execute_last ds last :
    exec (execute_last ds last) s = Some s' -> reaction s s'
| on_execute_from ds : exec (execute_from ds) s = Some s' -> reaction s s'
| on_pause : exec pause s = Some s' -> reaction s s'
| on_cancel k : exec (cancel k) s = Some s' -> reaction s s'
| on_isRunning : exec isRunning s = Some s' -> reaction s s'
| on_signal snd sig arg :
    exec (deliver snd sig arg) s = Some s' -> reaction s s'
| on_added ds op :
    exec (DataSource_addOperator ds op) s = Some s' -> reaction s s'
| on_removed ds op :
    exec (DataSource_removeOperator ds op) s = Some s' -> reaction s s'
| on_finished f result :
    exec (Future_finished f result) s = Some s' -> reaction s s'
| on_canceled f : exec (Future_canceled f) s = Some s' -> reaction s s'.

(** Releases of a handle in a trace: the [deleteLater] calls. *)
Definition is_release (e : Event) : bool :=
  match e with
  | CallDeleteLaterFuture _ => true
  | _ => false
  end.

(** The handle was handed to [deleteLater]: the event loop deletes it. *)
Definition released (s : Pipeline) (f : FutId) : Prop :=
  CallDeleteLaterFuture f ∈ trace s.

(** [m_future] is null or points to a live handle: a handle the worker
    returned and the pipeline did not release.  (The handles released
    are handles the worker returned, and no release waits on a
    timer.) *)
Definition future_live (s : Pipeline) : Prop :=
  (forall f, m_future s = Some f ->
     f < length (futures s) /\ ~ released s f) /\
  (forall f, released s f -> f < length (futures s)) /\
  Forall (fun e => is_release e = false) (timers s).

(** No handle is released and none leaves the arena. *)
Definition unreleasing (s s' : Pipeline) : Prop :=
  length (futures s) <= length (futures s') /\
  (exists new, trace s' = trace s ++ new /\
               Forall (fun e => is_release e = false) new) /\
  (Forall (fun e => is_release e = false) (timers s) ->
   Forall (fun e => is_release e = false) (timers s')).

(** The same, [m_future] being left alone. *)
Definition inert (s s' : Pipeline) : Prop :=
  m_future s' = m_future s /\ unreleasing s s'.

(** A member function keeps [m_future] live. *)
Definition keeps_live (s s' : Pipeline) : Prop :=
  future_live s -> future_live s'.

(** The slots connected to the [finished] signal of a handle. *)
Definition finished_slots (s : Pipeline) (f : FutId) : list Slot :=
  slots_of (connections s) (SndFuture f) SigFinished.

(** Every handle has one consumer: its [finished] signal goes to the
    pipeline ([pipelineBranchFinished]) or to one preview, or is not
    connected; and connections are made on existing handles only. *)
Definition one_consumer (s : Pipeline) : Prop :=
  (forall f sig slot,
     (SndFuture f, sig, slot) ∈ connections s -> f < length (futures s)) /\
  (forall f,
     finished_slots s f = [] \/
     finished_slots s f = [SlotBranchFinished] \/
     exists img, finished_slots s f = [SlotImageFinished img]).

(** No connection is made on a handle and no handle leaves the arena. *)
Definition unconnecting (s s' : Pipeline) : Prop :=
  length (futures s) <= length (futures s') /\
  exists new, connections s' = connections s ++ new /\
              Forall (fun c : Connection => sender_future c.1.1 = None) new.

(** A member function keeps [one_consumer]. *)
Definition keeps_consumer (s s' : Pipeline) : Prop :=
  one_consumer s -> one_consumer s'.

(** The [finished()] signal of the pipeline, in a trace. *)
Definition is_finished (e : Event) : bool :=
  match e with
  | EvFinished => true
  | _ => false
  end.

(** No operator declares an explicit child. *)
Definition no_explicit_child (s : Pipeline) : Prop :=
  Forall (fun o => op_hasChildDataSource o = false) (operators s).

(** No operator declares an explicit child, and [finished()] was not
    emitted and does not wait on a timer. *)
Definition unfinished (s : Pipeline) : Prop :=
  no_explicit_child s /\
  Forall (fun e => is_finished e = false) (trace s) /\
  Forall (fun e => is_finished e = false) (timers s).

(** The flags of the operators are kept and [finished()] is neither
    emitted nor queued. *)
Definition unfinishing (s s' : Pipeline) : Prop :=
  (no_explicit_child s -> no_explicit_child s') /\
  (exists new, trace s' = trace s ++ new /\
               Forall (fun e => is_finished e = false) new) /\
  (Forall (fun e => is_finished e = false) (timers s) ->
   Forall (fun e => is_finished e = false) (timers s')).

(** A member function keeps [unfinished]. *)
Definition keeps_unfinished (s s' : Pipeline) : Prop :=
  unfinished s -> unfinished s'.

(** The pipeline is left as it is. *)
Definition unchanged (s s' : Pipeline) : Prop := s' = s.

(** The operators are left as they are. *)
Definition same_operators (s s' : Pipeline) : Prop :=
  operators s' = operators s.


(** * Example pipelines *)

(** A root data source with payload [[1; 2]] and two pending steps. *)
Definition ex_two_steps : Pipeline :=
  mkPipeline 0 false None
    [Some [1; 2]%Z]
    [mkDataSource "root" (Some ThisPipeline) (Some 0) [0; 1]]
    [mkOperator 0 OpPending false None; mkOperator 0 OpPending false None]
    [] []
    [(SndDataSource 0, SigOperatorAdded, SlotAddedExecute);
     (SndDataSource 0, SigOperatorAdded, SlotAddedRelocate);
     (SndDataSource 0, SigOperatorRemoved, SlotRemoved)]
    [] [].

(** The same pipeline after [pause()]. *)
Definition ex_paused : Pipeline := set_paused true ex_two_steps.

(** The same pipeline while its branch runs: [execute()] was called. *)
Definition ex_running : Pipeline :=
  mkPipeline 0 false (Some 0)
    [Some [1; 2]%Z; Some [1; 2]%Z]
    [mkDataSource "root" (Some ThisPipeline) (Some 0) [0; 1]]
    [mkOperator 0 OpPending false None; mkOperator 0 OpPending false None]
    [mkFuture 1 [0; 1] FutRunning [0; 1]] []
    [(SndDataSource 0, SigOperatorAdded, SlotAddedExecute);
     (SndDataSource 0, SigOperatorAdded, SlotAddedRelocate);
     (SndDataSource 0, SigOperatorRemoved, SlotRemoved);
     (SndFuture 0, SigFinished, SlotBranchFinished);
     (SndFuture 0, SigCanceled, SlotBranchCanceled)]
    [] [EvStarted; CallRun 0 1 [0; 1]].

(** A root with one step whose implicit child "Output" holds [[5; 6]]
    and has two steps of its own. *)
Definition ex_child_branch : Pipeline :=
  mkPipeline 0 false None
    [Some [1; 2]%Z; Some [5; 6]%Z]
    [mkDataSource "root" (Some ThisPipeline) (Some 0) [0];
     mkDataSource "Output" (Some ThisPipeline) (Some 1) [1; 2]]
    [mkOperator 0 OpComplete false (Some 1);
     mkOperator 1 OpPending false None;
     mkOperator 1 OpPending false None]
    [] []
    [(SndDataSource 0, SigOperatorAdded, SlotAddedExecute);
     (SndDataSource 0, SigOperatorAdded, SlotAddedRelocate);
     (SndDataSource 0, SigOperatorRemoved, SlotRemoved);
     (SndDataSource 1, SigOperatorAdded, SlotAddedExecute);
     (SndDataSource 1, SigOperatorAdded, SlotAddedRelocate);
     (SndDataSource 1, SigOperatorRemoved, SlotRemoved)]
    [] [].

(** A root [[1; 2]] with steps 0, 1, 2: step 0 ran and its output
    [[7; 8]] is held by the implicit child, which moved to step 1 when
    that step was added; the run of step 1 was canceled; step 2 has just
    been added. *)
Definition ex_canceled_step : Pipeline :=
  mkPipeline 0 false None
    [Some [1; 2]%Z; Some [7; 8]%Z]
    [mkDataSource "root" (Some ThisPipeline) (Some 0) [0; 1; 2];
     mkDataSource "Output" (Some ThisPipeline) (Some 1) []]
    [mkOperator 0 OpComplete false None;
     mkOperator 0 OpCanceled false (Some 1);
     mkOperator 0 OpPending false None]
    [] []
    [(SndDataSource 0, SigOperatorAdded, SlotAddedExecute);
     (SndDataSource 0, SigOperatorAdded, SlotAddedRelocate);
     (SndDataSource 0, SigOperatorRemoved, SlotRemoved);
     (SndDataSource 1, SigOperatorAdded, SlotAddedExecute);
     (SndDataSource 1, SigOperatorAdded, SlotAddedRelocate);
     (SndDataSource 1, SigOperatorRemoved, SlotRemoved)]
    [] [].

(** A root whose single step ran: its output [[7; 8]] is held by the
    implicit child of step 0; step 1 exists and is about to be added. *)
Definition ex_before_add : Pipeline :=
  mkPipeline 0 false None
    [Some [1; 2]%Z; Some [7; 8]%Z]
    [mkDataSource "root" (Some ThisPipeline) (Some 0) [0];
     mkDataSource "Output" (Some ThisPipeline) (Some 1) []]
    [mkOperator 0 OpComplete false (Some 1);
     mkOperator 0 OpPending false None]
    [mkFuture 1 [0] FutTerminated [0]] []
    [(SndDataSource 0, SigOperatorAdded, SlotAddedExecute);
     (SndDataSource 0, SigOperatorAdded, SlotAddedRelocate);
     (SndDataSource 0, SigOperatorRemoved, SlotRemoved);
     (SndFuture 0, SigFinished, SlotBranchFinished);
     (SndFuture 0, SigCanceled, SlotBranchCanceled);
     (SndDataSource 1, SigOperatorAdded, SlotAddedExecute);
     (SndDataSource 1, SigOperatorAdded, SlotAddedRelocate);
     (SndDataSource 1, SigOperatorRemoved, SlotRemoved)]
    []
    [EvStarted; CallRun 0 1 [0]; CallSetData 1 1; CallDataModified 1;
     EvNewChildDataSource 0 1; EvStarted; CallDeleteLaterFuture 0].

(** A root with steps 0 and 1, whose branch ran: the implicit child
    holds the output [[7; 8]] and belongs to step 1; nothing runs. *)
Definition ex_before_remove : Pipeline :=
  mkPipeline 0 false None
    [Some [1; 2]%Z; Some [7; 8]%Z]
    [mkDataSource "root" (Some ThisPipeline) (Some 0) [0; 1];
     mkDataSource "Output" (Some ThisPipeline) (Some 1) []]
    [mkOperator 0 OpComplete false None;
     mkOperator 0 OpComplete false (Some 1)]
    [mkFuture 1 [0; 1] FutTerminated [0; 1]] []
    [(SndDataSource 0, SigOperatorAdded, SlotAddedExecute);
     (SndDataSource 0, SigOperatorAdded, SlotAddedRelocate);
     (SndDataSource 0, SigOperatorRemoved, SlotRemoved);
     (SndFuture 0, SigFinished, SlotBranchFinished);
     (SndFuture 0, SigCanceled, SlotBranchCanceled);
     (SndDataSource 1, SigOperatorAdded, SlotAddedExecute);
     (SndDataSource 1, SigOperatorAdded, SlotAddedRelocate);
     (SndDataSource 1, SigOperatorRemoved, SlotRemoved)]
    [] [].

(** The pipeline of [ex_canceled_step] before step 2 is added: the root
    [[1; 2]] has steps 0 and 1, the run of step 1 was canceled, and the
    implicit child, which holds [[7; 8]], belongs to step 1. *)
Definition ex_canceled_before_add : Pipeline :=
  mkPipeline 0 false None
    [Some [1; 2]%Z; Some [7; 8]%Z]
    [mkDataSource "root" (Some ThisPipeline) (Some 0) [0; 1];
     mkDataSource "Output" (Some ThisPipeline) (Some 1) []]
    [mkOperator 0 OpComplete false None;
     mkOperator 0 OpCanceled false (Some 1);
     mkOperator 0 OpPending false None]
    [] []
    [(SndDataSource 0, SigOperatorAdded, SlotAddedExecute);
     (SndDataSource 0, SigOperatorAdded, SlotAddedRelocate);
     (SndDataSource 0, SigOperatorRemoved, SlotRemoved);
     (SndDataSource 1, SigOperatorAdded, SlotAddedExecute);
     (SndDataSource 1, SigOperatorAdded, SlotAddedRelocate);
     (SndDataSource 1, SigOperatorRemoved, SlotRemoved)]
    [] [].
(** * Reasoning about member functions *)

Lemma bind_run {A B} (m : M A) (k : A -> M B) s a s' :
  m s = Some (a, s') -> (m ≫= k) s = k a s'.
Proof. intros H. unfold mbind, M_bind. now rewrite H. Qed.

Lemma M_bind_Some {A B} (m : M A) (k : A -> M B) s r :
  (m ≫= k) s = Some r <-> exists a s', m s = Some (a, s') /\ k a s' = Some r.
Proof.
  unfold mbind, M_bind. split.
  - destruct (m s) as [[a s']|]; [eauto | discriminate].
  - intros (a & s' & -> & H). exact H.
Qed.

Lemma getDataSource_run s ds d :
  dataSources s !! ds = Some d -> getDataSource ds s = Some (d, s).
Proof. intros H. unfold getDataSource, mbind, M_bind, gets. simpl. now rewrite H. Qed.

Lemma getOperator_run s op o :
  operators s !! op = Some o -> getOperator op s = Some (o, s).
Proof. intros H. unfold getOperator, mbind, M_bind, gets. simpl. now rewrite H. Qed.

Lemma getFuture_run s f x :
  futures s !! f = Some x -> getFuture f s = Some (x, s).
Proof. intros H. unfold getFuture, mbind, M_bind, gets. simpl. now rewrite H. Qed.

Lemma getObject_run s o p :
  objects s !! o = Some (Some p) -> getObject o s = Some (p, s).
Proof. intros H. unfold getObject, mbind, M_bind, gets. simpl. now rewrite H. Qed.


Lemma ret_bind {A B} (a : A) (k : A -> M B) s : (mret a ≫= k) s = k a s.
Proof. reflexivity. Qed.

Lemma bind_assoc {A B C} (m : M A) (k1 : A -> M B) (k2 : B -> M C) s :
  ((m ≫= k1) ≫= k2) s = (m ≫= (fun a => k1 a ≫= k2)) s.
Proof. unfold mbind, M_bind. now destruct (m s) as [[a s']|]. Qed.

Lemma gets_bind {A B} (g : Pipeline -> A) (k : A -> M B) s :
  (gets g ≫= k) s = k (g s) s.
Proof. reflexivity. Qed.

Lemma modify_bind {B} (g : Pipeline -> Pipeline) (k : unit -> M B) s :
  (modify g ≫= k) s = k tt (g s).
Proof. reflexivity. Qed.

Lemma snoc_lookup {A} (l : list A) (x : A) : (l ++ [x]) !! length l = Some x.
Proof. induction l; simpl; auto. Qed.

Lemma snoc_insert {A} (l : list A) (x y : A) :
  <[length l := y]> (l ++ [x]) = l ++ [y].
Proof. induction l; simpl; [reflexivity | now f_equal]. Qed.

Lemma snoc_lookup_lt {A} (l : list A) (x a : A) i :
  l !! i = Some a -> (l ++ [x]) !! i = Some a.
Proof. intros H. now apply lookup_app_l_Some. Qed.

Lemma QList_last_run {A} (l : list A) a s :
  last l = Some a -> QList_last l s = Some (a, s).
Proof. intros H. unfold QList_last. now rewrite H. Qed.

Lemma emit_run e s : emit e s = Some (tt, set_trace (trace s ++ [e]) s).
Proof. reflexivity. Qed.

Lemma connect_run a g t s :
  connect a g t s = Some (tt, set_connections (connections s ++ [(a, g, t)]) s).
Proof. reflexivity. Qed.

Lemma singleShot_run e s :
  singleShot e s = Some (tt, set_timers (timers s ++ [e]) s).
Proof. reflexivity. Qed.

Section RunLemmas.
Variable s : Pipeline.

Lemma updDataSource_run ds d g :
  dataSources s !! ds = Some d ->
  updDataSource ds g s
    = Some (tt, set_dataSources (<[ds := g d]> (dataSources s)) s).
Proof.
  intros H. unfold updDataSource.
  now rewrite (bind_run _ _ _ _ _ (getDataSource_run _ _ _ H)).
Qed.

Lemma updOperator_run op o g :
  operators s !! op = Some o ->
  updOperator op g s = Some (tt, set_operators (<[op := g o]> (operators s)) s).
Proof.
  intros H. unfold updOperator.
  now rewrite (bind_run _ _ _ _ _ (getOperator_run _ _ _ H)).
Qed.

Lemma updFuture_run f x g :
  futures s !! f = Some x ->
  updFuture f g s = Some (tt, set_futures (<[f := g x]> (futures s)) s).
Proof.
  intros H. unfold updFuture.
  now rewrite (bind_run _ _ _ _ _ (getFuture_run _ _ _ H)).
Qed.

Lemma DataSource_operators_run ds d :
  dataSources s !! ds = Some d ->
  DataSource_operators ds s = Some (ds_operators d, s).
Proof.
  intros H. unfold DataSource_operators.
  now rewrite (bind_run _ _ _ _ _ (getDataSource_run _ _ _ H)).
Qed.

Lemma DataSource_copyData_run ds d o p :
  dataSources s !! ds = Some d -> ds_data d = Some o ->
  objects s !! o = Some (Some p) ->
  DataSource_copyData ds s
    = Some (length (objects s), set_objects (objects s ++ [Some p]) s).
Proof.
  intros H Hd Ho. unfold DataSource_copyData.
  rewrite (bind_run _ _ _ _ _ (getDataSource_run _ _ _ H)), Hd. simpl.
  unfold mbind at 1, M_bind at 1. simpl.
  now rewrite (bind_run _ _ _ _ _ (getObject_run _ _ _ Ho)).
Qed.

Lemma DataSource_setData_run ds d o :
  dataSources s !! ds = Some d ->
  DataSource_setData ds o s
    = Some (tt, set_trace (trace s ++ [CallSetData ds o])
                  (set_dataSources
                     (<[ds := withData (Some o) d]> (dataSources s)) s)).
Proof.
  intros H. unfold DataSource_setData.
  now rewrite (bind_run _ _ _ _ _ (updDataSource_run _ _ _ H)).
Qed.

Lemma DataSource_dataModified_run ds d :
  dataSources s !! ds = Some d ->
  DataSource_dataModified ds s
    = Some (tt, set_trace (trace s ++ [CallDataModified ds]) s).
Proof.
  intros H. unfold DataSource_dataModified.
  now rewrite (bind_run _ _ _ _ _ (getDataSource_run _ _ _ H)).
Qed.

Lemma DataSource_setParent_run ds d p :
  dataSources s !! ds = Some d ->
  DataSource_setParent ds p s
    = Some (tt, set_dataSources
                  (<[ds := withParent (Some p) d]> (dataSources s)) s).
Proof. intros H. unfold DataSource_setParent. now rewrite (updDataSource_run _ _ _ H). Qed.

Lemma DataSource_new_run label :
  DataSource_new label s
    = Some (length (dataSources s),
            set_dataSources
              (dataSources s ++ [mkDataSource label None None []]) s).
Proof. reflexivity. Qed.

Lemma DataSource_removeAllOperators_run ds d :
  dataSources s !! ds = Some d ->
  DataSource_removeAllOperators ds s
    = Some (tt, set_trace (trace s ++ [CallRemoveAllOperators ds])
                  (set_dataSources
                     (<[ds := withOperators [] d]> (dataSources s)) s)).
Proof.
  intros H. unfold DataSource_removeAllOperators.
  now rewrite (bind_run _ _ _ _ _ (updDataSource_run _ _ _ H)).
Qed.

Lemma DataSource_deleteLater_run ds d :
  dataSources s !! ds = Some d ->
  DataSource_deleteLater ds s
    = Some (tt, set_trace (trace s ++ [CallDeleteLaterDataSource ds]) s).
Proof.
  intros H. unfold DataSource_deleteLater.
  now rewrite (bind_run _ _ _ _ _ (getDataSource_run _ _ _ H)).
Qed.

Lemma Operator_dataSource_run op o :
  operators s !! op = Some o ->
  Operator_dataSource op s = Some (op_dataSource o, s).
Proof.
  intros H. unfold Operator_dataSource.
  now rewrite (bind_run _ _ _ _ _ (getOperator_run _ _ _ H)).
Qed.

Lemma Operator_hasChildDataSource_run op o :
  operators s !! op = Some o ->
  Operator_hasChildDataSource op s = Some (op_hasChildDataSource o, s).
Proof.
  intros H. unfold Operator_hasChildDataSource.
  now rewrite (bind_run _ _ _ _ _ (getOperator_run _ _ _ H)).
Qed.

Lemma Operator_childDataSource_run op o :
  operators s !! op = Some o ->
  Operator_childDataSource op s = Some (op_childDataSource o, s).
Proof.
  intros H. unfold Operator_childDataSource.
  now rewrite (bind_run _ _ _ _ _ (getOperator_run _ _ _ H)).
Qed.

Lemma Operator_setChildDataSource_run op o c :
  operators s !! op = Some o ->
  Operator_setChildDataSource op c s
    = Some (tt, set_operators
                  (<[op := withChild c o]> (operators s)) s).
Proof.
  intros H. unfold Operator_setChildDataSource.
  now rewrite (updOperator_run _ _ _ H).
Qed.

Lemma Operator_isCanceled_run op o :
  operators s !! op = Some o ->
  Operator_isCanceled op s
    = Some (match op_state o with OpCanceled => true | _ => false end, s).
Proof.
  intros H. unfold Operator_isCanceled.
  now rewrite (bind_run _ _ _ _ _ (getOperator_run _ _ _ H)).
Qed.

Lemma Operator_resetState_run op o :
  operators s !! op = Some o ->
  Operator_resetState op s
    = Some (tt, set_trace (trace s ++ [CallResetState op])
                  (set_operators
                     (<[op := withState OpPending o]> (operators s)) s)).
Proof.
  intros H. unfold Operator_resetState.
  now rewrite (bind_run _ _ _ _ _ (updOperator_run _ _ _ H)).
Qed.

Lemma Worker_run_run data ops :
  Worker_run data ops s
    = Some (length (futures s),
            set_trace (trace s ++ [CallRun (length (futures s)) data ops])
              (set_futures (futures s ++ [mkFuture data ops FutRunning ops]) s)).
Proof. reflexivity. Qed.

Lemma Future_isRunning_run f x :
  futures s !! f = Some x ->
  Future_isRunning f s
    = Some (match fut_status x with FutTerminated => false | _ => true end, s).
Proof.
  intros H. unfold Future_isRunning.
  now rewrite (bind_run _ _ _ _ _ (getFuture_run _ _ _ H)).
Qed.

Lemma Future_cancel_run f x :
  futures s !! f = Some x ->
  Future_cancel f s
    = Some (tt, set_trace (trace s ++ [CallCancel f])
                  (set_futures
                     (<[f := withStatus
                  match fut_status x with
                  | FutTerminated => FutTerminated
                  | _ => FutCanceling
                  end x]> (futures s)) s)).
Proof.
  intros H. unfold Future_cancel.
  now rewrite (bind_run _ _ _ _ _ (updFuture_run _ _ _ H)).
Qed.

Lemma Future_cancelOp_run f x op :
  futures s !! f = Some x ->
  Future_cancelOp f op s
    = Some (existsb (Nat.eqb op) (fut_cancelable x),
            set_trace (trace s ++ [CallCancelOp f op]) s).
Proof.
  intros H. unfold Future_cancelOp.
  now rewrite (bind_run _ _ _ _ _ (getFuture_run _ _ _ H)).
Qed.

Lemma Future_result_run f x :
  futures s !! f = Some x -> Future_result f s = Some (fut_result x, s).
Proof.
  intros H. unfold Future_result.
  now rewrite (bind_run _ _ _ _ _ (getFuture_run _ _ _ H)).
Qed.

Lemma Future_operators_run f x :
  futures s !! f = Some x -> Future_operators f s = Some (fut_operators x, s).
Proof.
  intros H. unfold Future_operators.
  now rewrite (bind_run _ _ _ _ _ (getFuture_run _ _ _ H)).
Qed.

Lemma Future_deleteLater_run f x :
  futures s !! f = Some x ->
  Future_deleteLater f s
    = Some (tt, set_trace (trace s ++ [CallDeleteLaterFuture f]) s).
Proof.
  intros H. unfold Future_deleteLater.
  now rewrite (bind_run _ _ _ _ _ (getFuture_run _ _ _ H)).
Qed.

Lemma vtk_Delete_run o p :
  objects s !! o = Some (Some p) ->
  vtk_Delete o s
    = Some (tt, set_trace (trace s ++ [CallDelete o])
                  (set_objects (<[o := None]> (objects s)) s)).
Proof.
  intros H. unfold vtk_Delete.
  now rewrite (bind_run _ _ _ _ _ (getObject_run _ _ _ H)).
Qed.

Lemma addDataSource_run ds :
  addDataSource ds s
    = Some (tt, set_connections
                  (connections s ++
                     [(SndDataSource ds, SigOperatorAdded, SlotAddedExecute);
                      (SndDataSource ds, SigOperatorAdded, SlotAddedRelocate);
                      (SndDataSource ds, SigOperatorRemoved, SlotRemoved)]) s).
Proof.
  unfold addDataSource, connect, modify, mbind, M_bind, set_connections. simpl.
  now rewrite <- !app_assoc.
Qed.
End RunLemmas.

(** Projections of updated pipelines; to be called after every step, so
    that the pipeline stays a flat record. *)
Ltac pnorm :=
  cbn [m_data m_paused m_future objects dataSources operators futures
       imageFutures connections timers trace
       set_paused set_future set_objects set_dataSources set_operators
       set_futures set_imageFutures set_connections set_timers set_trace
       ds_label ds_parent ds_data ds_operators
       op_dataSource op_state op_hasChildDataSource op_childDataSource
       fut_result fut_operators fut_status fut_cancelable
       withChild withState withData withParent withOperators withStatus
       deref when negb fst snd].

(** The same, keeping the record updates folded. *)
Ltac pnorm0 :=
  cbn [m_data m_paused m_future objects dataSources operators futures
       imageFutures connections timers trace
       set_paused set_future set_objects set_dataSources set_operators
       set_futures set_imageFutures set_connections set_timers set_trace
       deref when negb fst snd].

Tactic Notation "pnorm0" "in" hyp(H) :=
  cbn [m_data m_paused m_future objects dataSources operators futures
       imageFutures connections timers trace
       set_paused set_future set_objects set_dataSources set_operators
       set_futures set_imageFutures set_connections set_timers set_trace
       deref when negb fst snd] in H.

(** One step of a member function whose first call is known to succeed. *)
Ltac mstep lem := rewrite (bind_run _ _ _ _ _ lem); pnorm.

(** The administrative steps: reassociation, [mret], [gets], [modify]. *)
Ltac mnorm :=
  repeat first
    [ rewrite bind_assoc | rewrite ret_bind | rewrite gets_bind
    | rewrite modify_bind | progress pnorm ].

(** One step, the first call being run by the tactic [tac]. *)
Tactic Notation "mrun" tactic3(tac) :=
  mnorm; erewrite bind_run by tac; mnorm.

(** * Properties of the pipeline *)

(** ** Paused pipeline, empty branch *)

(** C5 as stated fails: on the paused example pipeline the public entry
    point [execute(start)] is not a no-op, it emits [started()]
    before the branch routine looks at the pause flag. *)
Lemma C5_started_despite_pause :
  m_paused ex_paused = true /\
  exec (execute_from 0) ex_paused
    = Some (set_trace (trace ex_paused ++ [EvStarted]) ex_paused) /\
  exec (execute_from 0) ex_paused <> Some ex_paused.
Proof. repeat split. discriminate. Qed.

(** A paused pipeline or an empty branch: [executePipelineBranch]
    returns at once. *)
Lemma executePipelineBranch_idle st ds start :
  m_paused st = true \/ ds_operators <$> (dataSources st !! ds) = Some [] ->
  executePipelineBranch ds start st = Some (tt, st).
Proof.
  intros H. unfold executePipelineBranch.
  rewrite gets_bind.
  destruct (m_paused st) eqn:Hp; [reflexivity |].
  destruct H as [H | H]; [discriminate |].
  destruct (dataSources st !! ds) as [d|] eqn:Hd; [| discriminate].
  injection H as H.
  rewrite (bind_run _ _ _ _ _ (DataSource_operators_run _ _ _ Hd)).
  now rewrite H.
Qed.

Lemma execute_from_idle st ds :
  m_paused st = true \/ ds_operators <$> (dataSources st !! ds) = Some [] ->
  execute_from ds st = Some (tt, set_trace (trace st ++ [EvStarted]) st).
Proof.
  intros H. unfold execute_from. rewrite (bind_run _ _ _ _ _ (emit_run _ _)).
  now apply executePipelineBranch_idle.
Qed.

(** C5, amended: when the pipeline is paused or the target branch has no
    steps, [executePipelineBranch] changes nothing at all (no run is
    dispatched, no state changes, nothing is emitted), and the public
    entry points [execute(start)], [execute(start, false)] and
    [execute()] change nothing but the trace, to which they add exactly
    the [started()] notification they emit before the check. *)
Theorem C5_paused_or_empty_only_started (st : Pipeline) (ds : DsId) :
  m_paused st = true \/ ds_operators <$> (dataSources st !! ds) = Some [] ->
  (forall start, executePipelineBranch ds start st = Some (tt, st)) /\
  execute_from ds st = Some (tt, set_trace (trace st ++ [EvStarted]) st) /\
  execute_last ds false st = Some (tt, set_trace (trace st ++ [EvStarted]) st) /\
  (ds = m_data st ->
   execute st = Some (tt, set_trace (trace st ++ [EvStarted]) st)).
Proof.
  intros H. split; [| split; [| split]].
  - intros start. now apply executePipelineBranch_idle.
  - now apply execute_from_idle.
  - unfold execute_last. rewrite (bind_run _ _ _ _ _ (emit_run _ _)).
    rewrite ret_bind. now apply executePipelineBranch_idle.
  - intros ->. unfold execute. rewrite (bind_run _ _ _ _ _ (emit_run _ _)).
    rewrite gets_bind. now apply executePipelineBranch_idle.
Qed.

Lemma C5_paused_or_empty_only_started_witness :
  m_paused ex_paused = true /\
  execute_from 0 ex_paused
    = Some (tt, set_trace (trace ex_paused ++ [EvStarted]) ex_paused).
Proof.
  split; [reflexivity |].
  exact (proj1 (proj2
    (C5_paused_or_empty_only_started ex_paused 0 (or_introl eq_refl)))).
Defined.

(** ** Completion of a handle *)

(** What [pipelineBranchCanceled] does, the sibling of the failure path
    of [pipelineBranchFinished]: the result is deleted, the handle is
    released, and the active-handle reference is cleared when it is this
    handle. *)
Lemma pipelineBranchCanceled_run st f x p :
  futures st !! f = Some x ->
  objects st !! fut_result x = Some (Some p) ->
  pipelineBranchCanceled f st
    = Some (tt,
        set_future (if bool_decide (m_future st = Some f) then None else m_future st)
          (set_trace (trace st ++ [CallDelete (fut_result x); CallDeleteLaterFuture f])
            (set_objects (<[fut_result x := None]> (objects st)) st))).
Proof.
  intros Hf Ho. unfold pipelineBranchCanceled.
  mstep (Future_result_run _ _ _ Hf).
  mstep (vtk_Delete_run _ _ _ Ho).
  erewrite bind_run by (eapply Future_deleteLater_run; exact Hf).
  unfold mbind, M_bind, gets, when, modify, set_future, set_trace, set_objects.
  simpl. rewrite <- app_assoc. simpl.
  destruct (bool_decide (m_future st = Some f)); reflexivity.
Qed.

(** C4, on the code: when a handle completes unsuccessfully,
    [pipelineBranchFinished] deletes the handle's result and does nothing
    else: no data source and no operator changes, no run is dispatched,
    nothing is emitted.  In particular [m_future] keeps its value: the
    active-handle reference is NOT cleared (and the handle is not
    released), although the success path and [pipelineBranchCanceled]
    both do so. *)
Theorem C4_failed_handle_not_cleared (st : Pipeline) (f : FutId) (x : Future)
  (p : Payload) :
  futures st !! f = Some x ->
  objects st !! fut_result x = Some (Some p) ->
  exists st',
    pipelineBranchFinished f false st = Some (tt, st') /\
    st' = set_trace (trace st ++ [CallDelete (fut_result x)])
            (set_objects (<[fut_result x := None]> (objects st)) st) /\
    objects st' !! fut_result x = Some None /\
    m_future st' = m_future st /\
    dataSources st' = dataSources st /\
    operators st' = operators st /\
    futures st' = futures st.
Proof.
  intros Hf Ho. eexists. split; [| split; [reflexivity |]].
  - unfold pipelineBranchFinished.
    mstep (Future_result_run _ _ _ Hf).
    exact (vtk_Delete_run _ _ _ Ho).
  - simpl. split; [| easy].
    apply list_lookup_insert_eq. now apply lookup_lt_Some in Ho.
Qed.

Lemma C4_failed_handle_not_cleared_witness :
  exists st',
    pipelineBranchFinished 0 false ex_running = Some (tt, st') /\
    m_future st' = Some 0.
Proof.
  destruct (C4_failed_handle_not_cleared ex_running 0
              (mkFuture 1 [0; 1] FutRunning [0; 1]) [1; 2]%Z eq_refl eq_refl)
    as (st' & H & _ & _ & Hm & _).
  exists st'. split; [exact H | exact Hm].
Defined.

Lemma release_run st f x :
  futures st !! f = Some x ->
  release f st
    = Some (tt,
        set_future (if bool_decide (m_future st = Some f) then None else m_future st)
          (set_trace (trace st ++ [CallDeleteLaterFuture f]) st)).
Proof.
  intros Hf. unfold release.
  rewrite (bind_run _ _ _ _ _ (Future_deleteLater_run _ _ _ Hf)).
  rewrite gets_bind. simpl.
  destruct (bool_decide (m_future st = Some f)); [reflexivity |].
  simpl. unfold mret, M_ret. now destruct st.
Qed.

(** C1: completion handling of a handle that completed successfully,
    with [lastOp] the last step it ran.  If [lastOp] has no explicit
    child, an implicit child is ensured and the handle's result is
    stored into it: when [lastOp] has no child yet, a data source
    "Output" is created (the next cell of the arena), parented under the
    pipeline, wired with [addDataSource], made the child of [lastOp],
    and [newChildDataSource] is emitted once; when the implicit child is
    already there, nothing is created and nothing is announced.  Then,
    if [lastOp] has a child (explicit or implicit), [execute(child)] is
    called on it, and otherwise [finished()] is emitted; the handle is
    released at the end. *)
Theorem C1_branch_finished_success (st : Pipeline) (f : FutId) (x : Future)
  (lastOp : OpId) (o : Operator) :
  futures st !! f = Some x ->
  last (fut_operators x) = Some lastOp ->
  operators st !! lastOp = Some o ->
  let r := fut_result x in
  (* an explicit child: nothing is created or stored, its branch runs *)
  (op_hasChildDataSource o = true ->
   forall c, op_childDataSource o = Some c ->
   pipelineBranchFinished f true st = (execute_from c;; release f) st) /\
  (* no child at all: the pipeline is finished *)
  (op_hasChildDataSource o = true -> op_childDataSource o = None ->
   pipelineBranchFinished f true st
     = Some (tt,
         set_future (if bool_decide (m_future st = Some f) then None
                     else m_future st)
           (set_trace (trace st ++ [EvFinished; CallDeleteLaterFuture f]) st))) /\
  (* the implicit child is there already: the result is stored into it *)
  (op_hasChildDataSource o = false ->
   forall c dc, op_childDataSource o = Some c -> dataSources st !! c = Some dc ->
   pipelineBranchFinished f true st
     = (execute_from c;; release f)
         (set_trace (trace st ++ [CallSetData c r; CallDataModified c])
           (set_dataSources
              (<[c := withData (Some r) dc]> (dataSources st)) st))) /\
  (* no child yet: one is created, under the pipeline, and announced *)
  (op_hasChildDataSource o = false -> op_childDataSource o = None ->
   let n := length (dataSources st) in
   pipelineBranchFinished f true st
     = Some (tt,
         set_future (if bool_decide (m_future st = Some f) then None
                     else m_future st)
         (set_trace
            (trace st ++ [CallSetData n r; CallDataModified n;
                          EvNewChildDataSource lastOp n;
                          EvStarted; CallDeleteLaterFuture f])
           (set_connections
              (connections st ++
                 [(SndDataSource n, SigOperatorAdded, SlotAddedExecute);
                  (SndDataSource n, SigOperatorAdded, SlotAddedRelocate);
                  (SndDataSource n, SigOperatorRemoved, SlotRemoved)])
              (set_operators
                 (<[lastOp := withChild (Some n) o]> (operators st))
                 (set_dataSources
                    (dataSources st ++
                       [mkDataSource "Output" (Some ThisPipeline) (Some r) []])
                    st)))))).
Proof.
  intros Hf Hl Ho r.
  assert (Hstart :
    pipelineBranchFinished f true st
    = (when (negb (op_hasChildDataSource o)) (
      c ← Operator_childDataSource lastOp;
      newChildDataSource ←
        match c with
        | None =>
            n ← DataSource_new "Output";
            DataSource_setParent n ThisPipeline;;
            addDataSource n;;
            Operator_setChildDataSource lastOp (Some n);;
            mret (Some n)
        | Some _ => mret None
        end;
      c1 ← Operator_childDataSource lastOp;
      child ← deref c1;
      r ← Future_result f;
      DataSource_setData child r;;
      DataSource_dataModified child;;
      match newChildDataSource with
      | Some n => emit (EvNewChildDataSource lastOp n)
      | None => mret tt
      end);;
    c ← Operator_childDataSource lastOp;
    match c with
    | Some child => execute_from child
    | None => emit EvFinished
    end;; release f) st).
  { unfold pipelineBranchFinished.
    rewrite (bind_run _ _ _ _ _ (Future_operators_run _ _ _ Hf)).
    rewrite (bind_run _ _ _ _ _ (QList_last_run _ _ _ Hl)).
    rewrite (bind_run _ _ _ _ _ (Operator_hasChildDataSource_run _ _ _ Ho)).
    reflexivity. }
  rewrite Hstart. clear Hstart.
  split; [| split; [| split]].
  - intros He c Hc. rewrite He. simpl. rewrite ret_bind.
    rewrite (bind_run _ _ _ _ _ (Operator_childDataSource_run _ _ _ Ho)).
    now rewrite Hc.
  - intros He Hc. rewrite He. simpl. rewrite ret_bind.
    rewrite (bind_run _ _ _ _ _ (Operator_childDataSource_run _ _ _ Ho)).
    rewrite Hc. rewrite (bind_run _ _ _ _ _ (emit_run _ _)).
    erewrite release_run by exact Hf.
    unfold set_trace, set_future. simpl. now rewrite <- app_assoc.
  - intros He c dc Hc Hdc. rewrite He. simpl.
    erewrite bind_run; cycle 1.
    { rewrite (bind_run _ _ _ _ _ (Operator_childDataSource_run _ _ _ Ho)).
      rewrite Hc, ret_bind.
      rewrite (bind_run _ _ _ _ _ (Operator_childDataSource_run _ _ _ Ho)).
      rewrite Hc. simpl. rewrite ret_bind.
      rewrite (bind_run _ _ _ _ _ (Future_result_run _ _ _ Hf)).
      rewrite (bind_run _ _ _ _ _ (DataSource_setData_run _ _ _ r Hdc)).
      erewrite bind_run; cycle 1.
      { eapply DataSource_dataModified_run. simpl.
        apply list_lookup_insert_eq. now apply lookup_lt_Some in Hdc. }
      unfold mret, M_ret, set_trace. simpl. rewrite <- app_assoc. reflexivity. }
    erewrite bind_run; cycle 1.
    { eapply Operator_childDataSource_run. simpl. exact Ho. }
    rewrite Hc. reflexivity.
  - intros He Hc n. rewrite He. simpl.
    assert (Hlt : lastOp < length (operators st)) by now apply lookup_lt_Some in Ho.
    erewrite bind_run; cycle 1.
    { mstep (Operator_childDataSource_run _ _ _ Ho).
      rewrite Hc.
      erewrite (bind_run (DataSource_new "Output" ≫= _)); cycle 1.
      { mstep (DataSource_new_run st "Output").
        erewrite bind_run by (eapply DataSource_setParent_run; apply snoc_lookup).
        pnorm. rewrite snoc_insert.
        rewrite (bind_run _ _ _ _ _ (addDataSource_run _ _)). pnorm.
        erewrite bind_run by (eapply Operator_setChildDataSource_run; exact Ho).
        pnorm. reflexivity. }
      erewrite bind_run
        by (eapply Operator_childDataSource_run; now apply list_lookup_insert_eq).
      pnorm. rewrite ret_bind.
      erewrite bind_run by (eapply Future_result_run; exact Hf).
      erewrite bind_run by (eapply DataSource_setData_run; apply snoc_lookup).
      pnorm. rewrite snoc_insert.
      erewrite bind_run by (eapply DataSource_dataModified_run; apply snoc_lookup).
      pnorm. rewrite emit_run. pnorm. rewrite <- !app_assoc. simpl app.
      reflexivity. }
    erewrite bind_run
      by (eapply Operator_childDataSource_run; now apply list_lookup_insert_eq).
    pnorm. erewrite bind_run; cycle 1.
    { apply execute_from_idle. right. pnorm. now rewrite snoc_lookup. }
    pnorm. erewrite release_run by exact Hf.
    pnorm. now rewrite <- !app_assoc.
Qed.

Lemma C1_branch_finished_success_witness :
  pipelineBranchFinished 0 true ex_running
  = Some (tt,
      mkPipeline 0 false None
        [Some [1; 2]%Z; Some [1; 2]%Z]
        [mkDataSource "root" (Some ThisPipeline) (Some 0) [0; 1];
         mkDataSource "Output" (Some ThisPipeline) (Some 1) []]
        [mkOperator 0 OpPending false None;
         mkOperator 0 OpPending false (Some 1)]
        [mkFuture 1 [0; 1] FutRunning [0; 1]] []
        [(SndDataSource 0, SigOperatorAdded, SlotAddedExecute);
         (SndDataSource 0, SigOperatorAdded, SlotAddedRelocate);
         (SndDataSource 0, SigOperatorRemoved, SlotRemoved);
         (SndFuture 0, SigFinished, SlotBranchFinished);
         (SndFuture 0, SigCanceled, SlotBranchCanceled);
         (SndDataSource 1, SigOperatorAdded, SlotAddedExecute);
         (SndDataSource 1, SigOperatorAdded, SlotAddedRelocate);
         (SndDataSource 1, SigOperatorRemoved, SlotRemoved)]
        []
        [EvStarted; CallRun 0 1 [0; 1]; CallSetData 1 1; CallDataModified 1;
         EvNewChildDataSource 1 1; EvStarted; CallDeleteLaterFuture 0]).
Proof.
  exact (proj2 (proj2 (proj2
    (C1_branch_finished_success ex_running 0
       (mkFuture 1 [0; 1] FutRunning [0; 1]) 1
       (mkOperator 0 OpPending false None) eq_refl eq_refl eq_refl)))
    eq_refl eq_refl).
Defined.

(** ** Qt containers *)

Lemma indexOf_lower (l : list nat) x : (-1 <= indexOf l x)%Z.
Proof.
  induction l as [| y l IH]; simpl; [lia |].
  destruct (Nat.eqb y x); [lia |].
  destruct (indexOf l x <? 0)%Z eqn:E; lia.
Qed.

Lemma indexOf_upper (l : list nat) x : (indexOf l x < Z.of_nat (length l))%Z.
Proof.
  induction l as [| y l IH]; simpl length; simpl indexOf; [lia |].
  destruct (Nat.eqb y x); [lia |].
  destruct (indexOf l x <? 0)%Z eqn:E; lia.
Qed.

(** The position [indexOf] finds is the first one. *)
Lemma indexOf_first (pre post : list nat) x :
  x ∉ pre -> indexOf (pre ++ x :: post) x = Z.of_nat (length pre).
Proof.
  induction pre as [| y pre IH]; intros Hx.
  - simpl. now rewrite Nat.eqb_refl.
  - simpl length. simpl indexOf.
    apply not_elem_of_cons in Hx as [Hne Hx].
    destruct (Nat.eqb y x) eqn:E; [apply Nat.eqb_eq in E; congruence |].
    rewrite (IH Hx).
    destruct (Z.of_nat (length pre) <? 0)%Z eqn:E2; lia.
Qed.

Lemma indexOf_absent (l : list nat) x : x ∉ l -> indexOf l x = (-1)%Z.
Proof.
  induction l as [| y l IH]; intros Hx; [reflexivity |].
  apply not_elem_of_cons in Hx as [Hne Hx]. simpl.
  destruct (Nat.eqb y x) eqn:E; [apply Nat.eqb_eq in E; congruence |].
  now rewrite (IH Hx).
Qed.

(** [mid(0, n)] is the prefix of length [n]. *)
Lemma mid_prefix {A} (l : list A) (n : nat) :
  n <= length l -> mid l 0 (Z.of_nat n) = take n l.
Proof.
  intros Hn. unfold mid.
  destruct (Z.of_nat (length l) <? 0)%Z eqn:E1; [lia |].
  simpl (0 <? 0)%Z. cbv iota.
  destruct (Z.of_nat n <? 0)%Z eqn:E2; [lia |]. simpl orb.
  destruct (Z.of_nat (length l) - 0 <? Z.of_nat n)%Z eqn:E3; [lia |].
  now rewrite Nat2Z.id.
Qed.

(** [mid(i)] is the suffix from position [i]. *)
Lemma mid_suffix {A} (l : list A) (n : nat) :
  n <= length l -> mid l (Z.of_nat n) (-1) = drop n l.
Proof.
  intros Hn. unfold mid.
  destruct (Z.of_nat (length l) <? Z.of_nat n)%Z eqn:E1; [lia |].
  destruct (Z.of_nat n <? 0)%Z eqn:E2; [lia |].
  simpl. rewrite Nat2Z.id.
  replace (Z.to_nat (Z.of_nat (length l) - Z.of_nat n)) with (length l - n) by lia.
  rewrite <- length_drop. apply firstn_all.
Qed.

(** ** Preview *)

Lemma slots_of_app c1 c2 snd sig :
  slots_of (c1 ++ c2) snd sig = slots_of c1 snd sig ++ slots_of c2 snd sig.
Proof.
  induction c1 as [| [[a g] t] c1 IH]; simpl; [reflexivity |].
  destruct (sender_eqb a snd && signal_eqb g sig); simpl; now rewrite IH.
Qed.

(** [getCopyOfImagePriorTo], evaluated: everything it reads belongs to
    the root data source [m_data]. *)
Lemma getCopyOfImagePriorTo_run st op d o p :
  dataSources st !! m_data st = Some d ->
  ds_data d = Some o ->
  objects st !! o = Some (Some p) ->
  let ops := ds_operators d in
  let r := length (objects st) in
  let img := length (imageFutures st) in
  let f := length (futures st) in
  getCopyOfImagePriorTo op st
  = Some (img,
      if (1 <? length ops) && (0 <? indexOf ops op)%Z then
        let steps := mid ops 0 (indexOf ops op) in
        set_connections
          (connections st ++ [(SndFuture f, SigFinished, SlotImageFinished img);
                              (SndFuture f, SigCanceled, SlotImageCanceled img)])
          (set_imageFutures (imageFutures st ++ [mkImageFuture op r (Some f)])
             (set_trace (trace st ++ [CallRun f r steps])
                (set_futures (futures st ++ [mkFuture r steps FutRunning steps])
                   (set_objects (objects st ++ [Some p]) st))))
      else
        set_timers (timers st ++ [EvImageFinished img true])
          (set_imageFutures (imageFutures st ++ [mkImageFuture op r None])
             (set_objects (objects st ++ [Some p]) st))).
Proof.
  intros Hd Hdata Ho ops r img f. unfold getCopyOfImagePriorTo.
  rewrite gets_bind.
  rewrite (bind_run _ _ _ _ _ (DataSource_copyData_run _ _ _ _ _ Hd Hdata Ho)).
  erewrite bind_run by (eapply DataSource_operators_run; exact Hd).
  fold ops.
  destruct (1 <? length ops); simpl; [| reflexivity].
  destruct (0 <? indexOf ops op)%Z; simpl; [| reflexivity].
  unfold ImageFuture_new, Worker_run, connect, emit, modify, gets, mbind, M_bind,
    mret, M_ret, set_connections. simpl.
  now rewrite <- app_assoc.
Qed.

(** C10: [getCopyOfImagePriorTo(op)] reads the root data source
    [m_data] only, whichever data source owns [op] (nothing is assumed
    about [op], not even that it exists): the payload copied is the
    root's and the position of [op] is looked up in the root's operator
    list [ops].  When [ops] has at most one operator or the position is
    not strictly positive (in particular when [op] is not in [ops], the
    position being -1 then), no run is dispatched and the handle holds
    the unmodified copy and resolves at the next turn of the event loop;
    otherwise the run is dispatched over [ops.mid(0, index)] on the
    copy. *)
Theorem C10_preview_reads_root_only (st : Pipeline) (op : OpId)
  (d : DataSource) (o : ObjId) (p : Payload) :
  dataSources st !! m_data st = Some d ->
  ds_data d = Some o ->
  objects st !! o = Some (Some p) ->
  let ops := ds_operators d in
  let r := length (objects st) in
  let img := length (imageFutures st) in
  let f := length (futures st) in
  exists st',
    getCopyOfImagePriorTo op st = Some (img, st') /\
    objects st' = objects st ++ [Some p] /\
    (length ops <= 1 \/ (indexOf ops op <= 0)%Z \/ op ∉ ops ->
     imageFutures st' = imageFutures st ++ [mkImageFuture op r None] /\
     futures st' = futures st /\
     trace st' = trace st /\
     timers st' = timers st ++ [EvImageFinished img true] /\
     exec processEvents st'
       = Some (set_timers []
                 (set_trace (trace st ++ timers st ++ [EvImageFinished img true])
                    st'))) /\
    (1 < length ops -> (0 < indexOf ops op)%Z ->
     let steps := mid ops 0 (indexOf ops op) in
     imageFutures st' = imageFutures st ++ [mkImageFuture op r (Some f)] /\
     futures st' = futures st ++ [mkFuture r steps FutRunning steps] /\
     trace st' = trace st ++ [CallRun f r steps] /\
     timers st' = timers st).
Proof.
  intros Hd Hdata Ho ops r img f. eexists. split.
  { exact (getCopyOfImagePriorTo_run st op d o p Hd Hdata Ho). }
  fold ops.
  destruct (1 <? length ops) eqn:E1; destruct (0 <? indexOf ops op)%Z eqn:E2;
    cbn [andb]; (split; [reflexivity |]); split.
  - intros [H | [H | H]];
      [apply Nat.ltb_lt in E1 | apply Z.ltb_lt in E2
      | apply Z.ltb_lt in E2; rewrite (indexOf_absent _ _ H) in E2]; lia.
  - intros _ _. repeat split.
  - intros _. unfold processEvents, exec, modify. pnorm. repeat split.
  - intros _ H. apply Z.ltb_ge in E2. lia.
  - intros _. unfold processEvents, exec, modify. pnorm. repeat split.
  - intros H. apply Nat.ltb_ge in E1. lia.
  - intros _. unfold processEvents, exec, modify. pnorm. repeat split.
  - intros H. apply Nat.ltb_ge in E1. lia.
Qed.

Lemma C10_preview_reads_root_only_witness :
  exists st',
    getCopyOfImagePriorTo 2 ex_child_branch = Some (0, st') /\
    objects st' = [Some [1; 2]%Z; Some [5; 6]%Z; Some [1; 2]%Z].
Proof.
  destruct (C10_preview_reads_root_only ex_child_branch 2
              (mkDataSource "root" (Some ThisPipeline) (Some 0) [0]) 0 [1; 2]%Z
              eq_refl eq_refl eq_refl) as (st' & H & Hobj & _).
  exists st'. split; [exact H | exact Hobj].
Defined.

(** C9: [getCopyOfImagePriorTo] modifies no stored payload: no data
    source and no operator changes, every data object that existed keeps
    its contents, [setData] is not called, and the data object the
    preview (and the run it may dispatch) works on is a new cell of the
    arena, a copy, which no data source points to.  The pipeline's own
    handle [m_future] is left alone as well. *)
Theorem C9_preview_writes_no_payload (st : Pipeline) (op : OpId)
  (d : DataSource) (o : ObjId) (p : Payload) :
  dataSources st !! m_data st = Some d ->
  ds_data d = Some o ->
  objects st !! o = Some (Some p) ->
  exists img st' new,
    getCopyOfImagePriorTo op st = Some (img, st') /\
    dataSources st' = dataSources st /\
    operators st' = operators st /\
    m_future st' = m_future st /\
    objects st' = objects st ++ [Some p] /\
    (forall i, i < length (objects st) -> objects st' !! i = objects st !! i) /\
    trace st' = trace st ++ new /\
    forallb (fun e => negb (is_setData e)) new = true /\
    (exists im, imageFutures st' !! img = Some im /\
                img_imageData im = length (objects st)) /\
    (forall ds d' o', dataSources st' !! ds = Some d' -> ds_data d' = Some o' ->
       is_Some (objects st !! o') -> o' <> length (objects st)).
Proof.
  intros Hd Hdata Ho.
  pose proof (getCopyOfImagePriorTo_run st op d o p Hd Hdata Ho) as Hrun.
  cbv zeta in Hrun.
  assert (Hfresh : forall ds d' o', dataSources st !! ds = Some d' ->
            ds_data d' = Some o' -> is_Some (objects st !! o') ->
            o' <> length (objects st)).
  { intros ds d' o' _ _ Hs. apply lookup_lt_is_Some in Hs. lia. }
  destruct ((1 <? length (ds_operators d)) && (0 <? indexOf (ds_operators d) op)%Z).
  - eexists _, _, [CallRun _ _ _]. split; [exact Hrun |]. pnorm.
    repeat split; try reflexivity.
    + intros i Hi. now apply lookup_app_l.
    + eexists. split; [apply snoc_lookup | reflexivity].
    + exact Hfresh.
  - eexists _, _, []. split; [exact Hrun |]. pnorm.
    repeat split; try reflexivity.
    + intros i Hi. now apply lookup_app_l.
    + now rewrite app_nil_r.
    + eexists. split; [apply snoc_lookup | reflexivity].
    + exact Hfresh.
Qed.

Lemma C9_preview_writes_no_payload_witness :
  exists img st',
    getCopyOfImagePriorTo 1 ex_running = Some (img, st') /\
    dataSources st' = dataSources ex_running.
Proof.
  destruct (C9_preview_writes_no_payload ex_running 1
              (mkDataSource "root" (Some ThisPipeline) (Some 0) [0; 1]) 0
              [1; 2]%Z eq_refl eq_refl eq_refl)
    as (img & st' & new & H & Hds & _).
  exists img, st'. split; [exact H | exact Hds].
Defined.

(** C8 as stated fails for a step of a data source other than the root:
    in the example, step 2 is the second step of the child data source 1
    (payload [[5; 6]], steps [[1; 2]]), so the claim asks for a run over
    [[1]] on a copy of [[5; 6]]; the code dispatches no run and the
    handle holds a copy of the root's payload [[1; 2]]. *)
Lemma C8_preview_of_child_step_runs_nothing :
  operators ex_child_branch !! 2 = Some (mkOperator 1 OpPending false None) /\
  dataSources ex_child_branch !! 1
    = Some (mkDataSource "Output" (Some ThisPipeline) (Some 1) [1; 2]) /\
  objects ex_child_branch !! 1 = Some (Some [5; 6]%Z) /\
  exists st',
    getCopyOfImagePriorTo 2 ex_child_branch = Some (0, st') /\
    futures st' = [] /\
    forallb (fun e => negb (is_run e)) (trace st') = true /\
    imageFutures st' = [mkImageFuture 2 2 None] /\
    objects st' !! 2 = Some (Some [1; 2]%Z).
Proof.
  repeat (split; [reflexivity |]).
  exists (set_timers [EvImageFinished 0 true]
            (set_imageFutures [mkImageFuture 2 2 None]
               (set_objects [Some [1; 2]%Z; Some [5; 6]%Z; Some [1; 2]%Z]
                  ex_child_branch))).
  repeat (split; [reflexivity |]). reflexivity.
Qed.

(** The two signal-to-signal connections of the [ImageFuture]
    constructor forward the terminal events of the wrapped handle. *)
Lemma image_future_forwards st f x img c :
  futures st !! f = Some x ->
  connections st
    = c ++ [(SndFuture f, SigFinished, SlotImageFinished img);
            (SndFuture f, SigCanceled, SlotImageCanceled img)] ->
  (forall sig, slots_of c (SndFuture f) sig = []) ->
  (forall res, exists st'',
     Future_finished f res st = Some (tt, st'') /\
     trace st'' = trace st ++ [EvImageFinished img res]) /\
  (exists st'',
     Future_canceled f st = Some (tt, st'') /\
     trace st'' = trace st ++ [EvImageCanceled img]).
Proof.
  intros Hf Hc Hnone. split; [intros res |]; eexists.
  - split.
    + unfold Future_finished, Future_setTerminated.
      mstep (updFuture_run _ _ _
               (withStatus FutTerminated) Hf).
      unfold deliver. rewrite gets_bind. pnorm.
      rewrite Hc, slots_of_app, Hnone. simpl. rewrite Nat.eqb_refl. simpl.
      reflexivity.
    + reflexivity.
  - split.
    + unfold Future_canceled, Future_setTerminated.
      mstep (updFuture_run _ _ _
               (withStatus FutTerminated) Hf).
      unfold deliver. rewrite gets_bind. pnorm.
      rewrite Hc, slots_of_app, Hnone. simpl. rewrite Nat.eqb_refl. simpl.
      reflexivity.
    + reflexivity.
Qed.

(** C8, amended: for a step [op] of the ROOT data source, with [pre] the
    steps strictly before its first position: if [op] is the first step
    ([pre] empty), no run is dispatched and the handle, holding a copy
    of the root's payload, resolves at the next turn of the event loop;
    otherwise one run is dispatched over exactly [pre] on a copy of the
    root's payload, and the handle forwards that run's finished and
    canceled events.  (For a step that is not in the root's list the
    handle resolves at once with the copy of the root's payload;
    [getCopyOfImagePriorTo] never looks at the step's own data
    source.) *)
Theorem C8_preview_of_root_step (st : Pipeline) (op : OpId) (d : DataSource)
  (o : ObjId) (p : Payload) (pre post : list OpId) :
  dataSources st !! m_data st = Some d ->
  ds_data d = Some o ->
  objects st !! o = Some (Some p) ->
  ds_operators d = pre ++ op :: post ->
  op ∉ pre ->
  (forall sig, slots_of (connections st) (SndFuture (length (futures st))) sig = []) ->
  let r := length (objects st) in
  let img := length (imageFutures st) in
  let f := length (futures st) in
  exists st',
    getCopyOfImagePriorTo op st = Some (img, st') /\
    objects st' = objects st ++ [Some p] /\
    (pre = [] ->
     imageFutures st' = imageFutures st ++ [mkImageFuture op r None] /\
     futures st' = futures st /\
     trace st' = trace st /\
     exists st'',
       processEvents st' = Some (tt, st'') /\
       trace st'' = trace st ++ timers st ++ [EvImageFinished img true]) /\
    (pre <> [] ->
     imageFutures st' = imageFutures st ++ [mkImageFuture op r (Some f)] /\
     futures st' = futures st ++ [mkFuture r pre FutRunning pre] /\
     trace st' = trace st ++ [CallRun f r pre] /\
     (forall res, exists st'',
        Future_finished f res st' = Some (tt, st'') /\
        trace st'' = trace st' ++ [EvImageFinished img res]) /\
     (exists st'',
        Future_canceled f st' = Some (tt, st'') /\
        trace st'' = trace st' ++ [EvImageCanceled img])).
Proof.
  intros Hd Hdata Ho Hops Hpre Hnone r img f.
  pose proof (getCopyOfImagePriorTo_run st op d o p Hd Hdata Ho) as Hrun.
  cbv zeta in Hrun. rewrite Hops, (indexOf_first _ _ _ Hpre) in Hrun.
  fold r img f in Hrun.
  destruct pre as [| a pre'].
  - eexists. split; [exact Hrun |]. simpl. rewrite andb_false_r. pnorm.
    split; [reflexivity |]. split; [| congruence].
    intros _. repeat split. eexists. split; [reflexivity |]. reflexivity.
  - assert (E : (1 <? length ((a :: pre') ++ op :: post))
                && (0 <? Z.of_nat (length (a :: pre')))%Z = true).
    { apply andb_true_iff. split.
      - apply Nat.ltb_lt. rewrite length_app. simpl. lia.
      - apply Z.ltb_lt. simpl length. lia. }
    rewrite E in Hrun.
    rewrite mid_prefix in Hrun by (rewrite length_app; lia).
    rewrite take_app_length in Hrun.
    eexists. split; [exact Hrun |]. pnorm.
    split; [reflexivity |]. split; [congruence |].
    intros _. split; [reflexivity |]. split; [reflexivity |].
    split; [reflexivity |].
    eapply image_future_forwards.
    + pnorm. apply snoc_lookup.
    + pnorm. reflexivity.
    + exact Hnone.
Qed.

Lemma C8_preview_of_root_step_witness :
  exists st',
    getCopyOfImagePriorTo 1 ex_two_steps = Some (0, st') /\
    trace st' = [CallRun 0 1 [0]].
Proof.
  destruct (C8_preview_of_root_step ex_two_steps 1
              (mkDataSource "root" (Some ThisPipeline) (Some 0) [0; 1]) 0
              [1; 2]%Z [0] [] eq_refl eq_refl eq_refl eq_refl)
    as (st' & H & _ & _ & Hrun).
  - intros Hin. apply list_elem_of_singleton in Hin. discriminate.
  - intros [| | | |]; reflexivity.
  - exists st'. split; [exact H |].
    destruct Hrun as (_ & _ & Ht & _); [discriminate | exact Ht].
Defined.

(** ** Branch execution *)

Lemma findTransformedIn_run ops s :
  findTransformedIn ops s
  = match transformedIn (operators s) ops with
    | Some r => Some (r, s)
    | None => None
    end.
Proof.
  induction ops as [| op rest IH]; [reflexivity |].
  cbn [findTransformedIn transformedIn].
  destruct (operators s !! op) as [o|] eqn:Ho.
  - mstep (Operator_hasChildDataSource_run _ _ _ Ho).
    mstep (Operator_childDataSource_run _ _ _ Ho).
    destruct (negb (op_hasChildDataSource o)
              && bool_decide (is_Some (op_childDataSource o))); [reflexivity |].
    exact IH.
  - unfold Operator_hasChildDataSource, getOperator.
    unfold mbind, M_bind, gets. now rewrite Ho.
Qed.

Lemma findTransformedDataSourceOperator_run s ds d t :
  dataSources s !! ds = Some d ->
  transformedIn (operators s) (rev (ds_operators d)) = Some t ->
  findTransformedDataSourceOperator ds s = Some (t, s).
Proof.
  intros Hd Ht. unfold findTransformedDataSourceOperator.
  mstep (DataSource_operators_run _ _ _ Hd).
  now rewrite findTransformedIn_run, Ht.
Qed.

(** What [transformedIn] finds is a step of the list that has an
    implicit child. *)
Lemma transformedIn_Some arena ops t :
  transformedIn arena ops = Some (Some t) ->
  t ∈ ops /\ exists o c, arena !! t = Some o /\ implicitChild o = Some c.
Proof.
  induction ops as [| op rest IH]; [discriminate |].
  cbn [transformedIn]. destruct (arena !! op) as [o|] eqn:Ho; [| discriminate].
  destruct (negb (op_hasChildDataSource o)
            && bool_decide (is_Some (op_childDataSource o))) eqn:E.
  - intros [= <-]. split; [left |].
    apply andb_true_iff in E as [E1 E2].
    apply negb_true_iff in E1. apply bool_decide_eq_true in E2 as [c Hc].
    exists o, c. split; [exact Ho |]. unfold implicitChild. now rewrite E1.
  - intros H. destruct (IH H) as [Hin Hex]. split; [now right | exact Hex].
Qed.

Lemma findTransformedDataSource_run s ds d t :
  dataSources s !! ds = Some d ->
  transformedIn (operators s) (rev (ds_operators d)) = Some t ->
  findTransformedDataSource ds s
  = Some (transformedChild (operators s) t, s).
Proof.
  intros Hd Ht. unfold findTransformedDataSource.
  mstep (findTransformedDataSourceOperator_run _ _ _ _ Hd Ht).
  destruct t as [top|]; [| reflexivity].
  destruct (transformedIn_Some _ _ _ Ht) as (_ & o & c & Ho & Hc).
  rewrite (Operator_childDataSource_run _ _ _ Ho). cbn [transformedChild].
  rewrite Ho. unfold implicitChild in *. now destruct (op_hasChildDataSource o).
Qed.

(** The scan finds no canceled step before [start]. *)
Lemma scanCanceled_clean s start pre rest :
  Forall (fun x => x <> start /\
            exists o, operators s !! x = Some o /\ op_state o <> OpCanceled) pre ->
  scanCanceled (pre ++ start :: rest) start s = Some (false, s).
Proof.
  induction 1 as [| x pre (Hne & o & Ho & Hst) _ IH]; cbn [app scanCanceled].
  - now rewrite Nat.eqb_refl.
  - apply Nat.eqb_neq in Hne. rewrite Hne.
    mstep (Operator_isCanceled_run _ _ _ Ho).
    destruct (op_state o); [exact IH | exact IH | congruence].
Qed.

(** The scan stops at the first canceled step before [start], and
    resets it. *)
Lemma scanCanceled_found s start pre c oc rest :
  Forall (fun x => x <> start /\
            exists o, operators s !! x = Some o /\ op_state o <> OpCanceled) pre ->
  c <> start ->
  operators s !! c = Some oc ->
  op_state oc = OpCanceled ->
  scanCanceled (pre ++ c :: rest) start s
  = Some (true, set_trace (trace s ++ [CallResetState c])
                  (set_operators (<[c := withState OpPending oc]> (operators s)) s)).
Proof.
  intros Hpre Hc Hoc Hst.
  induction Hpre as [| x pre (Hne & o & Ho & Hs) _ IH]; cbn [app scanCanceled].
  - apply Nat.eqb_neq in Hc. rewrite Hc.
    mstep (Operator_isCanceled_run _ _ _ Hoc). rewrite Hst.
    now mstep (Operator_resetState_run _ _ _ Hoc).
  - apply Nat.eqb_neq in Hne. rewrite Hne.
    mstep (Operator_isCanceled_run _ _ _ Ho).
    destruct (op_state o); [exact IH | exact IH | congruence].
Qed.

Lemma cancel_block_run st :
  (forall f, m_future st = Some f -> is_Some (futures st !! f)) ->
  match m_future st with
  | Some f => r ← Future_isRunning f; when r (Future_cancel f)
  | None => mret tt
  end st = Some (tt, canceled_state st).
Proof.
  intros Hv. unfold canceled_state.
  destruct (m_future st) as [f|]; [| reflexivity].
  destruct (Hv f eq_refl) as [x Hx]. rewrite Hx.
  mstep (Future_isRunning_run _ _ _ Hx).
  destruct (fut_status x) eqn:E; pnorm; try reflexivity;
    rewrite (Future_cancel_run _ _ _ Hx), E; reflexivity.
Qed.

Lemma canceled_state_frame st :
  m_data (canceled_state st) = m_data st /\
  m_paused (canceled_state st) = m_paused st /\
  m_future (canceled_state st) = m_future st /\
  objects (canceled_state st) = objects st /\
  dataSources (canceled_state st) = dataSources st /\
  operators (canceled_state st) = operators st /\
  length (futures (canceled_state st)) = length (futures st) /\
  imageFutures (canceled_state st) = imageFutures st /\
  connections (canceled_state st) = connections st /\
  timers (canceled_state st) = timers st.
Proof.
  unfold canceled_state. destruct (m_future st) as [f|] eqn:Ef; [| easy].
  destruct (futures st !! f) as [x|]; [| easy].
  destruct (fut_status x); pnorm; rewrite ?length_insert; easy.
Qed.

(** C3, on the code: a resume after [start] with a canceled step [c]
    before it (the first one, after the clean steps [pre]).  The scan
    resets [c] and the full step list of the branch is dispatched.  The
    payload the run starts from is a copy of the payload of [src]: the
    data source itself only when the branch has no implicit child; when
    it has one ([t] is its step), [src] is that child, so the full list
    is re-run on the cached snapshot, not on the node's original
    payload. *)
Theorem C3_rerun_starts_from_snapshot (st : Pipeline) (ds : DsId)
  (d : DataSource) (start : OpId) (pre : list OpId) (c : OpId)
  (rest : list OpId) (oc : Operator) (t : option OpId) (src : DsId)
  (dsrc : DataSource) (o : ObjId) (p : Payload) :
  m_paused st = false ->
  (forall f, m_future st = Some f -> is_Some (futures st !! f)) ->
  dataSources st !! ds = Some d ->
  ds_operators d = pre ++ c :: rest ->
  Forall (fun x => x <> start /\
            exists ox, operators st !! x = Some ox /\ op_state ox <> OpCanceled)
    pre ->
  c <> start ->
  operators st !! c = Some oc ->
  op_state oc = OpCanceled ->
  transformedIn (operators st) (rev (ds_operators d)) = Some t ->
  src = default ds (transformedChild (operators st) t) ->
  dataSources st !! src = Some dsrc ->
  ds_data dsrc = Some o ->
  objects st !! o = Some (Some p) ->
  let s1 := canceled_state st in
  let n := length (futures st) in
  let r := length (objects st) in
  executePipelineBranch ds (Some start) st
  = Some (tt,
      set_connections (connections st ++ branch_connections n)
        (set_future (Some n)
           (set_trace
              (trace s1 ++ [CallResetState c; CallRun n r (ds_operators d)])
              (set_futures
                 (futures s1 ++
                    [mkFuture r (ds_operators d) FutRunning (ds_operators d)])
                 (set_operators (<[c := withState OpPending oc]> (operators st))
                    (set_objects (objects st ++ [Some p]) s1)))))).
Proof.
  intros Hp Hv Hd Hops Hpre Hc Hoc Hst Ht Hsrc Hdsrc Hdata Hobj s1 n r.
  destruct (canceled_state_frame st)
    as (E1 & E2 & E3 & E4 & E5 & E6 & E7 & E8 & E9 & E10).
  fold s1 in E1, E2, E3, E4, E5, E6, E7, E8, E9, E10.
  unfold executePipelineBranch.
  rewrite gets_bind, Hp.
  mstep (DataSource_operators_run _ _ _ Hd).
  rewrite bool_decide_eq_false_2
    by (rewrite Hops; intros H; now apply app_eq_nil in H as [_ H]).
  rewrite gets_bind.
  rewrite (bind_run _ _ _ _ _ (cancel_block_run st Hv)). fold s1.
  rewrite <- E5 in Hd, Hdsrc. rewrite <- E6 in Hpre, Hoc, Ht, Hsrc.
  rewrite <- E4 in Hobj.
  mrun (eapply findTransformedDataSource_run; [exact Hd | exact Ht]).
  destruct (transformedChild (operators s1) t) as [tds|] eqn:Et;
    simpl in Hsrc; subst src.
  - mrun (eapply DataSource_copyData_run; [exact Hdsrc | exact Hdata | exact Hobj]).
    mrun (eapply DataSource_operators_run; exact Hd).
    rewrite Hops at 1.
    mrun (eapply scanCanceled_found; [exact Hpre | exact Hc | exact Hoc | exact Hst]).
    mrun (apply Worker_run_run).
    unfold connect, modify, mbind, M_bind, branch_connections. pnorm.
    rewrite E4, E6, E7, E9, <- !app_assoc. reflexivity.
  - mrun (eapply DataSource_operators_run; exact Hd).
    rewrite Hops at 1.
    mrun (eapply scanCanceled_found; [exact Hpre | exact Hc | exact Hoc | exact Hst]).
    mrun (eapply DataSource_copyData_run; [exact Hdsrc | exact Hdata | exact Hobj]).
    mrun (apply Worker_run_run).
    unfold connect, modify, mbind, M_bind, branch_connections. pnorm.
    rewrite E4, E6, E7, E9, <- !app_assoc. reflexivity.
Qed.

(** The failing input of C3: the node's payload is [[1; 2]], the
    snapshot is [[7; 8]]; the run over the full list [[0; 1; 2]] gets
    data object 2, a copy of the snapshot. *)
Lemma C3_rerun_starts_from_snapshot_witness :
  exists st',
    executePipelineBranch 0 (Some 2) ex_canceled_step = Some (tt, st') /\
    trace st' = [CallResetState 1; CallRun 0 2 [0; 1; 2]] /\
    objects st' = [Some [1; 2]%Z; Some [7; 8]%Z; Some [7; 8]%Z].
Proof.
  eexists. split.
  - apply (C3_rerun_starts_from_snapshot ex_canceled_step 0
             (mkDataSource "root" (Some ThisPipeline) (Some 0) [0; 1; 2])
             2 [0] 1 [2] (mkOperator 0 OpCanceled false (Some 1)) (Some 1) 1
             (mkDataSource "Output" (Some ThisPipeline) (Some 1) []) 1
             [7; 8]%Z);
      try reflexivity; try discriminate.
    constructor; [| constructor].
    split; [discriminate |]. eexists. split; [reflexivity | discriminate].
  - split; reflexivity.
Defined.

(** The resume proper: no step before [start] is canceled.  [start] is
    reset and the run is dispatched over the steps from [start] on, on a
    copy of the payload of the implicit child of the branch if there is
    one, and of the data source itself otherwise. *)
Lemma executePipelineBranch_resume_run (st : Pipeline) (ds : DsId)
  (d : DataSource) (start : OpId) (pre rest : list OpId) (os : Operator)
  (t : option OpId) (src : DsId) (dsrc : DataSource) (o : ObjId) (p : Payload) :
  m_paused st = false ->
  (forall f, m_future st = Some f -> is_Some (futures st !! f)) ->
  dataSources st !! ds = Some d ->
  ds_operators d = pre ++ start :: rest ->
  Forall (fun x => x <> start /\
            exists ox, operators st !! x = Some ox /\ op_state ox <> OpCanceled)
    pre ->
  operators st !! start = Some os ->
  transformedIn (operators st) (rev (ds_operators d)) = Some t ->
  src = default ds (transformedChild (operators st) t) ->
  dataSources st !! src = Some dsrc ->
  ds_data dsrc = Some o ->
  objects st !! o = Some (Some p) ->
  let s1 := canceled_state st in
  let n := length (futures st) in
  let r := length (objects st) in
  executePipelineBranch ds (Some start) st
  = Some (tt,
      set_connections (connections st ++ branch_connections n)
        (set_future (Some n)
           (set_trace
              (trace s1 ++ [CallResetState start; CallRun n r (start :: rest)])
              (set_futures
                 (futures s1 ++
                    [mkFuture r (start :: rest) FutRunning (start :: rest)])
                 (set_operators
                    (<[start := withState OpPending os]> (operators st))
                    (set_objects (objects st ++ [Some p]) s1)))))).
Proof.
  intros Hp Hv Hd Hops Hpre Hos Ht Hsrc Hdsrc Hdata Hobj s1 n r.
  destruct (canceled_state_frame st)
    as (E1 & E2 & E3 & E4 & E5 & E6 & E7 & E8 & E9 & E10).
  fold s1 in E1, E2, E3, E4, E5, E6, E7, E8, E9, E10.
  assert (Hnotin : start ∉ pre).
  { intros Hin. rewrite Forall_forall in Hpre. now destruct (Hpre _ Hin). }
  assert (Hmid : mid (ds_operators d) (indexOf (ds_operators d) start) (-1)
                 = start :: rest).
  { rewrite Hops, (indexOf_first _ _ _ Hnotin).
    rewrite mid_suffix by (rewrite length_app; lia).
    now rewrite drop_app_length. }
  unfold executePipelineBranch.
  rewrite gets_bind, Hp.
  mstep (DataSource_operators_run _ _ _ Hd).
  rewrite bool_decide_eq_false_2
    by (rewrite Hops; intros H; now apply app_eq_nil in H as [_ H]).
  rewrite gets_bind.
  rewrite (bind_run _ _ _ _ _ (cancel_block_run st Hv)). fold s1.
  rewrite <- E5 in Hd, Hdsrc. rewrite <- E6 in Hpre, Hos, Ht, Hsrc.
  rewrite <- E4 in Hobj.
  mrun (eapply findTransformedDataSource_run; [exact Hd | exact Ht]).
  destruct (transformedChild (operators s1) t) as [tds|] eqn:Et;
    simpl in Hsrc; subst src.
  - mrun (eapply DataSource_copyData_run; [exact Hdsrc | exact Hdata | exact Hobj]).
    mrun (eapply DataSource_operators_run; exact Hd).
    rewrite Hops at 1.
    mrun (eapply scanCanceled_clean; exact Hpre).
    mrun (eapply Operator_resetState_run; exact Hos).
    rewrite Hmid.
    mrun (apply Worker_run_run).
    unfold connect, modify, mbind, M_bind, branch_connections. pnorm.
    rewrite E4, E6, E7, E9, <- !app_assoc. reflexivity.
  - mrun (eapply DataSource_operators_run; exact Hd).
    rewrite Hops at 1.
    mrun (eapply scanCanceled_clean; exact Hpre).
    mrun (eapply Operator_resetState_run; exact Hos).
    rewrite Hmid.
    mrun (eapply DataSource_copyData_run; [exact Hdsrc | exact Hdata | exact Hobj]).
    mrun (apply Worker_run_run).
    unfold connect, modify, mbind, M_bind, branch_connections. pnorm.
    rewrite E4, E6, E7, E9, <- !app_assoc. reflexivity.
Qed.

(** The run from scratch ([start] null): the whole step list, on a copy
    of the payload of the data source itself. *)
Lemma executePipelineBranch_scratch_run (st : Pipeline) (ds : DsId)
  (d : DataSource) (o : ObjId) (p : Payload) :
  m_paused st = false ->
  (forall f, m_future st = Some f -> is_Some (futures st !! f)) ->
  dataSources st !! ds = Some d ->
  ds_operators d <> [] ->
  ds_data d = Some o ->
  objects st !! o = Some (Some p) ->
  let s1 := canceled_state st in
  let n := length (futures st) in
  let r := length (objects st) in
  executePipelineBranch ds None st
  = Some (tt,
      set_connections (connections st ++ branch_connections n)
        (set_future (Some n)
           (set_trace (trace s1 ++ [CallRun n r (ds_operators d)])
              (set_futures
                 (futures s1 ++
                    [mkFuture r (ds_operators d) FutRunning (ds_operators d)])
                 (set_objects (objects st ++ [Some p]) s1))))).
Proof.
  intros Hp Hv Hd Hne Hdata Hobj s1 n r.
  destruct (canceled_state_frame st)
    as (E1 & E2 & E3 & E4 & E5 & E6 & E7 & E8 & E9 & E10).
  fold s1 in E1, E2, E3, E4, E5, E6, E7, E8, E9, E10.
  unfold executePipelineBranch.
  rewrite gets_bind, Hp.
  mstep (DataSource_operators_run _ _ _ Hd).
  rewrite bool_decide_eq_false_2 by exact Hne.
  rewrite gets_bind.
  rewrite (bind_run _ _ _ _ _ (cancel_block_run st Hv)). fold s1.
  rewrite <- E5 in Hd. rewrite <- E4 in Hobj.
  mrun (eapply DataSource_copyData_run; [exact Hd | exact Hdata | exact Hobj]).
  mrun (apply Worker_run_run).
  unfold connect, modify, mbind, M_bind, branch_connections. pnorm.
  rewrite E4, E7, E9, <- !app_assoc. reflexivity.
Qed.


(** ** Frames *)

#[global] Instance same_graph_preorder : PreOrder same_graph.
Proof.
  split.
  - intros s. repeat split.
  - intros s1 s2 s3 (A1 & A2 & A3 & A4 & A5) (B1 & B2 & B3 & B4 & B5).
    repeat split; congruence.
Qed.

#[global] Instance same_handles_preorder : PreOrder same_handles.
Proof.
  split.
  - intros s. repeat split.
  - intros s1 s2 s3 (A1 & A2 & A3) (B1 & B2 & B3). repeat split; congruence.
Qed.

#[global] Instance trace_extends_preorder : PreOrder trace_extends.
Proof.
  split.
  - intros s. exists []. now rewrite app_nil_r.
  - intros s1 s2 s3 [n1 H1] [n2 H2]. exists (n1 ++ n2).
    now rewrite H2, H1, app_assoc.
Qed.

Section Frames.
Context (R : Pipeline -> Pipeline -> Prop) (HR : PreOrder R).

Lemma frames_ret {A} (a : A) : frames R (mret a).
Proof. intros s a' s' H. cbv in H. injection H as _ <-. reflexivity. Qed.

Lemma frames_bind {A B} (m : M A) (k : A -> M B) :
  frames R m -> (forall a, frames R (k a)) -> frames R (m ≫= k).
Proof.
  intros Hm Hk s b s' H.
  destruct (proj1 (M_bind_Some _ _ _ _) H) as (a & s1 & H1 & H2).
  transitivity s1; [exact (Hm _ _ _ H1) | exact (Hk _ _ _ _ H2)].
Qed.

Lemma frames_gets {A} (g : Pipeline -> A) : frames R (gets g).
Proof.
  intros s a s' H. unfold gets in H. injection H as _ <-. reflexivity.
Qed.

Lemma frames_undefined {A} : frames R (@undefined A).
Proof. intros s a s'. discriminate. Qed.

Lemma frames_deref {A} (o : option A) : frames R (deref o).
Proof. destruct o; [apply frames_ret | apply frames_undefined]. Qed.

Lemma frames_when (b : bool) (m : M unit) : frames R m -> frames R (when b m).
Proof. destruct b; [auto | intros _; apply frames_ret]. Qed.

Lemma frames_modify (g : Pipeline -> Pipeline) :
  (forall s, R s (g s)) -> frames R (modify g).
Proof.
  intros Hg s a s' H. unfold modify in H. injection H as H. subst s'. apply Hg.
Qed.

Lemma frames_getDataSource ds : frames R (getDataSource ds).
Proof. apply frames_bind; [apply frames_gets | intros; apply frames_deref]. Qed.

Lemma frames_getOperator op : frames R (getOperator op).
Proof. apply frames_bind; [apply frames_gets | intros; apply frames_deref]. Qed.

Lemma frames_getFuture f : frames R (getFuture f).
Proof. apply frames_bind; [apply frames_gets | intros; apply frames_deref]. Qed.

Lemma frames_getObject o : frames R (getObject o).
Proof.
  apply frames_bind; [apply frames_gets | intros].
  apply frames_bind; [apply frames_deref | intros; apply frames_deref].
Qed.
End Frames.

(** Decomposition of a frame goal along the structure of the function. *)
Ltac frame_core :=
  match goal with
  | |- frames _ (@mbind _ _ _ _ _ _) => apply frames_bind; [exact _ | | intros ?]
  | |- frames _ (@mret _ _ _ _) => apply frames_ret; exact _
  | |- frames _ (gets _) => apply frames_gets; exact _
  | |- frames _ undefined => apply frames_undefined
  | |- frames _ (deref _) => apply frames_deref; exact _
  | |- frames _ (when _ _) => apply frames_when; [exact _ |]
  | |- frames _ (getDataSource _) => apply frames_getDataSource; exact _
  | |- frames _ (getOperator _) => apply frames_getOperator; exact _
  | |- frames _ (getFuture _) => apply frames_getFuture; exact _
  | |- frames _ (getObject _) => apply frames_getObject; exact _
  | |- frames _ (QList_last _) => apply frames_deref; exact _
  | |- frames _ (match ?x with _ => _ end) => destruct x
  end.

(** The same, down to the state updates of the simple collaborator
    calls. *)
Ltac frame_step :=
  first
  [ frame_core
  | match goal with
  | |- frames _ (modify _) =>
      apply frames_modify; intros ?; try (now repeat split)
  | |- frames _ (emit _) => unfold emit
  | |- frames _ (connect _ _ _) => unfold connect
  | |- frames _ (singleShot _) => unfold singleShot
  | |- frames _ (newObject _) => unfold newObject
  | |- frames _ (DataSource_operators _) => unfold DataSource_operators
  | |- frames _ (DataSource_copyData _) => unfold DataSource_copyData
  | |- frames _ (DataSource_dataModified _) => unfold DataSource_dataModified
  | |- frames _ (DataSource_deleteLater _) => unfold DataSource_deleteLater
  | |- frames _ (Operator_dataSource _) => unfold Operator_dataSource
  | |- frames _ (Operator_hasChildDataSource _) =>
      unfold Operator_hasChildDataSource
  | |- frames _ (Operator_childDataSource _) => unfold Operator_childDataSource
  | |- frames _ (Operator_isCanceled _) => unfold Operator_isCanceled
  | |- frames _ (Future_isRunning _) => unfold Future_isRunning
  | |- frames _ (Future_result _) => unfold Future_result
  | |- frames _ (Future_operators _) => unfold Future_operators
  | |- frames _ (Future_deleteLater _) => unfold Future_deleteLater
  | |- frames _ (Future_cancelOp _ _) => unfold Future_cancelOp
  | |- frames _ (Worker_run _ _) => unfold Worker_run
  | |- frames _ (addDataSource _) => unfold addDataSource
  end ].

Ltac frame := repeat frame_step.

Lemma trace_extends_emit e : frames trace_extends (emit e).
Proof.
  intros s a s' H. unfold emit, modify in H. injection H as H. subst s'.
  now exists [e].
Qed.

Lemma findTransformedIn_frames R (HR : PreOrder R) ops :
  frames R (findTransformedIn ops).
Proof.
  induction ops as [| op rest IH]; cbn [findTransformedIn]; frame. exact IH.
Qed.

Lemma findTransformedDataSource_frames R (HR : PreOrder R) ds :
  frames R (findTransformedDataSource ds).
Proof.
  unfold findTransformedDataSource, findTransformedDataSourceOperator. frame.
  apply findTransformedIn_frames; assumption.
Qed.

(** *** The graph *)

Lemma skeleton_insert (l : list Operator) op o o' :
  l !! op = Some o -> skeleton o' = skeleton o ->
  skeleton <$> <[op := o']> l = skeleton <$> l.
Proof.
  intros Hl Hs. rewrite list_fmap_insert, Hs.
  apply list_insert_id. now rewrite list_lookup_fmap, Hl.
Qed.

Lemma updOperator_same_graph op g :
  (forall o, skeleton (g o) = skeleton o) ->
  frames same_graph (updOperator op g).
Proof.
  intros Hg s a s' H. unfold updOperator in H.
  destruct (proj1 (M_bind_Some _ _ _ _) H) as (o & s1 & H1 & H2).
  unfold getOperator, mbind, M_bind, gets, deref in H1.
  destruct (operators s !! op) as [o0|] eqn:Ho; [| discriminate].
  unfold mret, M_ret in H1. injection H1 as -> <-.
  unfold modify in H2. injection H2 as H2. subst s'.
  repeat split. pnorm. now apply (skeleton_insert _ _ o).
Qed.

Lemma updFuture_same_graph f g : frames same_graph (updFuture f g).
Proof. unfold updFuture. frame. Qed.

Lemma scanCanceled_same_graph ops start :
  frames same_graph (scanCanceled ops start).
Proof.
  induction ops as [| op rest IH]; cbn [scanCanceled]; frame.
  - unfold Operator_resetState. frame. now apply updOperator_same_graph.
  - exact IH.
Qed.

(** [executePipelineBranch] changes no data source, and no operator
    except for its execution state. *)
Lemma executePipelineBranch_same_graph ds start :
  frames same_graph (executePipelineBranch ds start).
Proof.
  unfold executePipelineBranch. frame.
  - unfold Future_cancel. frame. apply updFuture_same_graph.
  - apply findTransformedDataSource_frames; exact _.
  - apply scanCanceled_same_graph.
  - unfold Operator_resetState. frame. now apply updOperator_same_graph.
Qed.

Lemma execute_last_same_graph ds last :
  frames same_graph (execute_last ds last).
Proof.
  unfold execute_last. frame; apply executePipelineBranch_same_graph.
Qed.

(** ** Structural edits *)

Lemma skeleton_lookup (l1 l2 : list Operator) i o :
  skeleton <$> l1 = skeleton <$> l2 -> l2 !! i = Some o ->
  exists o1, l1 !! i = Some o1 /\ skeleton o1 = skeleton o.
Proof.
  intros Hs Hl.
  assert (H : (skeleton <$> l1) !! i = Some (skeleton o))
    by now rewrite Hs, list_lookup_fmap, Hl.
  rewrite list_lookup_fmap in H.
  destruct (l1 !! i) as [o1|]; [| discriminate].
  exists o1. split; [reflexivity |]. simpl in H. congruence.
Qed.

Lemma skeleton_fields o1 o :
  skeleton o1 = skeleton o ->
  op_dataSource o1 = op_dataSource o /\
  op_hasChildDataSource o1 = op_hasChildDataSource o /\
  op_childDataSource o1 = op_childDataSource o.
Proof. unfold skeleton, withState. intros [= H1 H2 H3]. auto. Qed.

Lemma transformedIn_skeleton (a1 a2 : list Operator) ops :
  skeleton <$> a1 = skeleton <$> a2 ->
  transformedIn a1 ops = transformedIn a2 ops.
Proof.
  intros Hs. induction ops as [| op rest IH]; [reflexivity |].
  cbn [transformedIn].
  destruct (a2 !! op) as [o|] eqn:Ho.
  - destruct (skeleton_lookup _ _ _ _ Hs Ho) as (o1 & -> & Hk).
    destruct (skeleton_fields _ _ Hk) as (_ & -> & ->). now rewrite IH.
  - assert (H : (skeleton <$> a1) !! op = None)
      by now rewrite Hs, list_lookup_fmap, Ho.
    rewrite list_lookup_fmap in H.
    destruct (a1 !! op); [discriminate | reflexivity].
Qed.

Lemma insert_as_alter {A} (g : A -> A) (l : list A) i x :
  l !! i = Some x -> <[i := g x]> l = alter g i l.
Proof.
  revert i. induction l as [| a l IH]; intros [| i] H; try discriminate.
  - injection H as ->. reflexivity.
  - simpl. f_equal. now apply IH.
Qed.

(** The slots of [operatorAdded], as [addDataSource] connects them. *)
Lemma deliver_operatorAdded st ds op :
  slots_of (connections st) (SndDataSource ds) SigOperatorAdded
    = [SlotAddedExecute; SlotAddedRelocate] ->
  deliver (SndDataSource ds) SigOperatorAdded (ArgOperator op) st
  = (operatorAdded_execute op;; operatorAdded_relocate op) st.
Proof.
  intros H. unfold deliver. rewrite gets_bind, H. cbn [run_slots run_slot].
  unfold mbind, M_bind.
  destruct (operatorAdded_execute op st) as [[[] s1]|]; [| reflexivity].
  now destruct (operatorAdded_relocate op s1) as [[[] s2]|].
Qed.

(** The "step added" event, given what its first handler did: [st1] is
    the pipeline that [execute(ds, true)] leaves, that is [started()]
    and [executePipelineBranch(ds, op)], [op] being the last step. *)
Lemma DataSource_addOperator_after_rerun (st : Pipeline) (ds : DsId)
  (d : DataSource) (op : OpId) (o : Operator) (t : option OpId)
  (st1 : Pipeline) :
  dataSources st !! ds = Some d ->
  operators st !! op = Some o ->
  op_dataSource o = ds ->
  slots_of (connections st) (SndDataSource ds) SigOperatorAdded
    = [SlotAddedExecute; SlotAddedRelocate] ->
  let ops := ds_operators d ++ [op] in
  let st0 := set_dataSources (<[ds := withOperators ops d]> (dataSources st)) st in
  transformedIn (operators st) (rev ops) = Some t ->
  (emit EvStarted;; executePipelineBranch ds (Some op)) st0 = Some (tt, st1) ->
  exists st',
    DataSource_addOperator ds op st = Some (tt, st') /\
    step_added_after st d op t st1 st'.
Proof.
  intros Hd Ho Hods Hslots ops st0 Ht Hexec. unfold step_added_after.
  (* what the re-run leaves of the graph *)
  assert (Hg : same_graph st0 st1).
  { unfold mbind, M_bind, emit, modify in Hexec.
    apply executePipelineBranch_same_graph in Hexec.
    destruct Hexec as (G1 & G2 & G3 & G4 & G5). repeat split; assumption. }
  destruct Hg as (G1 & G2 & G3 & G4 & G5).
  change (dataSources st0) with (<[ds := withOperators ops d]> (dataSources st)) in G3.
  change (operators st0) with (operators st) in G4.
  change (timers st0) with (timers st) in G5.
  assert (Hd0 : dataSources st0 !! ds = Some (withOperators ops d)).
  { apply list_lookup_insert_eq. now apply lookup_lt_Some in Hd. }
  assert (Hd1 : dataSources st1 !! ds = Some (withOperators ops d))
    by now rewrite G3.
  destruct (skeleton_lookup _ _ _ _ G4 Ho) as (o1 & Ho1 & Hk1).
  destruct (skeleton_fields _ _ Hk1) as (Hk1a & Hk1b & Hk1c).
  rewrite <- (transformedIn_skeleton _ _ _ G4) in Ht.
  (* the handler *)
  assert (Hrun : forall st',
    operatorAdded_relocate op st1 = Some (tt, st') ->
    DataSource_addOperator ds op st = Some (tt, st')).
  { intros st' Hrel. unfold DataSource_addOperator.
    mrun (eapply updDataSource_run; exact Hd).
    fold ops. fold st0.
    rewrite deliver_operatorAdded by exact Hslots.
    erewrite bind_run; [exact Hrel |].
    unfold operatorAdded_execute.
    mrun (eapply Operator_dataSource_run; exact Ho).
    rewrite Hods. unfold execute_last.
    rewrite <- Hexec. unfold emit, modify, mbind, M_bind.
    erewrite DataSource_operators_run by exact Hd0.
    erewrite QList_last_run by apply last_snoc. reflexivity. }
  (* the relocation, on the pipeline the re-run left *)
  assert (Hlen : (1 <? length ops) = negb (bool_decide (ds_operators d = []))).
  { unfold ops. rewrite length_app.
    destruct (ds_operators d) as [| a l]; [reflexivity |].
    rewrite bool_decide_eq_false_2 by discriminate.
    apply Nat.ltb_lt. simpl. lia. }
  unfold operatorAdded_relocate in Hrun.
  destruct (bool_decide (ds_operators d = [])) eqn:Eempty.
  { (* a single step *)
    eexists. split.
    - apply Hrun.
      rewrite (bind_run _ _ _ _ _ (connect_run _ _ _ _)).
      mrun (eapply Operator_dataSource_run; exact Ho1).
      rewrite Hk1a, Hods.
      mrun (eapply DataSource_operators_run; exact Hd1).
      rewrite Hlen. reflexivity.
    - pnorm. repeat (split; [reflexivity |]). split; [now intros _ |].
      intros top Hne. apply bool_decide_eq_true in Eempty. contradiction. }
  apply bool_decide_eq_false in Eempty.
  destruct t as [top|].
  2:{ (* no implicit child *)
    eexists. split.
    - apply Hrun.
      rewrite (bind_run _ _ _ _ _ (connect_run _ _ _ _)).
      mrun (eapply Operator_dataSource_run; exact Ho1).
      rewrite Hk1a, Hods.
      mrun (eapply DataSource_operators_run; exact Hd1).
      rewrite Hlen. cbn [negb when].
      mrun (eapply findTransformedDataSourceOperator_run; [exact Hd1 | exact Ht]).
      reflexivity.
    - pnorm. repeat (split; [reflexivity |]). split; [now intros _ |].
      intros top _ [=]. }
  (* the implicit child moves *)
  destruct (transformedIn_Some _ _ _ Ht) as (_ & ot1 & c & Hot1 & Hc).
  assert (Hchild : op_childDataSource ot1 = Some c).
  { unfold implicitChild in Hc. now destruct (op_hasChildDataSource ot1). }
  pose (mid1 := <[top := withChild None ot1]> (operators st1)).
  assert (Hop2 : exists o2,
    mid1 !! op = Some o2 /\
    insert op (withChild (Some c) o2) mid1
    = alter (withChild (Some c)) op (alter (withChild None) top (operators st1))).
  { unfold mid1. rewrite (insert_as_alter (withChild None) _ _ _ Hot1).
    destruct (alter (withChild None) top (operators st1) !! op) as [o2|] eqn:E.
    - exists o2. split; [reflexivity |]. now apply insert_as_alter.
    - apply lookup_ge_None in E. rewrite length_alter in E.
      apply lookup_lt_Some in Ho1. lia. }
  destruct Hop2 as (o2 & Ho2 & Halter). unfold mid1 in Ho2, Halter.
  eexists. split.
  - apply Hrun.
    rewrite (bind_run _ _ _ _ _ (connect_run _ _ _ _)).
    mrun (eapply Operator_dataSource_run; exact Ho1).
    rewrite Hk1a, Hods.
    mrun (eapply DataSource_operators_run; exact Hd1).
    rewrite Hlen. cbn [negb when].
    mrun (eapply findTransformedDataSourceOperator_run; [exact Hd1 | exact Ht]).
    mrun (eapply Operator_childDataSource_run; exact Hot1).
    mrun (eapply Operator_setChildDataSource_run; exact Hot1).
    mrun (eapply Operator_setChildDataSource_run; exact Ho2).
    rewrite Hchild. mnorm. rewrite Halter. apply singleShot_run.
  - pnorm. repeat (split; [reflexivity |]). split.
    + intros [Hx | Hx]; [contradiction | discriminate].
    + intros top' _ [= <-]. exists c.
      split; [| split; [reflexivity | split; reflexivity]].
      cbn [transformedChild].
      destruct (skeleton_lookup _ _ _ _ (eq_sym G4) Hot1) as (ot & -> & Hk).
      destruct (skeleton_fields _ _ Hk) as (_ & K2 & K3).
      unfold implicitChild in *. now rewrite K2, K3.
Qed.


(** The full re-run: a step [c] before [start] is canceled (the first
    one, after the clean steps [pre]).  The scan resets [c] and the
    whole step list is dispatched, on a copy of the payload of the
    implicit child of the branch if there is one, and of the data
    source itself otherwise. *)
Lemma executePipelineBranch_canceled_run (st : Pipeline) (ds : DsId)
  (d : DataSource) (start : OpId) (pre : list OpId) (c : OpId)
  (rest : list OpId) (oc : Operator) (t : option OpId) (src : DsId)
  (dsrc : DataSource) (o : ObjId) (p : Payload) :
  m_paused st = false ->
  (forall f, m_future st = Some f -> is_Some (futures st !! f)) ->
  dataSources st !! ds = Some d ->
  ds_operators d = pre ++ c :: rest ->
  Forall (fun x => x <> start /\
            exists ox, operators st !! x = Some ox /\ op_state ox <> OpCanceled)
    pre ->
  c <> start ->
  operators st !! c = Some oc ->
  op_state oc = OpCanceled ->
  transformedIn (operators st) (rev (ds_operators d)) = Some t ->
  src = default ds (transformedChild (operators st) t) ->
  dataSources st !! src = Some dsrc ->
  ds_data dsrc = Some o ->
  objects st !! o = Some (Some p) ->
  let s1 := canceled_state st in
  let n := length (futures st) in
  let r := length (objects st) in
  executePipelineBranch ds (Some start) st
  = Some (tt,
      set_connections (connections st ++ branch_connections n)
        (set_future (Some n)
           (set_trace
              (trace s1 ++ [CallResetState c; CallRun n r (ds_operators d)])
              (set_futures
                 (futures s1 ++
                    [mkFuture r (ds_operators d) FutRunning (ds_operators d)])
                 (set_operators (<[c := withState OpPending oc]> (operators st))
                    (set_objects (objects st ++ [Some p]) s1)))))).
Proof.
  intros Hp Hv Hd Hops Hpre Hc Hoc Hst Ht Hsrc Hdsrc Hdata Hobj s1 n r.
  destruct (canceled_state_frame st)
    as (E1 & E2 & E3 & E4 & E5 & E6 & E7 & E8 & E9 & E10).
  fold s1 in E1, E2, E3, E4, E5, E6, E7, E8, E9, E10.
  unfold executePipelineBranch.
  rewrite gets_bind, Hp.
  mstep (DataSource_operators_run _ _ _ Hd).
  rewrite bool_decide_eq_false_2
    by (rewrite Hops; intros H; now apply app_eq_nil in H as [_ H]).
  rewrite gets_bind.
  rewrite (bind_run _ _ _ _ _ (cancel_block_run st Hv)). fold s1.
  rewrite <- E5 in Hd, Hdsrc. rewrite <- E6 in Hpre, Hoc, Ht, Hsrc.
  rewrite <- E4 in Hobj.
  mrun (eapply findTransformedDataSource_run; [exact Hd | exact Ht]).
  destruct (transformedChild (operators s1) t) as [tds|] eqn:Et;
    simpl in Hsrc; subst src.
  - mrun (eapply DataSource_copyData_run; [exact Hdsrc | exact Hdata | exact Hobj]).
    mrun (eapply DataSource_operators_run; exact Hd).
    rewrite Hops at 1.
    mrun (eapply scanCanceled_found; [exact Hpre | exact Hc | exact Hoc | exact Hst]).
    mrun (apply Worker_run_run).
    unfold connect, modify, mbind, M_bind, branch_connections. pnorm.
    rewrite E4, E6, E7, E9, <- !app_assoc. reflexivity.
  - mrun (eapply DataSource_operators_run; exact Hd).
    rewrite Hops at 1.
    mrun (eapply scanCanceled_found; [exact Hpre | exact Hc | exact Hoc | exact Hst]).
    mrun (eapply DataSource_copyData_run; [exact Hdsrc | exact Hdata | exact Hobj]).
    mrun (apply Worker_run_run).
    unfold connect, modify, mbind, M_bind, branch_connections. pnorm.
    rewrite E4, E6, E7, E9, <- !app_assoc. reflexivity.
Qed.




Lemma deliver_operatorRemoved st ds op :
  slots_of (connections st) (SndDataSource ds) SigOperatorRemoved = [SlotRemoved] ->
  deliver (SndDataSource ds) SigOperatorRemoved (ArgOperator op) st
  = operatorRemoved op st.
Proof.
  intros H. unfold deliver. rewrite gets_bind, H. cbn [run_slots run_slot].
  unfold mbind, M_bind.
  now destruct (operatorRemoved op st) as [[[] s1]|].
Qed.

Lemma implicitChild_Some o c :
  implicitChild o = Some c <->
  op_hasChildDataSource o = false /\ op_childDataSource o = Some c.
Proof.
  unfold implicitChild. destruct (op_hasChildDataSource o); split;
    intros H; try discriminate; try tauto. now destruct H.
Qed.

Lemma implicitChild_None o :
  implicitChild o = None ->
  negb (op_hasChildDataSource o) && bool_decide (is_Some (op_childDataSource o))
  = false.
Proof.
  unfold implicitChild. destruct (op_hasChildDataSource o); [reflexivity |].
  intros ->. reflexivity.
Qed.

Lemma last_None_nil {A} (l : list A) : last l = None -> l = [].
Proof.
  destruct l as [| a l] using rev_ind; [reflexivity |].
  rewrite last_snoc. discriminate.
Qed.

Lemma alter_lookup_is_Some {A} (g : A -> A) (l : list A) i j :
  is_Some (l !! j) -> is_Some (alter g i l !! j).
Proof.
  intros H. apply lookup_lt_is_Some. rewrite length_alter.
  now apply lookup_lt_is_Some.
Qed.

Lemma alter_withChild_lookup c i (l : list Operator) j o1 :
  alter (withChild c) i l !! j = Some o1 ->
  exists o0, l !! j = Some o0 /\ op_dataSource o1 = op_dataSource o0.
Proof.
  destruct (decide (i = j)) as [-> | Hne].
  - rewrite list_lookup_alter_eq. destruct (l !! j) as [o0|]; simpl; [| easy].
    intros [= <-]. now exists o0.
  - rewrite list_lookup_alter_ne by exact Hne. intros H. now exists o1.
Qed.

(** The second half of the [operatorRemoved] lambda. *)
Lemma operatorRemoved_tail s1 op ds o1 :
  operators s1 !! op = Some o1 ->
  op_dataSource o1 = ds ->
  (fut ← gets m_future;
   running ← match fut with
             | Some f => Future_isRunning f
             | None => mret false
             end;
   if (running : bool) then
     f ← deref fut;
     ok ← Future_cancelOp f op;
     when (negb ok) (ds ← Operator_dataSource op; execute_from ds)
   else
     ds ← Operator_dataSource op;
     execute_from ds) s1
  = match m_future s1 with
    | Some f =>
        match futures s1 !! f with
        | Some x =>
            match fut_status x with
            | FutTerminated => execute_from ds s1
            | _ =>
                let s2 := set_trace (trace s1 ++ [CallCancelOp f op]) s1 in
                if existsb (Nat.eqb op) (fut_cancelable x) then Some (tt, s2)
                else execute_from ds s2
            end
        | None => None
        end
    | None => execute_from ds s1
    end.
Proof.
  intros Ho Hds. rewrite gets_bind.
  destruct (m_future s1) as [f|].
  - destruct (futures s1 !! f) as [x|] eqn:Hx.
    + mrun (eapply Future_isRunning_run; exact Hx).
      destruct (fut_status x) eqn:E; mnorm.
      * mrun (eapply Future_cancelOp_run; exact Hx).
        destruct (existsb (Nat.eqb op) (fut_cancelable x)); [reflexivity |].
        cbn [negb when].
        mrun (eapply Operator_dataSource_run; exact Ho). now rewrite Hds.
      * mrun (eapply Future_cancelOp_run; exact Hx).
        destruct (existsb (Nat.eqb op) (fut_cancelable x)); [reflexivity |].
        cbn [negb when].
        mrun (eapply Operator_dataSource_run; exact Ho). now rewrite Hds.
      * mrun (eapply Operator_dataSource_run; exact Ho). now rewrite Hds.
    + unfold Future_isRunning, getFuture, mbind, M_bind, gets. now rewrite Hx.
  - mnorm. mrun (eapply Operator_dataSource_run; exact Ho). now rewrite Hds.
Qed.



(** ** One handle at a time *)

#[global] Instance prepares_preorder : PreOrder prepares.
Proof.
  split.
  - intros s. split; [reflexivity |]. exists []. now rewrite app_nil_r.
  - intros s1 s2 s3 [H1 (n1 & T1 & F1)] [H2 (n2 & T2 & F2)]. split.
    + now transitivity s2.
    + exists (n1 ++ n2). split; [now rewrite T2, T1, app_assoc |].
      now apply Forall_app.
Qed.

(** A state update that leaves the handles and the trace alone. *)
Ltac prepares_silent :=
  split; [now repeat split | exists []; split; [now rewrite app_nil_r | constructor]].

Lemma Operator_resetState_prepares op : frames prepares (Operator_resetState op).
Proof.
  unfold Operator_resetState, updOperator, emit. frame.
  - prepares_silent.
  - split; [now repeat split |].
    eexists [_]. split; [reflexivity |]. now repeat constructor.
Qed.

Lemma scanCanceled_prepares ops start : frames prepares (scanCanceled ops start).
Proof.
  induction ops as [| op rest IH]; cbn [scanCanceled]; frame.
  - apply Operator_resetState_prepares.
  - exact IH.
Qed.

Lemma DataSource_copyData_prepares ds : frames prepares (DataSource_copyData ds).
Proof. frame. prepares_silent. Qed.

(** The first block of [executePipelineBranch] leaves [canceled_state]. *)
Lemma cancel_block_inv st u s1 :
  match m_future st with
  | Some f => r ← Future_isRunning f; when r (Future_cancel f)
  | None => mret tt
  end st = Some (u, s1) ->
  s1 = canceled_state st.
Proof.
  unfold canceled_state. destruct (m_future st) as [f|].
  - intros H. destruct (futures st !! f) as [x|] eqn:Hx.
    + rewrite (bind_run _ _ _ _ _ (Future_isRunning_run _ _ _ Hx)) in H.
      destruct (fut_status x) eqn:E; cbn [when] in H.
      * rewrite (Future_cancel_run _ _ _ Hx), E in H. now injection H as <-.
      * rewrite (Future_cancel_run _ _ _ Hx), E in H. now injection H as <-.
      * now injection H as <-.
    + unfold Future_isRunning, getFuture, mbind, M_bind, gets in H.
      now rewrite Hx in H.
  - intros H. now injection H as <-.
Qed.

(** [executePipelineBranch], read backwards: either nothing happened, or
    the running handle was asked to cancel, the start was prepared, and
    a new handle was obtained and connected. *)
Lemma executePipelineBranch_inv st ds start st' :
  executePipelineBranch ds start st = Some (tt, st') ->
  st' = st \/
  exists s2 data ops,
    prepares (canceled_state st) s2 /\
    let n := length (futures s2) in
    st' = set_connections (connections s2 ++ branch_connections n)
            (set_future (Some n)
               (set_trace (trace s2 ++ [CallRun n data ops])
                  (set_futures (futures s2 ++ [mkFuture data ops FutRunning ops])
                     s2))).
Proof.
  unfold executePipelineBranch. rewrite gets_bind.
  destruct (m_paused st); [intros [= <-]; now left |].
  intros H.
  destruct (proj1 (M_bind_Some _ _ _ _) H) as (ops & s0 & H0 & H1). clear H.
  assert (s0 = st) as ->.
  { unfold DataSource_operators, getDataSource, mbind, M_bind, gets, deref in H0.
    destruct (dataSources st !! ds); [| discriminate]. now injection H0. }
  destruct (bool_decide (ops = [])); [injection H1 as <-; now left |].
  right. rewrite gets_bind in H1.
  destruct (proj1 (M_bind_Some _ _ _ _) H1) as (u & s1 & Hc & H2). clear H1.
  apply cancel_block_inv in Hc. subst s1.
  destruct (proj1 (M_bind_Some _ _ _ _) H2) as (plan & s2 & Hp & H3). clear H2.
  destruct (proj1 (M_bind_Some _ _ _ _) H3) as (data & s3 & Hd & H4). clear H3.
  exists s3, data, plan.2. split.
  - transitivity s2.
    + match type of Hp with ?m _ = _ => assert (Hf : frames prepares m) end;
        [| exact (Hf _ _ _ Hp)].
      destruct start as [st0|]; frame;
        first [ apply findTransformedDataSource_frames; exact _
              | apply scanCanceled_prepares
              | apply Operator_resetState_prepares
              | prepares_silent ].
    + match type of Hd with ?m _ = _ => assert (Hf : frames prepares m) end;
        [| exact (Hf _ _ _ Hd)].
      destruct plan.1; frame. prepares_silent.
  - unfold Worker_run, connect, emit, modify, gets, mbind, M_bind, mret, M_ret in H4.
    injection H4 as <-. unfold branch_connections. pnorm.
    now rewrite <- app_assoc.
Qed.

Lemma canceled_state_handles st :
  m_future (canceled_state st) = m_future st /\
  connections (canceled_state st) = connections st /\
  length (futures (canceled_state st)) = length (futures st) /\
  trace (canceled_state st) = trace st ++ cancel_calls st /\
  (forall g x, futures (canceled_state st) !! g = Some x ->
     fut_status x = FutRunning ->
     futures st !! g = Some x /\ m_future st <> Some g) /\
  (forall f x, m_future st = Some f -> futures st !! f = Some x ->
     fut_status x <> FutTerminated ->
     futures (canceled_state st) !! f = Some (withStatus FutCanceling x)).
Proof.
  unfold canceled_state, cancel_calls.
  destruct (m_future st) as [f|] eqn:Ef.
  2:{ rewrite app_nil_r. repeat split; try easy. }
  destruct (futures st !! f) as [xf|] eqn:Hf.
  2:{ rewrite app_nil_r. repeat split; try easy.
      - intros [= ->]. congruence.
      - intros f' x [= <-] Hx. congruence. }
  assert (Hlt : f < length (futures st)) by now apply lookup_lt_Some in Hf.
  destruct (fut_status xf) eqn:Es; pnorm;
    rewrite ?Ef, ?length_insert, ?app_nil_r;
    (split; [reflexivity |]); (split; [reflexivity |]);
    (split; [reflexivity |]); (split; [reflexivity |]); split.
  - intros g x Hg Hrun. destruct (decide (f = g)) as [<- | Hne].
    + rewrite list_lookup_insert_eq in Hg by exact Hlt.
      injection Hg as <-. discriminate.
    + rewrite list_lookup_insert_ne in Hg by exact Hne.
      split; [exact Hg | congruence].
  - intros f' x [= <-] Hx _. rewrite Hf in Hx. injection Hx as <-.
    now apply list_lookup_insert_eq.
  - intros g x Hg Hrun. destruct (decide (f = g)) as [<- | Hne].
    + rewrite list_lookup_insert_eq in Hg by exact Hlt.
      injection Hg as <-. discriminate.
    + rewrite list_lookup_insert_ne in Hg by exact Hne.
      split; [exact Hg | congruence].
  - intros f' x [= <-] Hx _. rewrite Hf in Hx. injection Hx as <-.
    now apply list_lookup_insert_eq.
  - intros g x Hg Hrun. split; [exact Hg |]. intros [= <-]. congruence.
  - intros f' x [= <-] Hx Hn. rewrite Hf in Hx. injection Hx as <-.
    contradiction.
Qed.

(** The invariant lets at most one handle be active. *)
Lemma handles_ok_one_active s f g :
  handles_ok s -> active s f -> active s g -> f = g.
Proof.
  intros [Hact _] Hf Hg. apply Hact in Hf, Hg. congruence.
Qed.

(** The state a dispatch leaves: the new handle [n] joins the arena,
    becomes [m_future] and is connected. *)
Lemma dispatch_handles_ok st s2 data ops :
  handles_ok st ->
  same_handles (canceled_state st) s2 ->
  let n := length (futures s2) in
  handles_ok
    (set_connections (connections s2 ++ branch_connections n)
       (set_future (Some n)
          (set_trace (trace s2 ++ [CallRun n data ops])
             (set_futures (futures s2 ++ [mkFuture data ops FutRunning ops])
                s2)))).
Proof.
  intros [Hact Hbound] (S1 & S2 & S3) n.
  destruct (canceled_state_handles st) as (C1 & C2 & C3 & _ & C5 & _).
  rewrite C2 in S3.
  assert (Hn : n = length (futures st)) by (unfold n; now rewrite S2).
  split.
  - (* an active handle is the new one *)
    intros g [Hmain (x & Hx & Hrunning)]. pnorm0.
    unfold main_handle in Hmain. pnorm0 in Hmain. pnorm0 in Hx.
    rewrite S3 in Hmain.
    apply elem_of_app in Hmain as [Hold | Hnew].
    + exfalso. pose proof (Hbound _ _ _ Hold) as Hlt.
      rewrite lookup_app_l in Hx by (fold n; rewrite Hn; exact Hlt).
      rewrite S2 in Hx.
      destruct (C5 _ _ Hx Hrunning) as [Hx0 Hne].
      apply Hne, Hact. split; [exact Hold | eauto].
    + unfold branch_connections in Hnew.
      apply elem_of_cons in Hnew as [[= ->] | Hnew]; [reflexivity |].
      apply list_elem_of_singleton in Hnew. discriminate.
  - (* connections are on existing handles *)
    intros f sig slot Hin. pnorm0 in Hin. pnorm0.
    rewrite length_app. fold n. simpl. rewrite S3 in Hin.
    apply elem_of_app in Hin as [Hold | Hnew].
    + pose proof (Hbound _ _ _ Hold). lia.
    + unfold branch_connections in Hnew.
      apply elem_of_cons in Hnew as [[= -> _ _] | Hnew]; [lia |].
      apply list_elem_of_singleton in Hnew. injection Hnew as -> _ _. lia.
Qed.

(** A call of [executePipelineBranch] keeps the invariant, and when it
    dispatches, the trace it adds is the cancellation of the handle
    [m_future] points to (if that handle is still running, which leaves
    it [FutCanceling]), then steps that do not call the worker, then
    the [run] call that returns the new handle. *)
Lemma executePipelineBranch_dispatch (st : Pipeline) (ds : DsId) (start : option OpId)
  (st' : Pipeline) :
  handles_ok st ->
  executePipelineBranch ds start st = Some (tt, st') ->
  handles_ok st' /\
  (forall f g, active st' f -> active st' g -> f = g) /\
  (st' = st \/
   exists between data ops,
     let n := length (futures st) in
     trace st'
       = trace st ++ cancel_calls st ++ between ++ [CallRun n data ops] /\
     Forall (fun e => is_run e = false) between /\
     m_future st' = Some n /\
     futures st' !! n = Some (mkFuture data ops FutRunning ops) /\
     (forall f x, m_future st = Some f -> futures st !! f = Some x ->
        fut_status x <> FutTerminated ->
        cancel_calls st = [CallCancel f] /\
        futures st' !! f = Some (withStatus FutCanceling x))).
Proof.
  intros Hok Hrun.
  assert (Hgoal : handles_ok st' /\
    (st' = st \/
     exists between data ops,
       let n := length (futures st) in
       trace st'
         = trace st ++ cancel_calls st ++ between ++ [CallRun n data ops] /\
       Forall (fun e => is_run e = false) between /\
       m_future st' = Some n /\
       futures st' !! n = Some (mkFuture data ops FutRunning ops) /\
       (forall f x, m_future st = Some f -> futures st !! f = Some x ->
          fut_status x <> FutTerminated ->
          cancel_calls st = [CallCancel f] /\
          futures st' !! f = Some (withStatus FutCanceling x)))).
  2:{ destruct Hgoal as [Hok' Hrest]. split; [exact Hok' |]. split; [| exact Hrest].
      intros f g. now apply handles_ok_one_active. }
  destruct (executePipelineBranch_inv _ _ _ _ Hrun)
    as [-> | (s2 & data & ops & [Hsame (between & T & Fb)] & Hst')].
  { split; [exact Hok | now left]. }
  cbv zeta in Hst'. subst st'.
  split; [exact (dispatch_handles_ok st s2 data ops Hok Hsame) |].
  destruct Hsame as (S1 & S2 & S3).
  destruct (canceled_state_handles st) as (C1 & C2 & C3 & C4 & C5 & C6).
  rewrite C4 in T.
  assert (Hn : length (futures s2) = length (futures st)) by now rewrite S2.
  right. exists between, data, ops. pnorm0. rewrite Hn.
  split; [now rewrite T, <- !app_assoc |].
  split; [exact Fb |]. split; [reflexivity |].
  split; [rewrite <- Hn; apply snoc_lookup |].
  intros f x Hf Hx Hterm. split.
  - unfold cancel_calls. rewrite Hf, Hx. now destruct (fut_status x).
  - rewrite lookup_app_l by (rewrite Hn; now apply lookup_lt_Some in Hx).
    rewrite S2. now apply C6.
Qed.

(** ** The invariant holds at any time *)

#[global] Instance keeps_preorder h : PreOrder (keeps h).
Proof.
  split.
  - intros s H. exact H.
  - intros s1 s2 s3 H12 H23 H. apply H23, H12, H.
Qed.

Lemma same_handles_keeps h s s' : same_handles s s' -> keeps h s s'.
Proof.
  intros (E1 & E2 & E3) [[Hact Hbound] Hset]. split; [split |].
  - intros f [Hmain (x & Hx & Hr)]. rewrite E1. apply Hact.
    unfold main_handle in *. rewrite E3 in Hmain. rewrite E2 in Hx.
    split; [exact Hmain | eauto].
  - intros f sig slot Hin. rewrite E3 in Hin. rewrite E2. eauto.
  - intros f Hf. rewrite E2. auto.
Qed.

Lemma frames_same_handles_keeps {A} h (m : M A) :
  frames same_handles m -> frames (keeps h) m.
Proof. intros H s a s' Hm. apply same_handles_keeps. eauto. Qed.

(** Frame goals of functions that leave the handles alone. *)
Ltac frame_h :=
  repeat first
    [ frame_step
    | progress unfold updDataSource, updOperator, Operator_resetState,
        Operator_setChildDataSource, DataSource_setData, DataSource_setParent,
        DataSource_new, DataSource_removeAllOperators, vtk_Delete ].

Create HintDb keeps.

(** Frame goals of the invariant: decomposition, then the lemmas of the
    database, then the functions that leave the handles alone. *)
Ltac frame_k :=
  repeat first
    [ solve [eauto with keeps]
    | frame_core
    | apply frames_same_handles_keeps; solve [frame_h] ].

Lemma scanCanceled_same_handles ops start :
  frames same_handles (scanCanceled ops start).
Proof.
  induction ops as [| op rest IH]; cbn [scanCanceled]; frame_h. exact IH.
Qed.

Lemma canceled_state_settled h st :
  settled h st -> settled h (canceled_state st).
Proof.
  intros Hs f Hf. destruct (Hs f Hf) as (x & Hx & Hnr).
  unfold canceled_state.
  destruct (m_future st) as [g|]; [| eauto].
  destruct (futures st !! g) as [xg|] eqn:Hg; [| eauto].
  destruct (fut_status xg) eqn:Eg; pnorm0; eauto;
    (destruct (decide (g = f)) as [-> | Hne];
      [ rewrite list_lookup_insert_eq by (now apply lookup_lt_Some in Hx);
        eexists; split; [reflexivity | discriminate]
      | rewrite list_lookup_insert_ne by exact Hne; eauto ]).
Qed.

Lemma executePipelineBranch_keeps h ds start :
  frames (keeps h) (executePipelineBranch ds start).
Proof.
  intros s [] s' Hrun [Hok Hset].
  destruct (executePipelineBranch_inv _ _ _ _ Hrun)
    as [-> | (s2 & data & ops & [Hsame _] & Hst')]; [now split |].
  cbv zeta in Hst'. subst s'.
  split; [exact (dispatch_handles_ok s s2 data ops Hok Hsame) |].
  intros f Hf. pnorm0. destruct Hsame as (_ & S2 & _).
  destruct (canceled_state_settled h s Hset f Hf) as (x & Hx & Hnr).
  exists x. split; [| exact Hnr].
  rewrite lookup_app_l by (rewrite S2; now apply lookup_lt_Some in Hx).
  now rewrite S2.
Qed.

Lemma emit_keeps h e : frames (keeps h) (emit e).
Proof. apply frames_same_handles_keeps. frame. Qed.

#[global] Hint Resolve executePipelineBranch_keeps : keeps.

Lemma execute_keeps h : frames (keeps h) execute.
Proof. unfold execute. frame_k. Qed.

Lemma execute_from_keeps h ds : frames (keeps h) (execute_from ds).
Proof. unfold execute_from. frame_k. Qed.

Lemma execute_last_keeps h ds last : frames (keeps h) (execute_last ds last).
Proof. unfold execute_last. frame_k. Qed.

#[global] Hint Resolve execute_keeps execute_from_keeps execute_last_keeps
  : keeps.

(** A connection on a data source or an operator does not concern the
    handles. *)
Lemma connect_other_keeps h snd sig slot :
  sender_future snd = None -> frames (keeps h) (connect snd sig slot).
Proof.
  intros Hsnd s a s' H [[Hact Hbound] Hset]. unfold connect, modify in H.
  injection H as H; subst s'. split; [split |].
  - intros f [Hmain Hx]. pnorm0. apply Hact. split; [| exact Hx].
    unfold main_handle in *. pnorm0 in Hmain.
    apply elem_of_app in Hmain as [Hin | Hin]; [exact Hin |].
    apply list_elem_of_singleton in Hin. injection Hin as <- _ _. discriminate.
  - intros f sig' slot' Hin. pnorm0 in Hin. pnorm0.
    apply elem_of_app in Hin as [Hin | Hin]; [eauto |].
    apply list_elem_of_singleton in Hin. injection Hin as <- _ _. discriminate.
  - exact Hset.
Qed.

Lemma addDataSource_keeps h ds : frames (keeps h) (addDataSource ds).
Proof.
  unfold addDataSource.
  repeat (apply frames_bind; [exact _ | | intros ?]);
    now apply connect_other_keeps.
Qed.

#[global] Hint Resolve addDataSource_keeps : keeps.

(** The reset of [m_future] for a handle that is no longer running. *)
Lemma clear_future_keeps f :
  frames (keeps (Some f))
    (cur ← gets m_future;
     when (bool_decide (cur = Some f)) (modify (set_future None))).
Proof.
  intros s a s' H [[Hact Hbound] Hset]. rewrite gets_bind in H.
  destruct (bool_decide (m_future s = Some f)) eqn:E; cbn [when] in H.
  2:{ injection H as H; subst s'. now split. }
  apply bool_decide_eq_true in E.
  unfold modify in H. injection H as H; subst s'.
  split; [split |]; pnorm0.
  - intros g [Hmain (xg & Hxg & Hr)]. exfalso.
    destruct (Hset f eq_refl) as (x & Hx & Hnr).
    assert (Hg : m_future s = Some g) by (apply Hact; split; eauto).
    rewrite E in Hg. injection Hg as <-.
    pnorm0 in Hxg. rewrite Hx in Hxg. injection Hxg as <-. contradiction.
  - exact Hbound.
  - exact Hset.
Qed.

Lemma release_keeps f : frames (keeps (Some f)) (release f).
Proof.
  unfold release. apply frames_bind; [exact _ | | intros ?].
  - apply frames_same_handles_keeps. frame.
  - apply clear_future_keeps.
Qed.

#[global] Hint Resolve release_keeps clear_future_keeps : keeps.

Lemma pipelineBranchFinished_keeps f result :
  frames (keeps (Some f)) (pipelineBranchFinished f result).
Proof. unfold pipelineBranchFinished. frame_k. Qed.

Lemma pipelineBranchCanceled_keeps f :
  frames (keeps (Some f)) (pipelineBranchCanceled f).
Proof. unfold pipelineBranchCanceled. frame_k. Qed.

#[global] Hint Resolve pipelineBranchFinished_keeps pipelineBranchCanceled_keeps
  : keeps.

(** A cancellation request only takes handles out of the running
    state. *)
Lemma Future_cancel_keeps h f : frames (keeps h) (Future_cancel f).
Proof.
  intros s a s' H [[Hact Hbound] Hset].
  unfold Future_cancel, updFuture, emit in H.
  destruct (futures s !! f) as [x|] eqn:Hx.
  2:{ unfold getFuture, mbind, M_bind, gets in H. now rewrite Hx in H. }
  rewrite bind_assoc, (bind_run _ _ _ _ _ (getFuture_run _ _ _ Hx)) in H.
  unfold modify, mbind, M_bind in H. injection H as H; subst s'.
  assert (Hlt : f < length (futures s)) by now apply lookup_lt_Some in Hx.
  split; [split |]; pnorm0.
  - intros g [Hmain (xg & Hxg & Hr)]. apply Hact. split; [exact Hmain |].
    pnorm0 in Hxg. destruct (decide (f = g)) as [<- | Hne].
    + rewrite list_lookup_insert_eq in Hxg by exact Hlt.
      injection Hxg as <-. simpl in Hr.
      now destruct (fut_status x).
    + rewrite list_lookup_insert_ne in Hxg by exact Hne. eauto.
  - intros g sig slot Hin. rewrite length_insert. eauto.
  - intros g Hg. destruct (Hset g Hg) as (xg & Hxg & Hnr). pnorm0.
    destruct (decide (f = g)) as [<- | Hne].
    + rewrite list_lookup_insert_eq by exact Hlt.
      eexists. split; [reflexivity |]. simpl.
      now destruct (fut_status x).
    + rewrite list_lookup_insert_ne by exact Hne. eauto.
Qed.

#[global] Hint Resolve Future_cancel_keeps : keeps.

(** [cancel]: the callback is connected to the [canceled] signal of an
    existing handle. *)
Lemma cancel_keeps h k : frames (keeps h) (cancel k).
Proof.
  unfold cancel. apply frames_bind; [exact _ | apply frames_gets; exact _ |].
  intros [f|]; [| apply frames_ret; exact _].
  intros s a s' H.
  destruct (proj1 (M_bind_Some _ _ _ _) H) as ([] & s1 & H1 & H2).
  transitivity s1; [| exact (Future_cancel_keeps h f _ _ _ H2)].
  assert (Hlt : f < length (futures s1)).
  { unfold Future_cancel, updFuture, getFuture, mbind, M_bind, gets in H2.
    destruct (futures s1 !! f) eqn:E; [| discriminate].
    now apply lookup_lt_Some in E. }
  destruct k as [k|].
  2:{ injection H1 as H1; subst s1. reflexivity. }
  unfold connect, modify in H1. injection H1 as H1; subst s1.
  pnorm0 in Hlt. intros [[Hact Hbound] Hset]. split; [split |]; pnorm0.
  - intros g [Hmain Hx]. apply Hact. split; [| exact Hx].
    unfold main_handle in *. pnorm0 in Hmain.
    apply elem_of_app in Hmain as [Hin | Hin]; [exact Hin |].
    apply list_elem_of_singleton in Hin. discriminate.
  - intros g sig slot Hin. pnorm0 in Hin.
    apply elem_of_app in Hin as [Hin | Hin]; [eauto |].
    apply list_elem_of_singleton in Hin. now injection Hin as -> _ _.
  - exact Hset.
Qed.

Lemma pause_keeps h : frames (keeps h) pause.
Proof. apply frames_same_handles_keeps. unfold pause. frame. Qed.

Lemma resume_keeps h run : frames (keeps h) (resume run).
Proof.
  unfold resume. apply frames_bind; [exact _ | | intros ?].
  - apply frames_same_handles_keeps. frame.
  - frame_k.
Qed.

Lemma isRunning_keeps h : frames (keeps h) isRunning.
Proof. apply frames_same_handles_keeps. unfold isRunning. frame. Qed.

(** A preview obtains a handle of its own, which is not a handle of the
    pipeline: its signals go to the preview. *)
Lemma preview_run_keeps h op data ops :
  frames (keeps h)
    (future ← Worker_run data ops; ImageFuture_new op data (Some future)).
Proof.
  intros s a s' H [[Hact Hbound] Hset].
  unfold Worker_run, ImageFuture_new, connect, emit, modify, gets, mbind, M_bind,
    mret, M_ret in H.
  injection H as _ H; subst s'. split; [split |]; pnorm0.
  - intros g [Hmain (x & Hx & Hr)]. apply Hact.
    unfold main_handle in *. pnorm0 in Hmain. pnorm0 in Hx.
    rewrite <- app_assoc in Hmain.
    apply elem_of_app in Hmain as [Hin | Hin].
    + split; [exact Hin |]. exists x. split; [| exact Hr].
      rewrite lookup_app_l in Hx by eauto. exact Hx.
    + exfalso. simpl in Hin.
      repeat (apply elem_of_cons in Hin as [Hin | Hin]; [discriminate |]).
      now apply elem_of_nil in Hin.
  - intros g sig slot Hin. pnorm0 in Hin. rewrite length_app. simpl.
    rewrite <- app_assoc in Hin.
    apply elem_of_app in Hin as [Hin | Hin]; [pose proof (Hbound _ _ _ Hin); lia |].
    simpl in Hin.
    repeat (apply elem_of_cons in Hin as [Hin | Hin];
            [injection Hin as -> _ _; lia |]).
    now apply elem_of_nil in Hin.
  - intros g Hg. destruct (Hset g Hg) as (x & Hx & Hnr). pnorm0.
    exists x. split; [| exact Hnr]. now apply lookup_app_l_Some.
Qed.

Lemma getCopyOfImagePriorTo_keeps h op :
  frames (keeps h) (getCopyOfImagePriorTo op).
Proof.
  unfold getCopyOfImagePriorTo.
  apply frames_bind; [exact _ | apply frames_gets; exact _ | intros ds].
  apply frames_bind; [exact _ | | intros data].
  { apply frames_same_handles_keeps. frame. }
  apply frames_bind; [exact _ | | intros ops].
  { apply frames_same_handles_keeps. frame. }
  cbv zeta.
  assert (Himm : frames (keeps h)
    (imageFuture ← ImageFuture_new op data None;
     singleShot (EvImageFinished imageFuture true);; mret imageFuture)).
  { apply frames_same_handles_keeps. unfold ImageFuture_new. frame. }
  destruct (1 <? length ops); [| exact Himm].
  destruct (0 <? indexOf ops op)%Z; [| exact Himm].
  apply preview_run_keeps.
Qed.

#[global] Hint Resolve cancel_keeps pause_keeps resume_keeps isRunning_keeps
  getCopyOfImagePriorTo_keeps emit_keeps : keeps.

Lemma findTransformedDataSourceOperator_keeps h ds :
  frames (keeps h) (findTransformedDataSourceOperator ds).
Proof.
  unfold findTransformedDataSourceOperator.
  apply frames_bind; [exact _ | | intros ops].
  - apply frames_same_handles_keeps. frame.
  - apply findTransformedIn_frames; exact _.
Qed.

#[global] Hint Resolve findTransformedDataSourceOperator_keeps : keeps.

Lemma operatorAdded_execute_keeps h op : frames (keeps h) (operatorAdded_execute op).
Proof. unfold operatorAdded_execute. frame_k. Qed.

Lemma operatorAdded_relocate_keeps h op :
  frames (keeps h) (operatorAdded_relocate op).
Proof.
  unfold operatorAdded_relocate. apply frames_bind; [exact _ | | intros ?].
  - now apply connect_other_keeps.
  - frame_k.
Qed.

Lemma operatorRemoved_keeps h op : frames (keeps h) (operatorRemoved op).
Proof. unfold operatorRemoved. frame_k. Qed.

#[global] Hint Resolve operatorAdded_execute_keeps operatorAdded_relocate_keeps
  operatorRemoved_keeps : keeps.

(** A slot keeps the invariant; [pipelineBranchFinished] and
    [pipelineBranchCanceled] run for the handle that sent the signal. *)
Lemma run_slot_keeps snd arg slot :
  frames (keeps (sender_future snd)) (run_slot snd arg slot).
Proof.
  destruct slot, snd, arg; cbn [run_slot sender_future];
    first [apply frames_undefined | solve [eauto with keeps]].
Qed.

Lemma run_slots_keeps snd arg slots :
  frames (keeps (sender_future snd)) (run_slots snd arg slots).
Proof.
  induction slots as [| slot rest IH]; cbn [run_slots].
  - apply frames_ret; exact _.
  - apply frames_bind; [exact _ | apply run_slot_keeps | intros _; exact IH].
Qed.

Lemma deliver_keeps snd sig arg :
  frames (keeps (sender_future snd)) (deliver snd sig arg).
Proof.
  unfold deliver. apply frames_bind; [exact _ | apply frames_gets; exact _ |].
  intros conns. apply run_slots_keeps.
Qed.

(** The terminal event of a handle settles it. *)
Lemma Future_setTerminated_settles f s a s' :
  Future_setTerminated f s = Some (a, s') ->
  handles_ok s -> handles_ok s' /\ settled (Some f) s'.
Proof.
  intros H [Hact Hbound]. unfold Future_setTerminated, updFuture in H.
  destruct (futures s !! f) as [x|] eqn:Hx.
  2:{ unfold getFuture, mbind, M_bind, gets in H. now rewrite Hx in H. }
  rewrite (bind_run _ _ _ _ _ (getFuture_run _ _ _ Hx)) in H.
  unfold modify in H. injection H as _ H; subst s'.
  assert (Hlt : f < length (futures s)) by now apply lookup_lt_Some in Hx.
  split; [split |].
  - intros g [Hmain (xg & Hxg & Hr)]. pnorm0. apply Hact. split; [exact Hmain |].
    pnorm0 in Hxg. destruct (decide (f = g)) as [<- | Hne].
    + rewrite list_lookup_insert_eq in Hxg by exact Hlt.
      injection Hxg as <-. discriminate.
    + rewrite list_lookup_insert_ne in Hxg by exact Hne. eauto.
  - intros g sig slot Hin. pnorm0. rewrite length_insert. eauto.
  - intros g [= <-]. pnorm0. rewrite list_lookup_insert_eq by exact Hlt.
    eexists. split; [reflexivity | discriminate].
Qed.

(** Every event keeps the invariant. *)
Theorem handles_ok_step s s' : handles_ok s -> event_step s s' -> handles_ok s'.
Proof.
  assert (Hk : forall h {A} (m : M A) s s',
    frames (keeps h) m -> exec m s = Some s' ->
    handles_ok s -> settled h s -> handles_ok s').
  { intros h A m s1 s2 Hf He Hok Hset. unfold exec in He.
    destruct (m s1) as [[a s3]|] eqn:Hm; [| discriminate].
    injection He as ->. now apply (Hf _ _ _ Hm). }
  assert (Hnone : forall s, settled None s) by (intros ? ? [=]).
  intros Hok [H | ds last H | ds H | H | run H | k H | H | op H | ds op H
             | ds op H | op H | f result H | f H | H].
  - exact (Hk None _ _ _ _ (execute_keeps _) H Hok (Hnone _)).
  - exact (Hk None _ _ _ _ (execute_last_keeps _ _ _) H Hok (Hnone _)).
  - exact (Hk None _ _ _ _ (execute_from_keeps _ _) H Hok (Hnone _)).
  - exact (Hk None _ _ _ _ (pause_keeps _) H Hok (Hnone _)).
  - exact (Hk None _ _ _ _ (resume_keeps _ _) H Hok (Hnone _)).
  - exact (Hk None _ _ _ _ (cancel_keeps _ _) H Hok (Hnone _)).
  - exact (Hk None _ _ _ _ (isRunning_keeps _) H Hok (Hnone _)).
  - exact (Hk None _ _ _ _ (getCopyOfImagePriorTo_keeps _ _) H Hok (Hnone _)).
  - refine (Hk None _ _ _ _ _ H Hok (Hnone _)).
    unfold DataSource_addOperator. apply frames_bind; [exact _ | | intros _].
    + apply frames_same_handles_keeps. frame_h.
    + apply (deliver_keeps (SndDataSource ds)).
  - refine (Hk None _ _ _ _ _ H Hok (Hnone _)).
    unfold DataSource_removeOperator. apply frames_bind; [exact _ | | intros _].
    + apply frames_same_handles_keeps. frame_h.
    + apply (deliver_keeps (SndDataSource ds)).
  - exact (Hk None _ _ _ _ (deliver_keeps (SndOperator op) _ _) H Hok (Hnone _)).
  - unfold exec, Future_finished in H.
    destruct ((Future_setTerminated f ≫= _) s) as [[a s2]|] eqn:Hm;
      [| discriminate].
    injection H as ->.
    destruct (proj1 (M_bind_Some _ _ _ _) Hm) as (u & s1 & H1 & H2).
    destruct (Future_setTerminated_settles _ _ _ _ H1 Hok) as [Hok1 Hset1].
    now apply (deliver_keeps (SndFuture f) _ _ _ _ _ H2).
  - unfold exec, Future_canceled in H.
    destruct ((Future_setTerminated f ≫= _) s) as [[a s2]|] eqn:Hm;
      [| discriminate].
    injection H as ->.
    destruct (proj1 (M_bind_Some _ _ _ _) Hm) as (u & s1 & H1 & H2).
    destruct (Future_setTerminated_settles _ _ _ _ H1 Hok) as [Hok1 Hset1].
    now apply (deliver_keeps (SndFuture f) _ _ _ _ _ H2).
  - refine (Hk None _ _ _ _ _ H Hok (Hnone _)).
    apply frames_same_handles_keeps. unfold processEvents. frame.
Qed.

(** A new pipeline satisfies the invariant: it has no handle. *)
Lemma handles_ok_new objs dss ops root s :
  Pipeline_new objs dss ops root = Some s -> handles_ok s.
Proof.
  unfold Pipeline_new, exec. intros H.
  set (s0 := mkPipeline root false None objs dss ops [] [] [] [] []) in H.
  destruct ((DataSource_setParent root ThisPipeline ≫= _) s0)
    as [[a s1]|] eqn:Hm; [| discriminate].
  injection H as ->.
  assert (Hf : frames (keeps None)
            (DataSource_setParent root ThisPipeline;; addDataSource root)).
  { apply frames_bind; [exact _ | | intros _].
    - apply frames_same_handles_keeps. frame_h.
    - apply addDataSource_keeps. }
  apply (Hf _ _ _ Hm). split; [split |].
  - intros f [Hmain _]. unfold main_handle in Hmain. simpl in Hmain.
    now apply elem_of_nil in Hmain.
  - intros f sig slot Hin. simpl in Hin. now apply elem_of_nil in Hin.
  - intros f [=].
Qed.

(** The invariant holds in every pipeline reachable from a new one. *)
Lemma handles_ok_reachable objs dss ops root s0 s :
  Pipeline_new objs dss ops root = Some s0 -> reachable s0 s -> handles_ok s.
Proof.
  intros Hnew Hreach. induction Hreach as [| s1 s2 _ IH Hstep].
  - exact (handles_ok_new _ _ _ _ _ Hnew).
  - exact (handles_ok_step _ _ IH Hstep).
Qed.

(** C2: in every pipeline reachable from a new one by the events of
    [event_step], at most one handle of the pipeline is active (a handle
    dispatched by [executePipelineBranch], running and not asked to
    cancel); and whenever [executePipelineBranch] dispatches there, what
    it adds to the trace is the [cancel] call on the handle still
    active (which leaves it [FutCanceling]), then steps that do not
    call the worker, then the [run] call that returns the new handle,
    which becomes [m_future]. *)
Theorem C2_one_active_handle (objs : list (option Payload))
  (dss : list DataSource) (ops : list Operator) (root : DsId)
  (s0 st : Pipeline) :
  Pipeline_new objs dss ops root = Some s0 ->
  reachable s0 st ->
  (forall f g, active st f -> active st g -> f = g) /\
  (forall ds start st',
     executePipelineBranch ds start st = Some (tt, st') ->
     (forall f g, active st' f -> active st' g -> f = g) /\
     (st' = st \/
      exists between data steps,
        let n := length (futures st) in
        trace st'
          = trace st ++ cancel_calls st ++ between ++ [CallRun n data steps] /\
        Forall (fun e => is_run e = false) between /\
        m_future st' = Some n /\
        futures st' !! n = Some (mkFuture data steps FutRunning steps) /\
        (forall f, active st f ->
           cancel_calls st = [CallCancel f] /\
           exists x, futures st' !! f = Some (withStatus FutCanceling x)))).
Proof.
  intros Hnew Hreach.
  pose proof (handles_ok_reachable _ _ _ _ _ _ Hnew Hreach) as Hok.
  split; [intros f g; now apply handles_ok_one_active |].
  intros ds start st' Hrun.
  destruct (executePipelineBranch_dispatch st ds start st' Hok Hrun)
    as (Hok' & Hone & Hcases).
  split; [exact Hone |].
  destruct Hcases as [-> | (between & data & steps & Ht & Hb & Hm & Hn & Hprior)];
    [now left | right].
  exists between, data, steps. cbv zeta in *.
  repeat (split; [assumption |]).
  intros f Hf. pose proof (proj1 Hok f Hf) as Hmf.
  destruct Hf as [_ (x & Hx & Hr)].
  destruct (Hprior f x Hmf Hx) as [Hc Hx']; [rewrite Hr; discriminate |].
  split; [exact Hc | eauto].
Qed.

Lemma C2_one_active_handle_witness :
  exists st',
    executePipelineBranch 0 None ex_running = Some (tt, st') /\
    trace st' = trace ex_running ++ [CallCancel 0; CallRun 1 2 [0; 1]] /\
    forall f g, active st' f -> active st' g -> f = g.
Proof.
  assert (Hnew : Pipeline_new [Some [1; 2]%Z]
                   [mkDataSource "root" None (Some 0) [0; 1]]
                   [mkOperator 0 OpPending false None;
                    mkOperator 0 OpPending false None] 0
                 = Some ex_two_steps) by reflexivity.
  assert (Hreach : reachable ex_two_steps ex_running).
  { apply (reachable_step _ ex_two_steps); [apply reachable_start |].
    apply step_execute. reflexivity. }
  eexists. split; [reflexivity |]. split; [reflexivity |].
  exact (proj1 (proj2 (C2_one_active_handle _ _ _ _ _ _ Hnew Hreach)
                  0 None _ eq_refl)).
Defined.

(** * Further properties of the pipeline *)

(** ** The search for the implicit child *)

Lemma transformedIn_rev_last arena ops :
  Forall (fun x => is_Some (arena !! x)) ops ->
  exists r, transformedIn arena (rev ops) = Some r /\
    match r with
    | Some op =>
        exists pre post o c,
          ops = pre ++ op :: post /\ arena !! op = Some o /\
          implicitChild o = Some c /\ Forall (plain_step arena) post
    | None => Forall (plain_step arena) ops
    end.
Proof.
  induction ops as [| x l IH] using rev_ind; intros Hall.
  - exists None. split; [reflexivity | constructor].
  - apply Forall_app in Hall as [Hl Hx].
    apply Forall_singleton in Hx as [o Ho].
    rewrite rev_unit. cbn [transformedIn]. rewrite Ho.
    destruct (negb (op_hasChildDataSource o)
              && bool_decide (is_Some (op_childDataSource o))) eqn:E.
    + exists (Some x). split; [reflexivity |].
      apply andb_true_iff in E as [E1 E2].
      apply negb_true_iff in E1. apply bool_decide_eq_true in E2 as [c Hc].
      exists l, [], o, c. repeat split; try assumption; [| constructor].
      apply implicitChild_Some. now split.
    + destruct (IH Hl) as (r & Hr & Hspec). exists r. split; [exact Hr |].
      assert (Hplain : plain_step arena x).
      { exists o. split; [exact Ho |]. unfold implicitChild.
        destruct (op_hasChildDataSource o); [reflexivity |].
        destruct (op_childDataSource o) as [c|]; [| reflexivity].
        cbn [negb andb] in E. rewrite bool_decide_eq_true_2 in E by eauto.
        discriminate. }
      destruct r as [op|].
      * destruct Hspec as (pre & post & oo & c & -> & Hoo & Hc & Hpost).
        exists pre, (post ++ [x]), oo, c. rewrite <- app_assoc.
        repeat split; try assumption.
        apply Forall_app. split; [exact Hpost | now constructor].
      * apply Forall_app. split; [exact Hspec | now constructor].
Qed.

(** [findTransformedDataSourceOperator] and [findTransformedDataSource]
    read the pipeline and change nothing; on a data source whose steps
    all exist, the first returns the LAST step of the data source that
    holds an implicit child (a child without the [hasChildDataSource]
    flag), and null when no step holds one; the second returns the child
    of that step, and null when there is none. *)
Theorem findTransformedDataSource_last_implicit (st : Pipeline) (ds : DsId)
  (d : DataSource) :
  dataSources st !! ds = Some d ->
  Forall (fun x => is_Some (operators st !! x)) (ds_operators d) ->
  (exists pre op post o c,
     ds_operators d = pre ++ op :: post /\
     operators st !! op = Some o /\
     op_hasChildDataSource o = false /\ op_childDataSource o = Some c /\
     Forall (plain_step (operators st)) post /\
     findTransformedDataSourceOperator ds st = Some (Some op, st) /\
     findTransformedDataSource ds st = Some (Some c, st)) \/
  (Forall (plain_step (operators st)) (ds_operators d) /\
   findTransformedDataSourceOperator ds st = Some (None, st) /\
   findTransformedDataSource ds st = Some (None, st)).
Proof.
  intros Hd Hall.
  destruct (transformedIn_rev_last _ _ Hall) as (r & Hr & Hspec).
  pose proof (findTransformedDataSourceOperator_run _ _ _ _ Hd Hr) as H1.
  pose proof (findTransformedDataSource_run _ _ _ _ Hd Hr) as H2.
  destruct r as [op|].
  - left. destruct Hspec as (pre & post & o & c & Hops & Ho & Hc & Hpost).
    apply implicitChild_Some in Hc as [Hc1 Hc2].
    exists pre, op, post, o, c. repeat (split; [assumption |]).
    rewrite H2. cbn [transformedChild]. rewrite Ho.
    unfold implicitChild. now rewrite Hc1, Hc2.
  - right. now repeat split.
Qed.

Lemma findTransformedDataSource_last_implicit_witness :
  findTransformedDataSourceOperator 0 ex_before_remove = Some (Some 1, ex_before_remove) /\
  findTransformedDataSource 0 ex_before_remove = Some (Some 1, ex_before_remove).
Proof.
  destruct (findTransformedDataSource_last_implicit ex_before_remove 0
              (mkDataSource "root" (Some ThisPipeline) (Some 0) [0; 1]) eq_refl)
    as [(pre & op & post & o & c & _ & _ & _ & _ & _ & H1 & H2) | (_ & H1 & _)].
  - repeat constructor; vm_compute; eauto.
  - assert (op = 1 /\ c = 1) as [-> ->].
    { vm_compute in H1, H2. now injection H1; injection H2. }
    split; [exact H1 | exact H2].
  - discriminate H1.
Defined.

(** ** Edges of the entry points *)

(** [execute(start, last)] with [last] set looks up the last step of
    [start] before anything else.  On a data source without steps
    [QList::last] is called on an empty list: the call is undefined,
    even on a paused pipeline, although nothing would run there (with
    [last] unset the same call only emits [started()]).  On a data
    source with steps the call is [started()] followed by
    [executePipelineBranch] resuming at the last step. *)
Theorem execute_last_needs_a_step (st : Pipeline) (start : DsId)
  (d : DataSource) :
  dataSources st !! start = Some d ->
  (ds_operators d = [] ->
   execute_last start true st = None /\
   execute_last start false st
     = Some (tt, set_trace (trace st ++ [EvStarted]) st)) /\
  (forall lastOp, last (ds_operators d) = Some lastOp ->
   execute_last start true st
     = executePipelineBranch start (Some lastOp)
         (set_trace (trace st ++ [EvStarted]) st)).
Proof.
  intros Hd.
  assert (Hd1 : dataSources (set_trace (trace st ++ [EvStarted]) st) !! start
                = Some d) by exact Hd.
  split.
  - intros Hempty. split.
    + unfold execute_last. rewrite (bind_run _ _ _ _ _ (emit_run _ _)).
      mrun (eapply DataSource_operators_run; exact Hd1).
      rewrite Hempty. reflexivity.
    + unfold execute_last. rewrite (bind_run _ _ _ _ _ (emit_run _ _)).
      rewrite ret_bind. apply executePipelineBranch_idle. right.
      pnorm. now rewrite Hd, <- Hempty.
  - intros lastOp Hlast.
    unfold execute_last. rewrite (bind_run _ _ _ _ _ (emit_run _ _)).
    mrun (eapply DataSource_operators_run; exact Hd1).
    mrun (eapply QList_last_run; exact Hlast).
    reflexivity.
Qed.

Lemma execute_last_needs_a_step_witness :
  execute_last 1 true (set_paused true ex_before_add) = None /\
  execute_last 1 false (set_paused true ex_before_add)
    = Some (tt, set_trace (trace ex_before_add ++ [EvStarted])
                  (set_paused true ex_before_add)).
Proof.
  exact (proj1 (execute_last_needs_a_step (set_paused true ex_before_add) 1
                  (mkDataSource "Output" (Some ThisPipeline) (Some 1) [])
                  eq_refl) eq_refl).
Defined.

#[global] Instance same_nodes_preorder : PreOrder same_nodes.
Proof.
  split.
  - intros s. now split.
  - intros s1 s2 s3 [A1 A2] [B1 B2]. split; congruence.
Qed.

(** When the scan of [executePipelineBranch] comes to an end, it has
    met [start] or a canceled step. *)
Lemma scanCanceled_stops ops start s b s' :
  scanCanceled ops start s = Some (b, s') ->
  start ∈ ops \/
  exists x o, x ∈ ops /\ operators s !! x = Some o /\ op_state o = OpCanceled.
Proof.
  induction ops as [| x rest IH]; cbn [scanCanceled]; [discriminate |].
  destruct (Nat.eqb x start) eqn:E.
  { intros _. left. apply Nat.eqb_eq in E. subst. left. }
  destruct (operators s !! x) as [o|] eqn:Ho.
  2:{ unfold Operator_isCanceled, getOperator, mbind, M_bind, gets.
      now rewrite Ho. }
  rewrite (bind_run _ _ _ _ _ (Operator_isCanceled_run _ _ _ Ho)).
  destruct (op_state o) eqn:Es.
  - intros H. destruct (IH H) as [Hin | (y & oy & Hin & Hy)];
      [left; now right | right; exists y, oy; split; [now right | exact Hy]].
  - intros H. destruct (IH H) as [Hin | (y & oy & Hin & Hy)];
      [left; now right | right; exists y, oy; split; [now right | exact Hy]].
  - intros _. right. exists x, o. split; [left | now split].
Qed.

(** Up to the scan, [executePipelineBranch] leaves the nodes alone. *)
Lemma before_scan_same_nodes ds :
  frames same_nodes
    (t ← findTransformedDataSource ds;
     match t with
     | Some tds => d ← DataSource_copyData tds; mret (Some d)
     | None => mret None
     end).
Proof.
  frame. apply findTransformedDataSource_frames; exact _.
Qed.

(** [executePipelineBranch(dataSource, start)] looks for [start] among
    the steps of [dataSource] with an iterator that nothing stops at
    the end of the list: when [start] is not a step of [dataSource] and
    no step of it is canceled, the call is undefined (on a pipeline
    that is not paused and a data source that has steps; otherwise the
    call returns before the loop). *)
Theorem executePipelineBranch_foreign_start (st : Pipeline) (ds : DsId)
  (d : DataSource) (start : OpId) :
  m_paused st = false ->
  dataSources st !! ds = Some d ->
  ds_operators d <> [] ->
  start ∉ ds_operators d ->
  Forall (fun x => forall o, operators st !! x = Some o ->
                             op_state o <> OpCanceled) (ds_operators d) ->
  executePipelineBranch ds (Some start) st = None.
Proof.
  intros Hp Hd Hne Hnotin Hclean.
  destruct (executePipelineBranch ds (Some start) st) as [[[] st']|] eqn:Hrun;
    [exfalso | reflexivity].
  unfold executePipelineBranch in Hrun. rewrite gets_bind, Hp in Hrun.
  rewrite (bind_run _ _ _ _ _ (DataSource_operators_run _ _ _ Hd)) in Hrun.
  rewrite bool_decide_eq_false_2 in Hrun by exact Hne.
  rewrite gets_bind in Hrun.
  destruct (proj1 (M_bind_Some _ _ _ _) Hrun) as (u & s1 & Hc & H1). clear Hrun.
  apply cancel_block_inv in Hc. subst s1.
  destruct (proj1 (M_bind_Some _ _ _ _) H1) as (plan & s2 & Hplan & _). clear H1.
  rewrite <- bind_assoc in Hplan.
  destruct (proj1 (M_bind_Some _ _ _ _) Hplan) as (data & s3 & Hpre & H2).
  clear Hplan.
  destruct (before_scan_same_nodes ds _ _ _ Hpre) as [N1 N2].
  destruct (canceled_state_frame st) as (_ & _ & _ & _ & E5 & E6 & _).
  rewrite E5 in N1. rewrite E6 in N2.
  assert (Hd3 : dataSources s3 !! ds = Some d) by now rewrite N1.
  rewrite (bind_run _ _ _ _ _ (DataSource_operators_run _ _ _ Hd3)) in H2.
  destruct (proj1 (M_bind_Some _ _ _ _) H2) as (b & s4 & Hscan & _).
  destruct (scanCanceled_stops _ _ _ _ _ Hscan) as [Hin | (x & o & Hin & Ho & Hs)].
  - contradiction.
  - rewrite N2 in Ho. rewrite Forall_forall in Hclean.
    exact (Hclean x Hin o Ho Hs).
Qed.

Lemma executePipelineBranch_foreign_start_witness :
  executePipelineBranch 0 (Some 1) ex_child_branch = None.
Proof.
  apply (executePipelineBranch_foreign_start ex_child_branch 0
           (mkDataSource "root" (Some ThisPipeline) (Some 0) [0]) 1);
    [reflexivity | reflexivity | discriminate | | ].
  - intros Hin. apply list_elem_of_singleton in Hin. discriminate.
  - constructor; [| constructor]. intros o [= <-]. discriminate.
Defined.

(** ** What a branch run covers *)

(** A scan that ends without a canceled step has met [start]: the steps
    before its first occurrence were visited, and none is canceled. *)
Lemma scanCanceled_false_split ops start s s' :
  scanCanceled ops start s = Some (false, s') ->
  exists pre rest,
    ops = pre ++ start :: rest /\ (start ∉ pre) /\
    Forall (fun x => exists ox, operators s !! x = Some ox /\
                                op_state ox <> OpCanceled) pre.
Proof.
  induction ops as [| x l IH]; cbn [scanCanceled]; [discriminate |].
  destruct (Nat.eqb x start) eqn:E.
  { intros _. apply Nat.eqb_eq in E. subst x. exists [], l.
    split; [reflexivity |]. split; [apply not_elem_of_nil | constructor]. }
  destruct (operators s !! x) as [o|] eqn:Ho.
  2:{ unfold Operator_isCanceled, getOperator, mbind, M_bind, gets.
      now rewrite Ho. }
  rewrite (bind_run _ _ _ _ _ (Operator_isCanceled_run _ _ _ Ho)).
  destruct (op_state o) eqn:Es.
  1,2: intros H; destruct (IH H) as (pre & rest & -> & Hpre & Hclean);
    exists (x :: pre), rest; split; [reflexivity |]; split;
    [ apply not_elem_of_cons; split; [| exact Hpre];
      apply Nat.eqb_neq in E; congruence
    | constructor; [| exact Hclean];
      exists o; split; [exact Ho | rewrite Es; discriminate] ].
  intros H. destruct (proj1 (M_bind_Some _ _ _ _) H) as (u & s2 & _ & H2).
  discriminate H2.
Qed.

(** A scan that ends with a canceled step: it is the first canceled
    step of the list, and [start] does not occur before it. *)
Lemma scanCanceled_true_split ops start s s' :
  scanCanceled ops start s = Some (true, s') ->
  exists before c after oc,
    ops = before ++ c :: after /\ (start ∉ before) /\ c <> start /\
    Forall (fun x => exists ox, operators s !! x = Some ox /\
                                op_state ox <> OpCanceled) before /\
    operators s !! c = Some oc /\ op_state oc = OpCanceled.
Proof.
  induction ops as [| x l IH]; cbn [scanCanceled]; [discriminate |].
  destruct (Nat.eqb x start) eqn:E; [discriminate |].
  apply Nat.eqb_neq in E.
  destruct (operators s !! x) as [o|] eqn:Ho.
  2:{ unfold Operator_isCanceled, getOperator, mbind, M_bind, gets.
      now rewrite Ho. }
  rewrite (bind_run _ _ _ _ _ (Operator_isCanceled_run _ _ _ Ho)).
  destruct (op_state o) eqn:Es.
  1,2: intros H;
    destruct (IH H) as (before & c & after & oc & -> & Hb & Hc & Hclean & Hoc);
    exists (x :: before), c, after, oc; split; [reflexivity |]; split;
    [ apply not_elem_of_cons; split; [congruence | exact Hb]
    | split; [exact Hc |]; split; [| exact Hoc];
      constructor; [| exact Hclean];
      exists o; split; [exact Ho | rewrite Es; discriminate] ].
  intros _. exists [], x, l, o.
  split; [reflexivity |]. split; [apply not_elem_of_nil |].
  split; [exact E |]. split; [constructor |]. now split.
Qed.

(** Whenever [executePipelineBranch] dispatches a run, the steps it
    hands to the worker are a non-empty suffix of the steps of the data
    source, so that the last step of the run is the last step of the
    data source.  Without [start] it is the whole list.  With [start],
    it is the whole list when a canceled step comes before the first
    occurrence of [start] (the scan stops at the first such step [c]),
    and otherwise, no step before [start] being canceled, the steps
    from the first occurrence of [start] on.  The new handle
    becomes [m_future].  When it dispatches nothing the pipeline is
    unchanged, and it was paused or the data source has no step. *)
Theorem executePipelineBranch_runs_suffix (st : Pipeline) (ds : DsId)
  (start : option OpId) (st' : Pipeline) :
  executePipelineBranch ds start st = Some (tt, st') ->
  (st' = st /\
   (m_paused st = true \/
    exists d, dataSources st !! ds = Some d /\ ds_operators d = [])) \/
  exists d pre steps data,
    m_paused st = false /\
    dataSources st !! ds = Some d /\
    ds_operators d = pre ++ steps /\
    steps <> [] /\
    last steps = last (ds_operators d) /\
    m_future st' = Some (length (futures st)) /\
    futures st' !! (length (futures st))
      = Some (mkFuture data steps FutRunning steps) /\
    let clean := fun x =>
      exists ox, operators st !! x = Some ox /\ op_state ox <> OpCanceled in
    match start with
    | None => pre = []
    | Some s0 =>
        (pre = [] /\
         exists before c after oc,
           ds_operators d = before ++ c :: after /\
           (s0 ∉ before) /\ c <> s0 /\ Forall clean before /\
           operators st !! c = Some oc /\ op_state oc = OpCanceled) \/
        ((s0 ∉ pre) /\ Forall clean pre /\ exists rest, steps = s0 :: rest)
    end.
Proof.
  unfold executePipelineBranch. rewrite gets_bind.
  destruct (m_paused st) eqn:Hp; [intros [= <-]; left; split; auto |].
  destruct (dataSources st !! ds) as [d|] eqn:Hd.
  2:{ unfold DataSource_operators, getDataSource, mbind, M_bind, gets.
      now rewrite Hd. }
  rewrite (bind_run _ _ _ _ _ (DataSource_operators_run _ _ _ Hd)).
  destruct (bool_decide (ds_operators d = [])) eqn:Hempty.
  { apply bool_decide_eq_true in Hempty. intros [= <-]. left. split; eauto. }
  apply bool_decide_eq_false in Hempty.
  intros H. right. rewrite gets_bind in H.
  destruct (proj1 (M_bind_Some _ _ _ _) H) as (u & s1 & Hc & H2). clear H.
  apply cancel_block_inv in Hc. subst s1.
  destruct (canceled_state_frame st) as (_ & _ & _ & _ & E5 & E6 & E7 & _).
  destruct (proj1 (M_bind_Some _ _ _ _) H2) as (plan & s2 & Hplan & H3). clear H2.
  destruct (proj1 (M_bind_Some _ _ _ _) H3) as (data & s3 & Hdata & H4). clear H3.
  (* the handles are left alone up to the dispatch *)
  assert (Hsame : prepares (canceled_state st) s3).
  { transitivity s2.
    - match type of Hplan with ?m _ = _ => assert (Hf : frames prepares m) end;
        [| exact (Hf _ _ _ Hplan)].
      destruct start as [s0|]; frame;
        first [ apply findTransformedDataSource_frames; exact _
              | apply scanCanceled_prepares
              | apply Operator_resetState_prepares
              | prepares_silent ].
    - match type of Hdata with ?m _ = _ => assert (Hf : frames prepares m) end;
        [| exact (Hf _ _ _ Hdata)].
      destruct plan.1; frame. prepares_silent. }
  destruct Hsame as [(_ & S2 & _) _].
  assert (Hn : length (futures s3) = length (futures st)) by now rewrite S2.
  (* the steps of the plan *)
  assert (Hsteps :
    let clean := fun x =>
      exists ox, operators st !! x = Some ox /\ op_state ox <> OpCanceled in
    match start with
    | None => plan.2 = ds_operators d
    | Some s0 =>
        (plan.2 = ds_operators d /\
         exists before c after oc,
           ds_operators d = before ++ c :: after /\
           (s0 ∉ before) /\ c <> s0 /\ Forall clean before /\
           operators st !! c = Some oc /\ op_state oc = OpCanceled) \/
        exists pre rest, ds_operators d = pre ++ s0 :: rest /\ (s0 ∉ pre) /\
                         Forall clean pre /\ plan.2 = s0 :: rest
    end).
  { cbv zeta. destruct start as [s0|]; [| now injection Hplan as <- _].
    rewrite <- bind_assoc in Hplan.
    destruct (proj1 (M_bind_Some _ _ _ _) Hplan) as (dat & s4 & Hpre & H5).
    clear Hplan.
    destruct (before_scan_same_nodes ds _ _ _ Hpre) as [N1 N2].
    rewrite E5 in N1. rewrite E6 in N2.
    assert (Hd4 : dataSources s4 !! ds = Some d) by now rewrite N1.
    rewrite (bind_run _ _ _ _ _ (DataSource_operators_run _ _ _ Hd4)) in H5.
    destruct (proj1 (M_bind_Some _ _ _ _) H5) as (b & s5 & Hscan & H6). clear H5.
    destruct b; cbn [negb] in H6.
    - left. split; [now injection H6 as <- _ |].
      destruct (scanCanceled_true_split _ _ _ _ Hscan)
        as (before & c & after & oc & Hops & Hb & Hc & Hclean & Hoc & Hst).
      rewrite N2 in Hclean, Hoc. exists before, c, after, oc.
      now repeat split.
    - right. destruct (scanCanceled_false_split _ _ _ _ Hscan)
        as (pre & rest & Hops & Hpre0 & Hclean).
      rewrite N2 in Hclean.
      exists pre, rest. split; [exact Hops |]. split; [exact Hpre0 |].
      split; [exact Hclean |].
      destruct (proj1 (M_bind_Some _ _ _ _) H6) as (u1 & s6 & _ & H7).
      injection H7 as <- _. cbn [snd].
      rewrite Hops, (indexOf_first _ _ _ Hpre0).
      rewrite mid_suffix by (rewrite length_app; lia).
      now rewrite drop_app_length. }
  cbv zeta in Hsteps.
  (* the dispatch *)
  unfold Worker_run, connect, emit, modify, gets, mbind, M_bind, mret, M_ret in H4.
  injection H4 as <-. pnorm0. rewrite Hn.
  assert (Hfut : (futures s3 ++ [mkFuture data plan.2 FutRunning plan.2])
                   !! (length (futures st))
                 = Some (mkFuture data plan.2 FutRunning plan.2))
    by (rewrite <- Hn; apply snoc_lookup).
  destruct start as [s0|];
    [destruct Hsteps as [[Hall Hcanceled]
                        | (pre & rest & Hops & Hpre0 & Hclean & Hrest)] |].
  - exists d, [], plan.2, data. rewrite Hall.
    split; [reflexivity |].
    repeat (split; [first [reflexivity | assumption] |]).
    split; [now rewrite <- Hall |]. left. now split.
  - exists d, pre, plan.2, data. rewrite Hrest.
    split; [reflexivity |].
    split; [reflexivity |]. split; [exact Hops |]. split; [discriminate |].
    split.
    { rewrite Hops, last_app.
      destruct (last (s0 :: rest)) eqn:El; [reflexivity |].
      now apply last_None_nil in El. }
    split; [reflexivity |]. split; [now rewrite <- Hrest |].
    right. split; [exact Hpre0 |]. split; [exact Hclean |]. eauto.
  - exists d, [], plan.2, data. rewrite Hsteps.
    split; [reflexivity |].
    repeat (split; [first [reflexivity | assumption] |]).
    split; [now rewrite <- Hsteps | reflexivity].
Qed.

Lemma executePipelineBranch_runs_suffix_witness :
  exists st' data steps,
    executePipelineBranch 0 (Some 1) ex_two_steps = Some (tt, st') /\
    futures st' !! 0 = Some (mkFuture data steps FutRunning steps) /\
    last steps = Some 1.
Proof.
  assert (H : exists st',
    executePipelineBranch 0 (Some 1) ex_two_steps = Some (tt, st'))
    by (eexists; vm_compute; reflexivity).
  destruct H as [st' H]. exists st'.
  destruct (executePipelineBranch_runs_suffix ex_two_steps 0 (Some 1) st' H)
    as [[_ [Hp | (d & Hd & He)]]
       | (d & pre & steps & data & _ & Hd & _ & _ & Hl & _ & Hf & _)].
  - discriminate Hp.
  - injection Hd as <-. discriminate He.
  - injection Hd as <-. exists data, steps. now repeat split.
Defined.

(** ** A paused pipeline *)

Lemma dispatches_nothing_refl s : dispatches_nothing s s.
Proof. split; [reflexivity |]. exists []. now rewrite app_nil_r. Qed.

Lemma dispatches_nothing_trans s1 s2 s3 :
  dispatches_nothing s1 s2 -> dispatches_nothing s2 s3 ->
  dispatches_nothing s1 s3.
Proof.
  intros [L1 (n1 & T1 & F1)] [L2 (n2 & T2 & F2)]. split; [congruence |].
  exists (n1 ++ n2). split; [now rewrite T2, T1, app_assoc |].
  now apply Forall_app.
Qed.

#[global] Instance silent_preorder : PreOrder silent.
Proof.
  split.
  - intros s. split; [reflexivity | apply dispatches_nothing_refl].
  - intros s1 s2 s3 [P1 D1] [P2 D2]. split; [congruence |].
    exact (dispatches_nothing_trans _ _ _ D1 D2).
Qed.

#[global] Instance stays_paused_preorder : PreOrder stays_paused.
Proof.
  split.
  - intros s Hp. split; [exact Hp | apply dispatches_nothing_refl].
  - intros s1 s2 s3 H12 H23 Hp. destruct (H12 Hp) as [Hp2 D1].
    destruct (H23 Hp2) as [Hp3 D2]. split; [exact Hp3 |].
    exact (dispatches_nothing_trans _ _ _ D1 D2).
Qed.

Lemma frames_silent_stays_paused {A} (m : M A) :
  frames silent m -> frames stays_paused m.
Proof.
  intros H s a s' Hm Hp. destruct (H _ _ _ Hm) as [P D].
  split; [congruence | exact D].
Qed.

(** A state update that dispatches nothing: it leaves the trace alone or
    adds one event that is not a [run] call. *)
Ltac silent_update :=
  split; [reflexivity |]; split;
  [ pnorm0; rewrite ?length_insert; reflexivity
  | first [ exists []; split; [now rewrite app_nil_r | constructor]
          | eexists [_]; split; [reflexivity | now repeat constructor] ] ].

(** Frame goals of the functions that do not reach the worker. *)
Ltac frame_s :=
  repeat first
    [ frame_core
    | match goal with
      | |- frames _ (modify _) => apply frames_modify; intros ?; silent_update
      end
    | progress unfold emit, connect, singleShot, newObject,
        updDataSource, updOperator, updFuture,
        DataSource_operators, DataSource_copyData, DataSource_setData,
        DataSource_dataModified, DataSource_setParent, DataSource_new,
        DataSource_removeAllOperators, DataSource_deleteLater,
        Operator_dataSource, Operator_hasChildDataSource,
        Operator_childDataSource, Operator_setChildDataSource,
        Operator_isCanceled, Operator_resetState,
        Future_isRunning, Future_cancel, Future_cancelOp, Future_result,
        Future_operators, Future_deleteLater, Future_setTerminated,
        vtk_Delete, addDataSource ].

Create HintDb paused.

Ltac frame_p :=
  repeat first
    [ solve [eauto with paused]
    | frame_core
    | apply frames_silent_stays_paused; solve [frame_s] ].

(** The guard of [executePipelineBranch]. *)
Lemma executePipelineBranch_stays_paused ds start :
  frames stays_paused (executePipelineBranch ds start).
Proof.
  intros s a s' H Hp.
  rewrite (executePipelineBranch_idle s ds start (or_introl Hp)) in H.
  injection H as _ <-. split; [exact Hp | apply dispatches_nothing_refl].
Qed.

#[global] Hint Resolve executePipelineBranch_stays_paused : paused.

Lemma execute_stays_paused : frames stays_paused execute.
Proof. unfold execute. frame_p. Qed.

Lemma execute_from_stays_paused ds : frames stays_paused (execute_from ds).
Proof. unfold execute_from. frame_p. Qed.

Lemma execute_last_stays_paused ds last :
  frames stays_paused (execute_last ds last).
Proof. unfold execute_last. frame_p. Qed.

#[global] Hint Resolve execute_stays_paused execute_from_stays_paused
  execute_last_stays_paused : paused.

Lemma pause_stays_paused : frames stays_paused pause.
Proof.
  unfold pause. apply frames_modify. intros s _.
  split; [reflexivity |]. split; [reflexivity |].
  exists []. split; [now rewrite app_nil_r | constructor].
Qed.

Lemma cancel_stays_paused k : frames stays_paused (cancel k).
Proof. unfold cancel. frame_p. Qed.

Lemma isRunning_stays_paused : frames stays_paused isRunning.
Proof. unfold isRunning. frame_p. Qed.

Lemma findTransformedDataSourceOperator_stays_paused ds :
  frames stays_paused (findTransformedDataSourceOperator ds).
Proof.
  unfold findTransformedDataSourceOperator.
  apply frames_bind; [exact _ | | intros ops].
  - apply frames_silent_stays_paused. frame_s.
  - apply findTransformedIn_frames; exact _.
Qed.

#[global] Hint Resolve findTransformedDataSourceOperator_stays_paused : paused.

Lemma pipelineBranchFinished_stays_paused f result :
  frames stays_paused (pipelineBranchFinished f result).
Proof. unfold pipelineBranchFinished. frame_p. Qed.

Lemma pipelineBranchCanceled_stays_paused f :
  frames stays_paused (pipelineBranchCanceled f).
Proof. unfold pipelineBranchCanceled. frame_p. Qed.

Lemma operatorAdded_execute_stays_paused op :
  frames stays_paused (operatorAdded_execute op).
Proof. unfold operatorAdded_execute. frame_p. Qed.

Lemma operatorAdded_relocate_stays_paused op :
  frames stays_paused (operatorAdded_relocate op).
Proof. unfold operatorAdded_relocate. frame_p. Qed.

Lemma operatorRemoved_stays_paused op : frames stays_paused (operatorRemoved op).
Proof. unfold operatorRemoved. frame_p. Qed.

#[global] Hint Resolve pause_stays_paused cancel_stays_paused
  isRunning_stays_paused pipelineBranchFinished_stays_paused
  pipelineBranchCanceled_stays_paused operatorAdded_execute_stays_paused
  operatorAdded_relocate_stays_paused operatorRemoved_stays_paused : paused.

Lemma run_slot_stays_paused snd arg slot :
  frames stays_paused (run_slot snd arg slot).
Proof.
  destruct slot, snd, arg; cbn [run_slot];
    first [apply frames_undefined | solve [frame_p]].
Qed.

Lemma deliver_stays_paused snd sig arg :
  frames stays_paused (deliver snd sig arg).
Proof.
  unfold deliver. apply frames_bind; [exact _ | apply frames_gets; exact _ |].
  intros conns. induction (slots_of conns snd sig) as [| slot rest IH];
    cbn [run_slots].
  - apply frames_ret; exact _.
  - apply frames_bind; [exact _ | apply run_slot_stays_paused | intros _; exact IH].
Qed.

#[global] Hint Resolve deliver_stays_paused : paused.

(** While the pipeline is paused, nothing it reacts to makes it call the
    worker: the entry points [execute()], [execute(start)],
    [execute(start, last)], [cancel] and [isRunning], the handlers of
    "step added", "step removed" and "transform modified", and the
    completion handlers of a handle (which would go on with the child
    branch) all leave the pipeline paused, add no handle and make no
    [run] call.  Only [resume] ends the pause; the preview
    ([getCopyOfImagePriorTo]) does not look at the flag. *)
Theorem paused_pipeline_dispatches_nothing (s s' : Pipeline) :
  m_paused s = true ->
  reaction s s' ->
  m_paused s' = true /\
  length (futures s') = length (futures s) /\
  exists new, trace s' = trace s ++ new /\
              Forall (fun e => is_run e = false) new.
Proof.
  assert (Hk : forall {A} (m : M A) s s',
    frames stays_paused m -> exec m s = Some s' -> stays_paused s s').
  { intros A m s1 s2 Hf He. unfold exec in He.
    destruct (m s1) as [[a s3]|] eqn:Hm; [| discriminate].
    injection He as ->. exact (Hf _ _ _ Hm). }
  intros Hp Hr.
  assert (H : stays_paused s s'); [| exact (H Hp)].
  destruct Hr as [H | ds last H | ds H | H | k H | H | snd sig arg H
                 | ds op H | ds op H | f result H | f H];
    refine (Hk _ _ _ _ _ H).
  - apply execute_stays_paused.
  - apply execute_last_stays_paused.
  - apply execute_from_stays_paused.
  - apply pause_stays_paused.
  - apply cancel_stays_paused.
  - apply isRunning_stays_paused.
  - apply deliver_stays_paused.
  - unfold DataSource_addOperator. frame_p.
  - unfold DataSource_removeOperator. frame_p.
  - unfold Future_finished. frame_p.
  - unfold Future_canceled. frame_p.
Qed.

Lemma paused_pipeline_dispatches_nothing_witness :
  exists s',
    exec (DataSource_removeOperator 0 1) ex_paused = Some s' /\
    m_paused s' = true /\ length (futures s') = 0.
Proof.
  assert (H : exists s', exec (DataSource_removeOperator 0 1) ex_paused = Some s')
    by (eexists; vm_compute; reflexivity).
  destruct H as [s' H]. exists s'. split; [exact H |].
  destruct (paused_pipeline_dispatches_nothing ex_paused s' eq_refl
              (on_removed _ _ 0 1 H)) as (Hp & Hl & _).
  split; [exact Hp | exact Hl].
Defined.

(** ** A preview next to the branch runs *)

(** The run a preview dispatches is out of the reach of the pipeline's
    controls.  For a step [op] of the root with steps [pre] before it,
    [getCopyOfImagePriorTo] dispatches the run over [pre] whether or
    not the pipeline is paused, next to the handle [m_future] points
    to, which it neither cancels nor replaces: all handles there were
    are as they were.  Afterwards [isRunning()] answers as before the
    preview, and [cancel(...)] leaves the preview's handle running. *)
Theorem preview_run_out_of_reach (st : Pipeline) (op : OpId) (d : DataSource)
  (o : ObjId) (p : Payload) (pre post : list OpId) (k : option nat) :
  dataSources st !! m_data st = Some d ->
  ds_data d = Some o ->
  objects st !! o = Some (Some p) ->
  ds_operators d = pre ++ op :: post ->
  op ∉ pre ->
  pre <> [] ->
  (forall g, m_future st = Some g -> is_Some (futures st !! g)) ->
  let f := length (futures st) in
  let preview := mkFuture (length (objects st)) pre FutRunning pre in
  exists img st',
    getCopyOfImagePriorTo op st = Some (img, st') /\
    futures st' = futures st ++ [preview] /\
    trace st' = trace st ++ [CallRun f (length (objects st)) pre] /\
    m_paused st' = m_paused st /\
    m_future st' = m_future st /\
    m_future st' <> Some f /\
    fst <$> isRunning st' = fst <$> isRunning st /\
    exists st'',
      cancel k st' = Some (tt, st'') /\
      futures st'' !! f = Some preview.
Proof.
  intros Hd Hdata Ho Hops Hpre Hne Hv f preview.
  pose proof (getCopyOfImagePriorTo_run st op d o p Hd Hdata Ho) as Hrun.
  cbv zeta in Hrun. rewrite Hops, (indexOf_first _ _ _ Hpre) in Hrun.
  assert (E : (1 <? length (pre ++ op :: post))
              && (0 <? Z.of_nat (length pre))%Z = true).
  { destruct pre as [| a pre']; [contradiction |].
    apply andb_true_iff. split.
    - apply Nat.ltb_lt. rewrite length_app. simpl. lia.
    - apply Z.ltb_lt. simpl length. lia. }
  rewrite E in Hrun.
  rewrite mid_prefix in Hrun by (rewrite length_app; lia).
  rewrite take_app_length in Hrun. fold f preview in Hrun.
  eexists _, _. split; [exact Hrun |]. pnorm0.
  split; [reflexivity |]. split; [reflexivity |]. split; [reflexivity |].
  split; [reflexivity |].
  assert (Hnf : m_future st <> Some f).
  { intros Hf. destruct (Hv f Hf) as [x Hx]. apply lookup_lt_Some in Hx.
    unfold f in Hx. lia. }
  split; [exact Hnf |]. split.
  - unfold isRunning. rewrite !gets_bind. pnorm0.
    destruct (m_future st) as [g|] eqn:Hg; [| reflexivity].
    destruct (Hv g eq_refl) as [x Hx].
    erewrite Future_isRunning_run
      by (pnorm0; apply lookup_app_l_Some; exact Hx).
    now rewrite (Future_isRunning_run _ _ _ Hx).
  - unfold cancel. rewrite gets_bind. pnorm0.
    destruct (m_future st) as [g|] eqn:Hg.
    2:{ eexists. split; [reflexivity |]. pnorm0. apply snoc_lookup. }
    destruct (Hv g eq_refl) as [x Hx].
    assert (Hgf : g <> f) by congruence.
    destruct k as [c|].
    + rewrite (bind_run _ _ _ _ _ (connect_run _ _ _ _)).
      erewrite Future_cancel_run
        by (pnorm0; apply lookup_app_l_Some; exact Hx).
      eexists. split; [reflexivity |]. pnorm0.
      rewrite list_lookup_insert_ne by exact Hgf. apply snoc_lookup.
    + rewrite ret_bind.
      erewrite Future_cancel_run
        by (pnorm0; apply lookup_app_l_Some; exact Hx).
      eexists. split; [reflexivity |]. pnorm0.
      rewrite list_lookup_insert_ne by exact Hgf. apply snoc_lookup.
Qed.

Lemma preview_run_out_of_reach_witness :
  exists img st' st'',
    getCopyOfImagePriorTo 1 (set_paused true ex_running) = Some (img, st') /\
    cancel None st' = Some (tt, st'') /\
    futures st'' !! 1 = Some (mkFuture 2 [0] FutRunning [0]).
Proof.
  destruct (preview_run_out_of_reach (set_paused true ex_running) 1
              (mkDataSource "root" (Some ThisPipeline) (Some 0) [0; 1]) 0
              [1; 2]%Z [0] [] None eq_refl eq_refl eq_refl eq_refl)
    as (img & st' & H & _ & _ & _ & _ & _ & _ & st'' & Hc & Hf).
  - intros Hin. apply list_elem_of_singleton in Hin. discriminate.
  - discriminate.
  - intros g [= <-]. vm_compute. eauto.
  - exists img, st', st''. repeat split; assumption.
Defined.

(** ** A run from dispatch to its terminal event *)

Lemma canceled_state_idle st : m_future st = None -> canceled_state st = st.
Proof. intros H. unfold canceled_state. now rewrite H. Qed.

(** The slots of a handle that [executePipelineBranch] has just
    connected. *)
Lemma slots_of_new_handle conns n sig :
  (forall g, slots_of conns (SndFuture n) g = []) ->
  slots_of (conns ++ branch_connections n) (SndFuture n) sig
  = match sig with
    | SigFinished => [SlotBranchFinished]
    | SigCanceled => [SlotBranchCanceled]
    | _ => []
    end.
Proof.
  intros H. rewrite slots_of_app, H. unfold branch_connections. simpl.
  rewrite Nat.eqb_refl. now destruct sig.
Qed.

(** The success path of [pipelineBranchFinished] for a last step that
    has no child yet and declares none. *)
Lemma pipelineBranchFinished_first_output st f x lastOp o :
  futures st !! f = Some x ->
  last (fut_operators x) = Some lastOp ->
  operators st !! lastOp = Some o ->
  op_hasChildDataSource o = false ->
  op_childDataSource o = None ->
  let n := length (dataSources st) in
  let r := fut_result x in
  pipelineBranchFinished f true st
  = Some (tt,
      set_future (if bool_decide (m_future st = Some f) then None
                  else m_future st)
        (set_trace
           (trace st ++ [CallSetData n r; CallDataModified n;
                         EvNewChildDataSource lastOp n;
                         EvStarted; CallDeleteLaterFuture f])
           (set_connections
              (connections st ++
                 [(SndDataSource n, SigOperatorAdded, SlotAddedExecute);
                  (SndDataSource n, SigOperatorAdded, SlotAddedRelocate);
                  (SndDataSource n, SigOperatorRemoved, SlotRemoved)])
              (set_operators
                 (<[lastOp := withChild (Some n) o]> (operators st))
                 (set_dataSources
                    (dataSources st ++
                       [mkDataSource "Output" (Some ThisPipeline) (Some r) []])
                    st))))).
Proof.
  intros Hf Hl Ho He Hc n r.
  assert (Hlt : lastOp < length (operators st)) by now apply lookup_lt_Some in Ho.
  unfold pipelineBranchFinished.
  rewrite (bind_run _ _ _ _ _ (Future_operators_run _ _ _ Hf)).
  rewrite (bind_run _ _ _ _ _ (QList_last_run _ _ _ Hl)).
  rewrite (bind_run _ _ _ _ _ (Operator_hasChildDataSource_run _ _ _ Ho)).
  rewrite He. cbn [negb when].
  erewrite bind_run; cycle 1.
  { mstep (Operator_childDataSource_run _ _ _ Ho).
    rewrite Hc.
    erewrite (bind_run (DataSource_new "Output" ≫= _)); cycle 1.
    { mstep (DataSource_new_run st "Output").
      erewrite bind_run by (eapply DataSource_setParent_run; apply snoc_lookup).
      pnorm. rewrite snoc_insert.
      rewrite (bind_run _ _ _ _ _ (addDataSource_run _ _)). pnorm.
      erewrite bind_run by (eapply Operator_setChildDataSource_run; exact Ho).
      pnorm. reflexivity. }
    erewrite bind_run
      by (eapply Operator_childDataSource_run; now apply list_lookup_insert_eq).
    pnorm. rewrite ret_bind.
    erewrite bind_run by (eapply Future_result_run; exact Hf).
    erewrite bind_run by (eapply DataSource_setData_run; apply snoc_lookup).
    pnorm. rewrite snoc_insert.
    erewrite bind_run by (eapply DataSource_dataModified_run; apply snoc_lookup).
    pnorm. rewrite emit_run. pnorm. rewrite <- !app_assoc. simpl app.
    reflexivity. }
  erewrite bind_run
    by (eapply Operator_childDataSource_run; now apply list_lookup_insert_eq).
  pnorm. erewrite bind_run; cycle 1.
  { apply execute_from_idle. right. pnorm. now rewrite snoc_lookup. }
  pnorm. erewrite bind_run by (eapply Future_deleteLater_run; exact Hf).
  pnorm. rewrite gets_bind. pnorm.
  destruct (bool_decide (m_future st = Some f)); cbn [when];
    unfold modify, mret, M_ret; pnorm; now rewrite <- !app_assoc.
Qed.

(** A run that succeeds, from [execute()] to the [finished(true)] event
    of its handle, on a pipeline that runs nothing and whose last root
    step has no child yet: [execute()] dispatches the root's steps and
    [isRunning()] turns true; at the terminal event a data source
    "Output" is created under the pipeline as the child of the last
    step and receives the data object the run worked on, the handle is
    released, [m_future] is null again and [isRunning()] is false.  The
    pipeline announces [started()] twice, for the root and for the
    (empty) branch of the new child, and never [finished()]. *)
Theorem run_to_completion (st : Pipeline) (d : DataSource) (o : ObjId)
  (p : Payload) (l : OpId) (ol : Operator) :
  m_paused st = false ->
  m_future st = None ->
  dataSources st !! m_data st = Some d ->
  ds_data d = Some o ->
  objects st !! o = Some (Some p) ->
  last (ds_operators d) = Some l ->
  operators st !! l = Some ol ->
  op_hasChildDataSource ol = false ->
  op_childDataSource ol = None ->
  (forall sig, slots_of (connections st) (SndFuture (length (futures st))) sig = []) ->
  let n := length (futures st) in
  let r := length (objects st) in
  let c := length (dataSources st) in
  exists st1 st2,
    execute st = Some (tt, st1) /\
    isRunning st1 = Some (true, st1) /\
    Future_finished n true st1 = Some (tt, st2) /\
    isRunning st2 = Some (false, st2) /\
    m_future st2 = None /\
    dataSources st2
      = dataSources st ++ [mkDataSource "Output" (Some ThisPipeline) (Some r) []] /\
    operators st2 = <[l := withChild (Some c) ol]> (operators st) /\
    objects st2 = objects st ++ [Some p] /\
    trace st2
      = trace st ++ [EvStarted; CallRun n r (ds_operators d);
                     CallSetData c r; CallDataModified c;
                     EvNewChildDataSource l c; EvStarted;
                     CallDeleteLaterFuture n].
Proof.
  intros Hp Hm Hd Hdata Ho Hl Hol He Hc Hnone n r c. subst n r c.
  assert (Hne : ds_operators d <> []) by (intros E; now rewrite E in Hl).
  (* the dispatch *)
  pose (s0 := set_trace (trace st ++ [EvStarted]) st).
  assert (Hm0 : m_future s0 = None) by exact Hm.
  assert (H1 : execute st
    = executePipelineBranch (m_data st) None s0) by reflexivity.
  rewrite (executePipelineBranch_scratch_run s0 (m_data st) d o p) in H1;
    [| exact Hp | intros f Hf; unfold s0 in Hf; pnorm0 in Hf; congruence
     | exact Hd | exact Hne | exact Hdata | exact Ho].
  rewrite (canceled_state_idle _ Hm0) in H1. unfold s0 in H1.
  pnorm0 in H1.
  eexists _, _. split; [exact H1 |]. clear H1 s0 Hm0.
  split.
  { unfold isRunning. rewrite gets_bind. pnorm0.
    erewrite Future_isRunning_run by (pnorm0; apply snoc_lookup). reflexivity. }
  (* the terminal event *)
  unfold Future_finished, Future_setTerminated.
  erewrite bind_run by (eapply updFuture_run; pnorm0; apply snoc_lookup).
  pnorm0. rewrite snoc_insert.
  unfold deliver. rewrite gets_bind. pnorm0.
  rewrite (slots_of_new_handle _ _ SigFinished Hnone).
  cbn [run_slots run_slot].
  erewrite bind_run; cycle 1.
  { eapply (pipelineBranchFinished_first_output _ _ _ l ol).
    - pnorm0. apply snoc_lookup.
    - exact Hl.
    - exact Hol.
    - exact He.
    - exact Hc. }
  pnorm0. rewrite bool_decide_eq_true_2 by reflexivity.
  split; [reflexivity |]. pnorm.
  repeat (split; [reflexivity |]).
  now rewrite <- !app_assoc.
Qed.

Lemma run_to_completion_witness :
  exists st1 st2,
    execute ex_two_steps = Some (tt, st1) /\
    Future_finished 0 true st1 = Some (tt, st2) /\
    trace st2 = [EvStarted; CallRun 0 1 [0; 1]; CallSetData 1 1;
                 CallDataModified 1; EvNewChildDataSource 1 1; EvStarted;
                 CallDeleteLaterFuture 0].
Proof.
  destruct (run_to_completion ex_two_steps
              (mkDataSource "root" (Some ThisPipeline) (Some 0) [0; 1]) 0
              [1; 2]%Z 1 (mkOperator 0 OpPending false None)
              eq_refl eq_refl eq_refl eq_refl eq_refl eq_refl eq_refl eq_refl
              eq_refl)
    as (st1 & st2 & H1 & _ & H2 & _ & _ & _ & _ & _ & Ht).
  - intros [| | | |]; reflexivity.
  - exists st1, st2. repeat split; assumption.
Defined.

(** A run that is canceled, from [execute()] over [cancel(callback)] to
    the [canceled] event of its handle, on a pipeline that runs
    nothing.  [cancel] connects the callback to the handle (after the
    pipeline's own slot) and asks the handle to stop; at the [canceled]
    event the pipeline deletes the data object of the run and releases
    the handle, and only then the callback runs.  Afterwards the data
    sources and the operators are what they were before [execute()],
    [m_future] is null and [isRunning()] is false.  On a pipeline
    without a handle, [cancel] does nothing and drops the callback. *)
Theorem run_then_cancel (st : Pipeline) (d : DataSource) (o : ObjId)
  (p : Payload) (k : option nat) :
  m_paused st = false ->
  m_future st = None ->
  dataSources st !! m_data st = Some d ->
  ds_data d = Some o ->
  objects st !! o = Some (Some p) ->
  ds_operators d <> [] ->
  (forall sig, slots_of (connections st) (SndFuture (length (futures st))) sig = []) ->
  let n := length (futures st) in
  let r := length (objects st) in
  cancel k st = Some (tt, st) /\
  exists st1 st2 st3,
    execute st = Some (tt, st1) /\
    cancel k st1 = Some (tt, st2) /\
    Future_canceled n st2 = Some (tt, st3) /\
    isRunning st3 = Some (false, st3) /\
    m_future st3 = None /\
    dataSources st3 = dataSources st /\
    operators st3 = operators st /\
    objects st3 = objects st ++ [None] /\
    trace st3
      = trace st ++ [EvStarted; CallRun n r (ds_operators d); CallCancel n;
                     CallDelete r; CallDeleteLaterFuture n]
          ++ match k with Some c => [EvCallback c] | None => [] end.
Proof.
  intros Hp Hm Hd Hdata Ho Hne Hnone n r. subst n r.
  split; [unfold cancel; now rewrite gets_bind, Hm |].
  (* the dispatch *)
  pose (s0 := set_trace (trace st ++ [EvStarted]) st).
  assert (Hm0 : m_future s0 = None) by exact Hm.
  assert (H1 : execute st
    = executePipelineBranch (m_data st) None s0) by reflexivity.
  rewrite (executePipelineBranch_scratch_run s0 (m_data st) d o p) in H1;
    [| exact Hp | intros f Hf; unfold s0 in Hf; pnorm0 in Hf; congruence
     | exact Hd | exact Hne | exact Hdata | exact Ho].
  rewrite (canceled_state_idle _ Hm0) in H1. unfold s0 in H1.
  pnorm0 in H1.
  clear Hm0.
  (* the request *)
  assert (Hslots : forall extra,
    slots_of ((connections st ++ branch_connections (length (futures st)))
                ++ extra) (SndFuture (length (futures st))) SigCanceled
    = SlotBranchCanceled
        :: slots_of extra (SndFuture (length (futures st))) SigCanceled).
  { intros extra.
    now rewrite slots_of_app, (slots_of_new_handle _ _ SigCanceled Hnone). }
  destruct k as [c|]; (eexists _, _, _; split; [exact H1 |]); clear H1 s0.
  - split.
    { unfold cancel. rewrite gets_bind. pnorm0.
      rewrite (bind_run _ _ _ _ _ (connect_run _ _ _ _)). pnorm0.
      erewrite Future_cancel_run by (pnorm0; apply snoc_lookup).
      pnorm. rewrite snoc_insert. reflexivity. }
    split.
    { unfold Future_canceled, Future_setTerminated.
      erewrite bind_run by (eapply updFuture_run; pnorm0; apply snoc_lookup).
      pnorm. rewrite snoc_insert.
      unfold deliver. rewrite gets_bind. pnorm0.
      rewrite Hslots. simpl slots_of. rewrite Nat.eqb_refl. simpl.
      cbn [run_slots run_slot].
      erewrite bind_run; cycle 1.
      { eapply pipelineBranchCanceled_run; pnorm0; apply snoc_lookup. }
      pnorm. rewrite bool_decide_eq_true_2 by reflexivity.
      rewrite (bind_run _ _ _ _ _ (emit_run _ _)). pnorm.
      rewrite snoc_insert. reflexivity. }
    pnorm. repeat (split; [reflexivity |]).
    now rewrite <- !app_assoc.
  - split.
    { unfold cancel. rewrite gets_bind. pnorm0. rewrite ret_bind.
      erewrite Future_cancel_run by (pnorm0; apply snoc_lookup).
      pnorm. rewrite snoc_insert. reflexivity. }
    split.
    { unfold Future_canceled, Future_setTerminated.
      erewrite bind_run by (eapply updFuture_run; pnorm0; apply snoc_lookup).
      pnorm. rewrite snoc_insert.
      unfold deliver. rewrite gets_bind. pnorm0.
      rewrite <- (app_nil_r (connections st ++ _)), Hslots. simpl slots_of.
      cbn [run_slots run_slot].
      erewrite bind_run; cycle 1.
      { eapply pipelineBranchCanceled_run; pnorm0; apply snoc_lookup. }
      pnorm. rewrite bool_decide_eq_true_2 by reflexivity.
      rewrite snoc_insert. reflexivity. }
    pnorm. repeat (split; [reflexivity |]).
    now rewrite <- !app_assoc.
Qed.

Lemma run_then_cancel_witness :
  exists st1 st2 st3,
    execute ex_two_steps = Some (tt, st1) /\
    cancel (Some 7) st1 = Some (tt, st2) /\
    Future_canceled 0 st2 = Some (tt, st3) /\
    trace st3 = [EvStarted; CallRun 0 1 [0; 1]; CallCancel 0; CallDelete 1;
                 CallDeleteLaterFuture 0; EvCallback 7].
Proof.
  destruct (run_then_cancel ex_two_steps
              (mkDataSource "root" (Some ThisPipeline) (Some 0) [0; 1]) 0
              [1; 2]%Z (Some 7) eq_refl eq_refl eq_refl eq_refl eq_refl)
    as (_ & st1 & st2 & st3 & H1 & H2 & H3 & _ & _ & _ & _ & _ & Ht).
  - discriminate.
  - intros [| | | |]; reflexivity.
  - exists st1, st2, st3. repeat split; assumption.
Defined.

(** ** The active-handle reference never dangles *)

#[global] Instance unreleasing_preorder : PreOrder unreleasing.
Proof.
  split.
  - intros s. split; [reflexivity |]. split; [| auto].
    exists []. split; [now rewrite app_nil_r | constructor].
  - intros s1 s2 s3 (L1 & (n1 & T1 & F1) & M1) (L2 & (n2 & T2 & F2) & M2).
    split; [lia |]. split; [| auto].
    exists (n1 ++ n2). split; [now rewrite T2, T1, app_assoc |].
    now apply Forall_app.
Qed.

#[global] Instance inert_preorder : PreOrder inert.
Proof.
  split.
  - intros s. split; reflexivity.
  - intros s1 s2 s3 [A1 U1] [A2 U2]. split; [congruence |].
    now transitivity s2.
Qed.

#[global] Instance keeps_live_preorder : PreOrder keeps_live.
Proof.
  split.
  - intros s H. exact H.
  - intros s1 s2 s3 H12 H23 H. apply H23, H12, H.
Qed.

Lemma unreleasing_released s s' f :
  unreleasing s s' -> released s' f -> released s f.
Proof.
  intros (_ & (new & T & F) & _) Hr. unfold released in *. rewrite T in Hr.
  apply elem_of_app in Hr as [Hr | Hr]; [exact Hr |].
  rewrite Forall_forall in F. now specialize (F _ Hr).
Qed.

Lemma inert_keeps_live s s' : inert s s' -> keeps_live s s'.
Proof.
  intros [Hm Hu] (H1 & H2 & H3).
  pose proof Hu as (L & _ & T).
  split; [| split].
  - intros f Hf. rewrite Hm in Hf. destruct (H1 f Hf) as [Hlt Hnr].
    split; [lia |]. intros Hr. apply Hnr. exact (unreleasing_released _ _ _ Hu Hr).
  - intros f Hr. pose proof (H2 f (unreleasing_released _ _ _ Hu Hr)). lia.
  - auto.
Qed.

Lemma frames_inert_keeps_live {A} (m : M A) :
  frames inert m -> frames keeps_live m.
Proof. intros H s a s' Hm. apply inert_keeps_live. eauto. Qed.

(** A state update that releases no handle. *)
Ltac unreleasing_update :=
  split; [pnorm0; rewrite ?length_insert, ?length_app; lia |];
  split;
  [ first [ exists []; split; [now rewrite app_nil_r | constructor]
          | eexists [_]; split; [reflexivity | now repeat constructor] ]
  | pnorm0;
    first [ exact (fun H => H)
          | intros ?; apply Forall_app; split;
            [assumption | now repeat constructor] ] ].

Ltac frame_u solver :=
  repeat first
    [ frame_core
    | match goal with
      | |- frames _ (modify _) => apply frames_modify; intros ?; solver
      end
    | progress unfold emit, connect, singleShot, newObject,
        updDataSource, updOperator, updFuture,
        DataSource_operators, DataSource_copyData, DataSource_setData,
        DataSource_dataModified, DataSource_setParent, DataSource_new,
        DataSource_removeAllOperators, DataSource_deleteLater,
        Operator_dataSource, Operator_hasChildDataSource,
        Operator_childDataSource, Operator_setChildDataSource,
        Operator_isCanceled, Operator_resetState,
        Worker_run, ImageFuture_new,
        Future_isRunning, Future_cancel, Future_cancelOp, Future_result,
        Future_operators, Future_setTerminated,
        vtk_Delete, addDataSource ].

Ltac inert_update := split; [reflexivity | unreleasing_update].

Lemma scanCanceled_unreleasing ops start :
  frames unreleasing (scanCanceled ops start).
Proof.
  induction ops as [| op rest IH]; cbn [scanCanceled];
    frame_u unreleasing_update. exact IH.
Qed.

Lemma scanCanceled_inert ops start : frames inert (scanCanceled ops start).
Proof.
  induction ops as [| op rest IH]; cbn [scanCanceled];
    frame_u inert_update. exact IH.
Qed.

(** [executePipelineBranch] releases nothing. *)
Lemma executePipelineBranch_unreleasing ds start :
  frames unreleasing (executePipelineBranch ds start).
Proof.
  unfold executePipelineBranch. frame_u unreleasing_update.
  - apply findTransformedDataSource_frames; exact _.
  - apply scanCanceled_unreleasing.
Qed.

(** The handle [executePipelineBranch] makes [m_future] is new. *)
Lemma executePipelineBranch_keeps_live ds start :
  frames keeps_live (executePipelineBranch ds start).
Proof.
  intros s [] s' Hrun Hlive.
  pose proof (executePipelineBranch_unreleasing _ _ _ _ _ Hrun) as Hu.
  destruct (executePipelineBranch_inv _ _ _ _ Hrun)
    as [-> | (s2 & data & ops & [(_ & S2 & _) _] & Hst')]; [exact Hlive |].
  cbv zeta in Hst'.
  destruct (canceled_state_frame s) as (_ & _ & _ & _ & _ & _ & E7 & _).
  assert (Hn : length (futures s2) = length (futures s)) by now rewrite S2.
  assert (Hm : m_future s' = Some (length (futures s)))
    by (subst s'; pnorm0; now rewrite Hn).
  assert (Hl : length (futures s') = S (length (futures s)))
    by (subst s'; pnorm0; rewrite length_app, Hn; simpl; lia).
  clear Hst'. destruct Hlive as (H1 & H2 & H3).
  pose proof Hu as (_ & _ & T).
  split; [| split].
  - intros f Hf. rewrite Hm in Hf. injection Hf as <-. split; [lia |].
    intros Hr. pose proof (H2 _ (unreleasing_released _ _ _ Hu Hr)). lia.
  - intros f Hr. pose proof (H2 _ (unreleasing_released _ _ _ Hu Hr)). lia.
  - auto.
Qed.

(** The release of a handle: [m_future] is reset when it is this
    handle. *)
Lemma release_keeps_live f : frames keeps_live (release f).
Proof.
  intros s a s' H (H1 & H2 & H3).
  destruct (futures s !! f) as [x|] eqn:Hx.
  2:{ unfold release, Future_deleteLater, getFuture, mbind, M_bind, gets in H.
      now rewrite Hx in H. }
  rewrite (release_run _ _ _ Hx) in H. injection H as _ <-.
  assert (Hlt : f < length (futures s)) by now apply lookup_lt_Some in Hx.
  assert (Hrel : forall g,
    released (set_future (if bool_decide (m_future s = Some f) then None
                          else m_future s)
                (set_trace (trace s ++ [CallDeleteLaterFuture f]) s)) g ->
    released s g \/ g = f).
  { intros g Hr. unfold released in Hr. pnorm0 in Hr.
    apply elem_of_app in Hr as [Hr | Hr]; [now left |].
    apply list_elem_of_singleton in Hr. injection Hr as ->. now right. }
  split; [| split]; pnorm0.
  - intros g Hg.
    destruct (bool_decide (m_future s = Some f)) eqn:E; [discriminate |].
    apply bool_decide_eq_false in E.
    destruct (H1 g Hg) as [Hl Hnr]. split; [exact Hl |].
    intros Hr. destruct (Hrel g Hr) as [Hr' | ->]; [contradiction | congruence].
  - intros g Hr. destruct (Hrel g Hr) as [Hr' | ->]; [auto | exact Hlt].
  - exact H3.
Qed.

Create HintDb live.

(** Frame goals of the invariant: the lemmas of the database, the
    release of a handle as one step, decomposition, and the functions
    that release nothing and leave [m_future] alone. *)
Ltac frame_l :=
  repeat first
    [ solve [eauto with live]
    | match goal with
      | |- frames keeps_live (@mbind _ _ _ _ _ (Future_deleteLater ?f)) =>
          exact (release_keeps_live f)
      end
    | frame_core
    | apply frames_inert_keeps_live; solve [frame_u inert_update] ].

#[global] Hint Resolve executePipelineBranch_keeps_live release_keeps_live
  : live.

Lemma execute_keeps_live : frames keeps_live execute.
Proof. unfold execute. frame_l. Qed.

Lemma execute_from_keeps_live ds : frames keeps_live (execute_from ds).
Proof. unfold execute_from. frame_l. Qed.

Lemma execute_last_keeps_live ds last :
  frames keeps_live (execute_last ds last).
Proof. unfold execute_last. frame_l. Qed.

#[global] Hint Resolve execute_keeps_live execute_from_keeps_live
  execute_last_keeps_live : live.

Lemma pause_keeps_live : frames keeps_live pause.
Proof. unfold pause. frame_l. Qed.

Lemma resume_keeps_live run : frames keeps_live (resume run).
Proof. unfold resume. frame_l. Qed.

Lemma cancel_keeps_live k : frames keeps_live (cancel k).
Proof. unfold cancel. frame_l. Qed.

Lemma isRunning_keeps_live : frames keeps_live isRunning.
Proof. unfold isRunning. frame_l. Qed.

Lemma getCopyOfImagePriorTo_keeps_live op :
  frames keeps_live (getCopyOfImagePriorTo op).
Proof. unfold getCopyOfImagePriorTo. cbv zeta. frame_l. Qed.

Lemma findTransformedDataSourceOperator_keeps_live ds :
  frames keeps_live (findTransformedDataSourceOperator ds).
Proof.
  unfold findTransformedDataSourceOperator.
  apply frames_bind; [exact _ | | intros ops].
  - frame_l.
  - apply findTransformedIn_frames; exact _.
Qed.

#[global] Hint Resolve findTransformedDataSourceOperator_keeps_live : live.

Lemma pipelineBranchFinished_keeps_live f result :
  frames keeps_live (pipelineBranchFinished f result).
Proof. unfold pipelineBranchFinished. frame_l. Qed.

Lemma pipelineBranchCanceled_keeps_live f :
  frames keeps_live (pipelineBranchCanceled f).
Proof. unfold pipelineBranchCanceled. frame_l. Qed.

Lemma operatorAdded_execute_keeps_live op :
  frames keeps_live (operatorAdded_execute op).
Proof. unfold operatorAdded_execute. frame_l. Qed.

Lemma operatorAdded_relocate_keeps_live op :
  frames keeps_live (operatorAdded_relocate op).
Proof. unfold operatorAdded_relocate. frame_l. Qed.

Lemma operatorRemoved_keeps_live op : frames keeps_live (operatorRemoved op).
Proof. unfold operatorRemoved. frame_l. Qed.

#[global] Hint Resolve pause_keeps_live resume_keeps_live cancel_keeps_live
  isRunning_keeps_live getCopyOfImagePriorTo_keeps_live
  pipelineBranchFinished_keeps_live pipelineBranchCanceled_keeps_live
  operatorAdded_execute_keeps_live operatorAdded_relocate_keeps_live
  operatorRemoved_keeps_live : live.

Lemma run_slot_keeps_live snd arg slot :
  frames keeps_live (run_slot snd arg slot).
Proof.
  destruct slot, snd, arg; cbn [run_slot];
    first [apply frames_undefined | solve [frame_l]].
Qed.

Lemma deliver_keeps_live snd sig arg :
  frames keeps_live (deliver snd sig arg).
Proof.
  unfold deliver. apply frames_bind; [exact _ | apply frames_gets; exact _ |].
  intros conns. induction (slots_of conns snd sig) as [| slot rest IH];
    cbn [run_slots].
  - apply frames_ret; exact _.
  - apply frames_bind; [exact _ | apply run_slot_keeps_live | intros _; exact IH].
Qed.

#[global] Hint Resolve deliver_keeps_live : live.

(** The timers that fire emit signals, none releases a handle. *)
Lemma processEvents_keeps_live : frames keeps_live processEvents.
Proof.
  unfold processEvents. apply frames_modify. intros s (H1 & H2 & H3).
  assert (Hrel : forall f,
    released (set_timers [] (set_trace (trace s ++ timers s) s)) f ->
    released s f).
  { intros f Hr. unfold released in Hr. pnorm0 in Hr.
    apply elem_of_app in Hr as [Hr | Hr]; [exact Hr |].
    rewrite Forall_forall in H3. now specialize (H3 _ Hr). }
  split; [| split]; pnorm0.
  - intros f Hf. destruct (H1 f Hf) as [Hl Hnr]. auto.
  - auto.
  - constructor.
Qed.

Lemma future_live_step s s' : future_live s -> event_step s s' -> future_live s'.
Proof.
  assert (Hk : forall {A} (m : M A) s s',
    frames keeps_live m -> exec m s = Some s' -> keeps_live s s').
  { intros A m s1 s2 Hf He. unfold exec in He.
    destruct (m s1) as [[a s3]|] eqn:Hm; [| discriminate].
    injection He as ->. exact (Hf _ _ _ Hm). }
  intros Hlive Hstep.
  assert (H : keeps_live s s'); [| exact (H Hlive)].
  destruct Hstep as [H | ds last H | ds H | H | run H | k H | H | op H
                    | ds op H | ds op H | op H | f result H | f H | H];
    refine (Hk _ _ _ _ _ H).
  - apply execute_keeps_live.
  - apply execute_last_keeps_live.
  - apply execute_from_keeps_live.
  - apply pause_keeps_live.
  - apply resume_keeps_live.
  - apply cancel_keeps_live.
  - apply isRunning_keeps_live.
  - apply getCopyOfImagePriorTo_keeps_live.
  - unfold DataSource_addOperator. frame_l.
  - unfold DataSource_removeOperator. frame_l.
  - apply deliver_keeps_live.
  - unfold Future_finished. frame_l.
  - unfold Future_canceled. frame_l.
  - apply processEvents_keeps_live.
Qed.

Lemma future_live_new objs dss ops root s :
  Pipeline_new objs dss ops root = Some s -> future_live s.
Proof.
  unfold Pipeline_new, exec. intros H.
  set (s0 := mkPipeline root false None objs dss ops [] [] [] [] []) in H.
  destruct ((DataSource_setParent root ThisPipeline ≫= _) s0)
    as [[a s1]|] eqn:Hm; [| discriminate].
  injection H as ->.
  assert (Hf : frames keeps_live
            (DataSource_setParent root ThisPipeline;; addDataSource root))
    by frame_l.
  apply (Hf _ _ _ Hm). split; [| split].
  - intros f [=].
  - intros f Hr. unfold released in Hr. simpl in Hr.
    now apply elem_of_nil in Hr.
  - constructor.
Qed.

(** In every pipeline reachable from a new one by the events of
    [event_step], [m_future] is null or points to a handle that the
    worker returned and that the pipeline has not handed to
    [deleteLater]: whenever the pipeline releases a handle it has
    stopped referring to it (the guard [m_future == future] of the
    completion handlers), and a new [m_future] is a new handle.  So
    the dereferences of [m_future] in [isRunning()] and [cancel(...)]
    are defined there. *)
Theorem m_future_never_released (objs : list (option Payload))
  (dss : list DataSource) (ops : list Operator) (root : DsId)
  (s0 s : Pipeline) :
  Pipeline_new objs dss ops root = Some s0 ->
  reachable s0 s ->
  (forall f, m_future s = Some f ->
     is_Some (futures s !! f) /\ ~ released s f) /\
  (exists b, isRunning s = Some (b, s)) /\
  (forall k, is_Some (cancel k s)).
Proof.
  intros Hnew Hreach.
  assert (Hlive : future_live s).
  { induction Hreach as [| s1 s2 _ IH Hstep].
    - exact (future_live_new _ _ _ _ _ Hnew).
    - exact (future_live_step _ _ IH Hstep). }
  destruct Hlive as (H1 & _ & _).
  assert (Hv : forall f, m_future s = Some f -> is_Some (futures s !! f)).
  { intros f Hf. apply lookup_lt_is_Some. now destruct (H1 f Hf). }
  split; [| split].
  - intros f Hf. split; [auto | now destruct (H1 f Hf)].
  - unfold isRunning. rewrite gets_bind.
    destruct (m_future s) as [f|]; [| now exists false].
    destruct (Hv f eq_refl) as [x Hx].
    rewrite (Future_isRunning_run _ _ _ Hx). eauto.
  - intros k. unfold cancel. rewrite gets_bind.
    destruct (m_future s) as [f|]; [| now eexists].
    destruct (Hv f eq_refl) as [x Hx].
    destruct k as [c|].
    + rewrite (bind_run _ _ _ _ _ (connect_run _ _ _ _)).
      erewrite Future_cancel_run by (pnorm0; exact Hx). now eexists.
    + rewrite ret_bind. erewrite Future_cancel_run by exact Hx. now eexists.
Qed.

Lemma m_future_never_released_witness :
  m_future ex_running = Some 0 /\
  ~ released ex_running 0 /\
  exists b, isRunning ex_running = Some (b, ex_running).
Proof.
  assert (Hnew : Pipeline_new [Some [1; 2]%Z]
                   [mkDataSource "root" None (Some 0) [0; 1]]
                   [mkOperator 0 OpPending false None;
                    mkOperator 0 OpPending false None] 0
                 = Some ex_two_steps) by reflexivity.
  assert (Hreach : reachable ex_two_steps ex_running).
  { apply (reachable_step _ ex_two_steps); [apply reachable_start |].
    apply step_execute. reflexivity. }
  destruct (m_future_never_released _ _ _ _ _ _ Hnew Hreach) as (H1 & H2 & _).
  split; [reflexivity |]. split; [exact (proj2 (H1 0 eq_refl)) | exact H2].
Defined.

(** ** Runs from scratch *)

(** [execute()] on a pipeline that is not paused and whose root has
    steps. *)
Lemma execute_run (st : Pipeline) (d : DataSource) (o : ObjId) (p : Payload) :
  m_paused st = false ->
  (forall f, m_future st = Some f -> is_Some (futures st !! f)) ->
  dataSources st !! m_data st = Some d ->
  ds_operators d <> [] ->
  ds_data d = Some o ->
  objects st !! o = Some (Some p) ->
  let n := length (futures st) in
  let r := length (objects st) in
  exists st',
    execute st = Some (tt, st') /\
    m_paused st' = false /\
    m_future st' = Some n /\
    trace st'
      = trace st ++ EvStarted :: cancel_calls st
          ++ [CallRun n r (ds_operators d)] /\
    futures st' !! n
      = Some (mkFuture r (ds_operators d) FutRunning (ds_operators d)) /\
    objects st' = objects st ++ [Some p] /\
    dataSources st' = dataSources st /\
    operators st' = operators st.
Proof.
  intros Hp Hv Hd Hne Hdata Ho n r. subst n r.
  pose (s0 := set_trace (trace st ++ [EvStarted]) st).
  assert (H1 : execute st
    = executePipelineBranch (m_data st) None s0) by reflexivity.
  rewrite (executePipelineBranch_scratch_run s0 (m_data st) d o p) in H1;
    [| exact Hp | exact Hv | exact Hd | exact Hne | exact Hdata | exact Ho].
  destruct (canceled_state_frame s0)
    as (E1 & E2 & E3 & E4 & E5 & E6 & E7 & E8 & E9 & E10).
  destruct (canceled_state_handles s0) as (_ & _ & _ & C4 & _).
  change (cancel_calls s0) with (cancel_calls st) in C4.
  change (trace s0) with (trace st ++ [EvStarted]) in C4.
  change (futures s0) with (futures st) in E7.
  change (objects s0) with (objects st) in H1.
  change (futures s0) with (futures st) in H1.
  change (connections s0) with (connections st) in H1.
  eexists. split; [exact H1 |]. pnorm0.
  split; [now rewrite E2 |]. split; [reflexivity |].
  split; [rewrite C4, <- !app_assoc; reflexivity |].
  split; [rewrite <- E7; apply snoc_lookup |].
  split; [reflexivity |]. split; [exact E5 | exact E6].
Qed.

(** Every way to [execute()] restarts the ROOT branch from scratch.
    [resume(true)] ends the pause and calls it; the handler of a step's
    [transformModified] signal calls it, whichever data source the step
    belongs to.  On a pipeline whose root has steps (not paused, for
    the handler) the effect is: [started()], a cancellation request to
    the handle [m_future] points to if that handle still runs, and a
    run of ALL steps of the root on a new copy of the root's own
    payload, whose handle becomes [m_future].  No step is reset and no
    data source changes; the output held by an implicit child is not
    used as a starting point.  [resume(false)] only ends the pause. *)
Theorem full_rerun_of_root (st : Pipeline) (d : DataSource) (o : ObjId)
  (p : Payload) (op : OpId) :
  (forall f, m_future st = Some f -> is_Some (futures st !! f)) ->
  dataSources st !! m_data st = Some d ->
  ds_operators d <> [] ->
  ds_data d = Some o ->
  objects st !! o = Some (Some p) ->
  let n := length (futures st) in
  let r := length (objects st) in
  let restarted (st' : Pipeline) :=
    m_paused st' = false /\
    m_future st' = Some n /\
    trace st'
      = trace st ++ EvStarted :: cancel_calls st
          ++ [CallRun n r (ds_operators d)] /\
    futures st' !! n
      = Some (mkFuture r (ds_operators d) FutRunning (ds_operators d)) /\
    objects st' = objects st ++ [Some p] /\
    dataSources st' = dataSources st /\
    operators st' = operators st in
  (exists st', resume true st = Some (tt, st') /\ restarted st') /\
  resume false st = Some (tt, set_paused false st) /\
  (m_paused st = false ->
   slots_of (connections st) (SndOperator op) SigTransformModified
     = [SlotExecuteAll] ->
   exists st',
     deliver (SndOperator op) SigTransformModified ArgNone st = Some (tt, st') /\
     restarted st').
Proof.
  intros Hv Hd Hne Hdata Ho n r restarted. subst restarted. cbv beta.
  split; [| split].
  - destruct (execute_run (set_paused false st) d o p eq_refl Hv Hd Hne Hdata Ho)
      as (st' & H & R).
    exists st'. split; [| exact R].
    unfold resume. rewrite modify_bind. exact H.
  - reflexivity.
  - intros Hp Hslots.
    destruct (execute_run st d o p Hp Hv Hd Hne Hdata Ho) as (st' & H & R).
    exists st'. split; [| exact R].
    unfold deliver. rewrite gets_bind, Hslots. cbn [run_slots run_slot].
    now rewrite (bind_run _ _ _ _ _ H).
Qed.

Lemma full_rerun_of_root_witness :
  exists st',
    resume true ex_paused = Some (tt, st') /\
    trace st' = [EvStarted; CallRun 0 1 [0; 1]].
Proof.
  destruct (full_rerun_of_root ex_paused
              (mkDataSource "root" (Some ThisPipeline) (Some 0) [0; 1]) 0
              [1; 2]%Z 0)
    as ((st' & H & _ & _ & Ht & _) & _); try reflexivity; try discriminate.
  exists st'. split; [exact H | exact Ht].
Defined.

(** ** A restart while a run is active *)

Lemma canceled_state_running s f x :
  m_future s = Some f -> futures s !! f = Some x -> fut_status x = FutRunning ->
  canceled_state s
  = set_trace (trace s ++ [CallCancel f])
      (set_futures (<[f := withStatus FutCanceling x]> (futures s)) s).
Proof. intros Hm Hx Hr. unfold canceled_state. now rewrite Hm, Hx, Hr. Qed.

Lemma snoc_insert_lookup {A} (l : list A) i (y z : A) :
  (<[i := y]> l ++ [z]) !! (length l) = Some z.
Proof.
  rewrite lookup_app_r by (rewrite length_insert; lia).
  now rewrite length_insert, Nat.sub_diag.
Qed.

(** [execute()] while a run is active, followed by the [canceled] event
    of the superseded handle [f].  [execute()] asks [f] to stop and
    dispatches the new run, whose handle [n] becomes [m_future].  When
    the [canceled] event of [f] arrives, the pipeline deletes the data
    object of the old run and releases [f], and leaves [m_future]
    alone, because it is no longer [f] (the guard
    [m_future == future]): the new run stays the active one, its data
    object is untouched and [isRunning()] is true. *)
Theorem restart_while_running (st : Pipeline) (f : FutId) (x : Future)
  (pf : Payload) (d : DataSource) (o : ObjId) (p : Payload) :
  m_paused st = false ->
  m_future st = Some f ->
  futures st !! f = Some x ->
  fut_status x = FutRunning ->
  objects st !! fut_result x = Some (Some pf) ->
  slots_of (connections st) (SndFuture f) SigCanceled = [SlotBranchCanceled] ->
  dataSources st !! m_data st = Some d ->
  ds_operators d <> [] ->
  ds_data d = Some o ->
  objects st !! o = Some (Some p) ->
  let n := length (futures st) in
  let r := length (objects st) in
  exists st1 st2,
    execute st = Some (tt, st1) /\
    m_future st1 = Some n /\
    Future_canceled f st1 = Some (tt, st2) /\
    m_future st2 = Some n /\
    isRunning st2 = Some (true, st2) /\
    objects st2 !! fut_result x = Some None /\
    objects st2 !! r = Some (Some p) /\
    trace st2
      = trace st ++ [EvStarted; CallCancel f; CallRun n r (ds_operators d);
                     CallDelete (fut_result x); CallDeleteLaterFuture f].
Proof.
  intros Hp Hm Hx Hrun Hres Hslots Hd Hne Hdata Ho n r. subst n r.
  assert (Hlt : f < length (futures st)) by now apply lookup_lt_Some in Hx.
  assert (Hlr : fut_result x < length (objects st))
    by now apply lookup_lt_Some in Hres.
  pose (s0 := set_trace (trace st ++ [EvStarted]) st).
  assert (H1 : execute st
    = executePipelineBranch (m_data st) None s0) by reflexivity.
  rewrite (executePipelineBranch_scratch_run s0 (m_data st) d o p) in H1;
    [| exact Hp | intros g Hg; unfold s0 in Hg; pnorm0 in Hg;
                  rewrite Hm in Hg; injection Hg as <-; eauto
     | exact Hd | exact Hne | exact Hdata | exact Ho].
  rewrite (canceled_state_running s0 f x Hm Hx Hrun) in H1.
  unfold s0 in H1. pnorm0 in H1. clear s0.
  eexists _, _. split; [exact H1 |]. clear H1.
  split; [reflexivity |]. split.
  { unfold Future_canceled, Future_setTerminated.
    erewrite bind_run; cycle 1.
    { eapply updFuture_run. pnorm0. apply lookup_app_l_Some.
      now apply list_lookup_insert_eq. }
    pnorm0. unfold deliver. rewrite gets_bind. pnorm0.
    rewrite slots_of_app, Hslots. unfold branch_connections.
    cbn [slots_of sender_eqb signal_eqb andb].
    rewrite (proj2 (Nat.eqb_neq (length (futures st)) f)) by lia.
    cbn [app run_slots run_slot].
    erewrite bind_run; cycle 1.
    { eapply pipelineBranchCanceled_run.
      - pnorm0. apply list_lookup_insert_eq.
        rewrite length_app, length_insert. lia.
      - pnorm. apply lookup_app_l_Some. exact Hres. }
    pnorm. rewrite bool_decide_eq_false_2 by (intros [= E]; lia).
    reflexivity. }
  pnorm. split; [reflexivity |]. split.
  { unfold isRunning. rewrite gets_bind. pnorm0.
    erewrite Future_isRunning_run; cycle 1.
    { pnorm0. rewrite list_lookup_insert_ne by lia. apply snoc_insert_lookup. }
    reflexivity. }
  split.
  { apply list_lookup_insert_eq. rewrite length_app. lia. }
  split.
  { rewrite list_lookup_insert_ne by lia. apply snoc_lookup. }
  now rewrite <- !app_assoc.
Qed.

Lemma restart_while_running_witness :
  exists st1 st2,
    execute ex_running = Some (tt, st1) /\
    Future_canceled 0 st1 = Some (tt, st2) /\
    m_future st2 = Some 1 /\
    objects st2 !! 1 = Some None /\
    objects st2 !! 2 = Some (Some [1; 2]%Z).
Proof.
  destruct (restart_while_running ex_running 0
              (mkFuture 1 [0; 1] FutRunning [0; 1]) [1; 2]%Z
              (mkDataSource "root" (Some ThisPipeline) (Some 0) [0; 1]) 0
              [1; 2]%Z eq_refl eq_refl eq_refl eq_refl eq_refl eq_refl eq_refl)
    as (st1 & st2 & H1 & _ & H2 & Hm & _ & Ho1 & Ho2 & _);
    [discriminate | reflexivity | reflexivity |].
  exists st1, st2. repeat split; assumption.
Defined.

(** ** From a branch to the branch of its child *)

Lemma canceled_state_terminated s f x :
  m_future s = Some f -> futures s !! f = Some x ->
  fut_status x = FutTerminated -> canceled_state s = s.
Proof. intros Hm Hx Ht. unfold canceled_state. now rewrite Hm, Hx, Ht. Qed.

(** The [finished(true)] event of the active handle [f], when the last
    step it ran holds an implicit child [c] that has steps of its own.
    The result of the run is stored into [c], and the pipeline goes on
    with the branch of [c]: [started()] is emitted and all steps of [c]
    are dispatched on a new copy of the payload just stored.  The
    handle of that run is [m_future] when the handler returns: [f] is
    released, but [m_future] is not reset, since it no longer is [f].
    [finished()] is not emitted, and the handle that completed, having
    reached its terminal state, is not asked to cancel. *)
Theorem completion_continues_with_child (st : Pipeline) (f : FutId)
  (x : Future) (l : OpId) (ol : Operator) (c : DsId) (dc : DataSource)
  (pr : Payload) :
  m_paused st = false ->
  m_future st = Some f ->
  futures st !! f = Some x ->
  last (fut_operators x) = Some l ->
  operators st !! l = Some ol ->
  op_hasChildDataSource ol = false ->
  op_childDataSource ol = Some c ->
  dataSources st !! c = Some dc ->
  ds_operators dc <> [] ->
  objects st !! fut_result x = Some (Some pr) ->
  slots_of (connections st) (SndFuture f) SigFinished = [SlotBranchFinished] ->
  let n := length (futures st) in
  let r := fut_result x in
  let r' := length (objects st) in
  exists st',
    Future_finished f true st = Some (tt, st') /\
    dataSources st' = <[c := withData (Some r) dc]> (dataSources st) /\
    operators st' = operators st /\
    objects st' = objects st ++ [Some pr] /\
    m_future st' = Some n /\
    futures st' !! n
      = Some (mkFuture r' (ds_operators dc) FutRunning (ds_operators dc)) /\
    trace st'
      = trace st ++ [CallSetData c r; CallDataModified c; EvStarted;
                     CallRun n r' (ds_operators dc); CallDeleteLaterFuture f].
Proof.
  intros Hp Hm Hx Hl Hol He Hc Hdc Hne Hres Hslots n r r'. subst n r r'.
  assert (Hlt : f < length (futures st)) by now apply lookup_lt_Some in Hx.
  assert (Hclt : c < length (dataSources st)) by now apply lookup_lt_Some in Hdc.
  pose (xt := withStatus FutTerminated x).
  pose (s1 := set_futures (<[f := xt]> (futures st)) st).
  assert (Hx1 : futures s1 !! f = Some xt) by now apply list_lookup_insert_eq.
  (* the handler, up to the child branch *)
  pose (s2 := set_trace
                (trace st ++ [CallSetData c (fut_result x); CallDataModified c])
                (set_dataSources
                   (<[c := withData (Some (fut_result x)) dc]> (dataSources st))
                   s1)).
  assert (Hstore : pipelineBranchFinished f true s1
                   = (execute_from c;; release f) s2).
  { unfold pipelineBranchFinished.
    rewrite (bind_run _ _ _ _ _ (Future_operators_run _ _ _ Hx1)).
    rewrite (bind_run _ _ _ _ _ (QList_last_run _ _ _ Hl)).
    rewrite (bind_run _ _ _ _ _ (Operator_hasChildDataSource_run s1 _ _ Hol)).
    rewrite He. cbn [negb when].
    erewrite bind_run; cycle 1.
    { rewrite (bind_run _ _ _ _ _ (Operator_childDataSource_run s1 _ _ Hol)).
      rewrite Hc, ret_bind.
      rewrite (bind_run _ _ _ _ _ (Operator_childDataSource_run s1 _ _ Hol)).
      rewrite Hc. cbn [deref]. rewrite ret_bind.
      rewrite (bind_run _ _ _ _ _ (Future_result_run _ _ _ Hx1)).
      rewrite (bind_run _ _ _ _ _
                 (DataSource_setData_run s1 _ _ (fut_result xt) Hdc)).
      erewrite bind_run; cycle 1.
      { eapply DataSource_dataModified_run. pnorm0.
        now apply list_lookup_insert_eq. }
      unfold mret, M_ret. pnorm0. rewrite <- app_assoc. reflexivity. }
    erewrite bind_run; cycle 1.
    { eapply Operator_childDataSource_run. exact Hol. }
    rewrite Hc. reflexivity. }
  (* the child branch *)
  pose (s3 := set_trace (trace s2 ++ [EvStarted]) s2).
  assert (Hm3 : m_future s3 = Some f) by exact Hm.
  assert (Hx3 : futures s3 !! f = Some xt) by exact Hx1.
  assert (Hchild : execute_from c s2
                   = executePipelineBranch c None s3) by reflexivity.
  rewrite (executePipelineBranch_scratch_run s3 c
             (withData (Some (fut_result x)) dc) (fut_result x) pr) in Hchild;
    [| exact Hp
     | intros g Hg; rewrite Hm3 in Hg; injection Hg as <-; eauto
     | now apply list_lookup_insert_eq
     | exact Hne
     | reflexivity
     | exact Hres].
  rewrite (canceled_state_terminated s3 f xt Hm3 Hx3 eq_refl) in Hchild.
  unfold s3, s2, s1 in Hchild. pnorm0 in Hchild.
  (* the event *)
  eexists. split.
  { unfold Future_finished, Future_setTerminated.
    rewrite (bind_run _ _ _ _ _ (updFuture_run _ _ _ (withStatus FutTerminated) Hx)).
    fold xt. fold s1.
    unfold deliver. rewrite gets_bind.
    change (connections s1) with (connections st). rewrite Hslots.
    cbn [run_slots run_slot].
    erewrite bind_run; cycle 1.
    { rewrite Hstore. erewrite bind_run by exact Hchild.
      eapply release_run. pnorm0. apply lookup_app_l_Some.
      now apply list_lookup_insert_eq. }
    reflexivity. }
  pnorm0. rewrite length_insert.
  rewrite bool_decide_eq_false_2 by (intros [= E]; lia).
  pnorm. split; [reflexivity |]. split; [reflexivity |].
  split; [reflexivity |]. split; [reflexivity |].
  split; [apply snoc_insert_lookup |].
  now rewrite <- !app_assoc.
Qed.

Lemma completion_continues_with_child_witness :
  exists st',
    Future_finished 0 true
      (set_connections (connections ex_child_branch ++ branch_connections 0)
         (set_future (Some 0)
            (set_futures [mkFuture 1 [0] FutRunning [0]] ex_child_branch)))
    = Some (tt, st') /\
    m_future st' = Some 1 /\
    futures st' !! 1 = Some (mkFuture 2 [1; 2] FutRunning [1; 2]).
Proof.
  destruct (completion_continues_with_child
              (set_connections (connections ex_child_branch ++ branch_connections 0)
                 (set_future (Some 0)
                    (set_futures [mkFuture 1 [0] FutRunning [0]] ex_child_branch)))
              0 (mkFuture 1 [0] FutRunning [0]) 0
              (mkOperator 0 OpComplete false (Some 1)) 1
              (mkDataSource "Output" (Some ThisPipeline) (Some 1) [1; 2])
              [5; 6]%Z eq_refl eq_refl eq_refl eq_refl eq_refl eq_refl eq_refl
              eq_refl)
    as (st' & H & _ & _ & _ & Hm & Hf & _);
    [discriminate | reflexivity | reflexivity |].
  exists st'. repeat split; assumption.
Defined.

(** ** What a branch run works on *)

#[global] Instance same_payloads_preorder : PreOrder same_payloads.
Proof.
  split.
  - intros s. now split.
  - intros s1 s2 s3 [A1 A2] [B1 B2]. split; congruence.
Qed.

Lemma DataSource_copyData_inv ds s n s' :
  DataSource_copyData ds s = Some (n, s') ->
  exists d o p,
    dataSources s !! ds = Some d /\ ds_data d = Some o /\
    objects s !! o = Some (Some p) /\
    n = length (objects s) /\
    s' = set_objects (objects s ++ [Some p]) s.
Proof.
  intros H.
  destruct (dataSources s !! ds) as [d|] eqn:Hd.
  2:{ unfold DataSource_copyData, getDataSource, mbind, M_bind, gets in H.
      now rewrite Hd in H. }
  destruct (ds_data d) as [o|] eqn:Hdata.
  2:{ unfold DataSource_copyData in H.
      rewrite (bind_run _ _ _ _ _ (getDataSource_run _ _ _ Hd)), Hdata in H.
      discriminate H. }
  destruct (objects s !! o) as [[p|]|] eqn:Ho.
  - rewrite (DataSource_copyData_run _ _ _ _ _ Hd Hdata Ho) in H.
    injection H as <- <-. exists d, o, p. now repeat split.
  - unfold DataSource_copyData in H.
    rewrite (bind_run _ _ _ _ _ (getDataSource_run _ _ _ Hd)), Hdata in H.
    cbn [deref] in H. rewrite ret_bind in H.
    unfold getObject, mbind, M_bind, gets in H. now rewrite Ho in H.
  - unfold DataSource_copyData in H.
    rewrite (bind_run _ _ _ _ _ (getDataSource_run _ _ _ Hd)), Hdata in H.
    cbn [deref] in H. rewrite ret_bind in H.
    unfold getObject, mbind, M_bind, gets in H. now rewrite Ho in H.
Qed.

(** [findTransformedDataSource] reads the data sources and the
    operators only. *)
Lemma findTransformedDataSource_reads_nodes s1 s2 ds t s1' :
  dataSources s2 = dataSources s1 ->
  operators s2 = operators s1 ->
  findTransformedDataSource ds s1 = Some (t, s1') ->
  s1' = s1 /\ findTransformedDataSource ds s2 = Some (t, s2).
Proof.
  intros Ed Eo H.
  destruct (dataSources s1 !! ds) as [d|] eqn:Hd.
  2:{ unfold findTransformedDataSource, findTransformedDataSourceOperator,
        DataSource_operators, getDataSource, mbind, M_bind, gets in H.
      now rewrite Hd in H. }
  destruct (transformedIn (operators s1) (rev (ds_operators d))) as [r|] eqn:Hr.
  2:{ unfold findTransformedDataSource, findTransformedDataSourceOperator in H.
      rewrite bind_assoc in H.
      rewrite (bind_run _ _ _ _ _ (DataSource_operators_run _ _ _ Hd)) in H.
      unfold mbind at 1, M_bind at 1 in H.
      rewrite findTransformedIn_run, Hr in H. discriminate H. }
  rewrite (findTransformedDataSource_run _ _ _ _ Hd Hr) in H.
  injection H as <- <-. split; [reflexivity |].
  rewrite <- Ed in Hd. rewrite <- Eo in Hr.
  rewrite (findTransformedDataSource_run _ _ _ _ Hd Hr). now rewrite Eo.
Qed.

(** After the starting payload is chosen, [executePipelineBranch] leaves
    the payloads alone until it dispatches. *)
Lemma scanCanceled_same_payloads ops start :
  frames same_payloads (scanCanceled ops start).
Proof.
  induction ops as [| op rest IH]; cbn [scanCanceled]; frame_h. exact IH.
Qed.

(** Whenever [executePipelineBranch] dispatches a run, the data object
    it hands to the worker is one it has just allocated, a copy
    ([copyData]) of the payload of a source [src]: the implicit child
    of the data source, when the call has a [start] step and
    [findTransformedDataSource] finds such a child, and the data source
    itself otherwise.  The call changes no data source and no data
    object that existed: the payloads stored in the graph are not what
    the worker works on. *)
Theorem executePipelineBranch_runs_on_copy (st : Pipeline) (ds : DsId)
  (start : option OpId) (st' : Pipeline) :
  executePipelineBranch ds start st = Some (tt, st') ->
  st' = st \/
  exists src dsrc o p steps,
    match start with
    | Some _ =>
        exists t, findTransformedDataSource ds st = Some (t, st) /\
                  src = default ds t
    | None => src = ds
    end /\
    dataSources st !! src = Some dsrc /\
    ds_data dsrc = Some o /\
    objects st !! o = Some (Some p) /\
    objects st' = objects st ++ [Some p] /\
    dataSources st' = dataSources st /\
    futures st' !! (length (futures st))
      = Some (mkFuture (length (objects st)) steps FutRunning steps).
Proof.
  unfold executePipelineBranch. rewrite gets_bind.
  destruct (m_paused st) eqn:Hp; [intros [= <-]; now left |].
  destruct (dataSources st !! ds) as [d|] eqn:Hd.
  2:{ unfold DataSource_operators, getDataSource, mbind, M_bind, gets.
      now rewrite Hd. }
  rewrite (bind_run _ _ _ _ _ (DataSource_operators_run _ _ _ Hd)).
  destruct (bool_decide (ds_operators d = [])); [intros [= <-]; now left |].
  intros H. right. rewrite gets_bind in H.
  destruct (proj1 (M_bind_Some _ _ _ _) H) as (u & s1 & Hc & H2). clear H.
  apply cancel_block_inv in Hc. subst s1.
  destruct (canceled_state_frame st) as (_ & _ & _ & E4 & E5 & E6 & E7 & _).
  destruct (proj1 (M_bind_Some _ _ _ _) H2) as (plan & s2 & Hplan & H3). clear H2.
  destruct (proj1 (M_bind_Some _ _ _ _) H3) as (data & s3 & Hdata & H4). clear H3.
  (* the dispatch *)
  assert (Hfinal :
    objects st' = objects s3 /\ dataSources st' = dataSources s3 /\
    futures st' = futures s3 ++ [mkFuture data plan.2 FutRunning plan.2]).
  { unfold Worker_run, connect, emit, modify, gets, mbind, M_bind, mret, M_ret
      in H4.
    injection H4 as <-. now repeat split. }
  destruct Hfinal as (F1 & F2 & F3). clear H4.
  (* the handles up to the dispatch *)
  assert (Hn : length (futures s3) = length (futures st)).
  { assert (Hsame : prepares (canceled_state st) s3).
    { transitivity s2.
      - match type of Hplan with ?m _ = _ => assert (Hf : frames prepares m) end;
          [| exact (Hf _ _ _ Hplan)].
        destruct start as [s0|]; frame;
          first [ apply findTransformedDataSource_frames; exact _
                | apply scanCanceled_prepares
                | apply Operator_resetState_prepares
                | prepares_silent ].
      - match type of Hdata with ?m _ = _ => assert (Hf : frames prepares m) end;
          [| exact (Hf _ _ _ Hdata)].
        destruct plan.1; frame. prepares_silent. }
    destruct Hsame as [(_ & S2 & _) _]. now rewrite S2. }
  assert (Hfut : futures st' !! (length (futures st))
                 = Some (mkFuture data plan.2 FutRunning plan.2))
    by (rewrite F3, <- Hn; apply snoc_lookup).
  rewrite F1, F2. clear F1 F2 F3 Hn.
  destruct start as [s0|].
  - (* resume: the implicit child, if there is one *)
    destruct (proj1 (M_bind_Some _ _ _ _) Hplan) as (t & sa & Hft & H5).
    clear Hplan.
    destruct (findTransformedDataSource_reads_nodes _ st _ _ _
                (eq_sym E5) (eq_sym E6) Hft) as [-> Hft0].
    destruct (proj1 (M_bind_Some _ _ _ _) H5) as (dat & sb & Hcopy & H6).
    clear H5.
    assert (Hrest : same_payloads sb s2 /\ plan.1 = dat).
    { split.
      - match type of H6 with ?m _ = _ =>
          assert (Hf : frames same_payloads m) end;
          [| exact (Hf _ _ _ H6)].
        frame_h; first [apply scanCanceled_same_payloads | now repeat split].
      - destruct (proj1 (M_bind_Some _ _ _ _) H6) as (all & sc & _ & H7).
        destruct (proj1 (M_bind_Some _ _ _ _) H7) as (hc & sd & _ & H8).
        destruct hc; cbn [negb] in H8.
        + now injection H8 as <- _.
        + destruct (proj1 (M_bind_Some _ _ _ _) H8) as (u1 & se & _ & H9).
          now injection H9 as <- _. }
    destruct Hrest as [[R1 R2] Hplan1]. clear H6.
    destruct t as [tds|].
    + (* a copy of the implicit child *)
      destruct (proj1 (M_bind_Some _ _ _ _) Hcopy) as (d0 & sc & Hcp & Hret).
      injection Hret as <- <-.
      destruct (DataSource_copyData_inv _ _ _ _ Hcp)
        as (dsrc & o & p & Hsrc & Hsd & Hso & -> & ->).
      rewrite E5 in Hsrc. rewrite E4 in Hso.
      rewrite Hplan1 in Hdata. injection Hdata as <- <-.
      exists tds, dsrc, o, p, plan.2.
      split; [exists (Some tds); now split |].
      repeat (split; [assumption |]).
      rewrite R1, R2. pnorm0. rewrite E4, E5.
      split; [reflexivity |]. split; [reflexivity |].
      rewrite E4 in Hfut. exact Hfut.
    + (* no implicit child: a copy of the data source itself *)
      injection Hcopy as <- <-.
      rewrite Hplan1 in Hdata.
      destruct (DataSource_copyData_inv _ _ _ _ Hdata)
        as (dsrc & o & p & Hsrc & Hsd & Hso & -> & ->).
      rewrite R2, E5 in Hsrc. rewrite R1, E4 in Hso.
      exists ds, dsrc, o, p, plan.2.
      split; [exists None; now split |].
      repeat (split; [assumption |]).
      pnorm0. rewrite R1, R2, E4, E5.
      split; [reflexivity |]. split; [reflexivity |].
      rewrite R1, E4 in Hfut. exact Hfut.
  - (* from scratch: a copy of the data source itself *)
    injection Hplan as <- <-. cbn [fst] in Hdata.
    destruct (DataSource_copyData_inv _ _ _ _ Hdata)
      as (dsrc & o & p & Hsrc & Hsd & Hso & -> & ->).
    rewrite E5 in Hsrc. rewrite E4 in Hso.
    exists ds, dsrc, o, p, (ds_operators d).
    split; [reflexivity |].
    repeat (split; [assumption |]).
    pnorm0. rewrite E4, E5.
    split; [reflexivity |]. split; [reflexivity |].
    rewrite E4 in Hfut. exact Hfut.
Qed.

Lemma executePipelineBranch_runs_on_copy_witness :
  exists st',
    executePipelineBranch 0 (Some 1) ex_before_remove = Some (tt, st') /\
    objects st' = [Some [1; 2]%Z; Some [7; 8]%Z; Some [7; 8]%Z] /\
    dataSources st' = dataSources ex_before_remove.
Proof.
  assert (H : exists st',
    executePipelineBranch 0 (Some 1) ex_before_remove = Some (tt, st'))
    by (eexists; vm_compute; reflexivity).
  destruct H as [st' H]. exists st'. split; [exact H |].
  destruct (executePipelineBranch_runs_on_copy ex_before_remove 0 (Some 1) st' H)
    as [-> | (src & dsrc & o & p & steps & (t & Ht & ->) & Hsrc & Hsd & Hso
              & Hobj & Hds & _)].
  - discriminate H.
  - vm_compute in Ht. injection Ht as <-. cbn [default] in Hsrc.
    vm_compute in Hsrc. injection Hsrc as <-. cbn [ds_data] in Hsd.
    injection Hsd as <-. vm_compute in Hso. injection Hso as <-.
    split; [exact Hobj | exact Hds].
Defined.

(** ** Who edits the graph *)

#[global] Instance same_structure_preorder : PreOrder same_structure.
Proof.
  split.
  - intros s. now split.
  - intros s1 s2 s3 [A1 A2] [B1 B2]. split; congruence.
Qed.

Lemma updOperator_same_structure op g :
  (forall o, skeleton (g o) = skeleton o) ->
  frames same_structure (updOperator op g).
Proof.
  intros Hg s a s' H.
  destruct (updOperator_same_graph op g Hg s a s' H) as (_ & _ & G3 & G4 & _).
  now split.
Qed.

(** Frame goals of the functions that leave the structure alone: the
    only operator update they make is [resetState]. *)
Ltac frame_g :=
  repeat first
    [ frame_core
    | match goal with
      | |- frames _ (modify _) => apply frames_modify; intros ?; now repeat split
      | |- frames _ (updOperator _ (withState _)) =>
          now apply updOperator_same_structure
      end
    | progress unfold emit, connect, singleShot, newObject, updFuture,
        DataSource_operators, DataSource_copyData,
        Operator_isCanceled, Operator_resetState,
        Operator_hasChildDataSource, Operator_childDataSource,
        Worker_run, ImageFuture_new,
        Future_isRunning, Future_cancel, Future_result, Future_operators,
        Future_deleteLater, Future_setTerminated, vtk_Delete ].

Lemma scanCanceled_same_structure ops start :
  frames same_structure (scanCanceled ops start).
Proof.
  induction ops as [| op rest IH]; cbn [scanCanceled]; frame_g. exact IH.
Qed.

Lemma executePipelineBranch_same_structure ds start :
  frames same_structure (executePipelineBranch ds start).
Proof.
  unfold executePipelineBranch. frame_g.
  - apply findTransformedDataSource_frames; exact _.
  - apply scanCanceled_same_structure.
Qed.

(** The calls and events that start, stop or watch the execution never
    edit the graph: [execute] in its three forms, [pause], [resume],
    [cancel], [isRunning], the preview, the [canceled] event of a
    handle and its [finished(false)] event leave every data source as
    it is (payload pointer, step list), and every operator up to its
    execution state, which [executePipelineBranch] may reset.  The
    graph is edited by the steps added and removed and by the
    successful completion of a run only. *)
Theorem control_leaves_structure (s s' : Pipeline) :
  control s s' ->
  dataSources s' = dataSources s /\
  skeleton <$> operators s' = skeleton <$> operators s.
Proof.
  assert (Hk : forall {A} (m : M A) s s',
    frames same_structure m -> exec m s = Some s' -> same_structure s s').
  { intros A m s1 s2 Hf He. unfold exec in He.
    destruct (m s1) as [[a s3]|] eqn:Hm; [| discriminate].
    injection He as ->. exact (Hf _ _ _ Hm). }
  assert (Hbranch := executePipelineBranch_same_structure).
  assert (Hterminal : forall f arg sig,
    arg = ArgNone \/ arg = ArgBool false ->
    frames same_structure
      (Future_setTerminated f;; deliver (SndFuture f) sig arg)).
  { intros f arg sig Harg. unfold deliver. frame_g.
    match goal with
    | |- frames _ (run_slots _ _ ?l) => induction l as [| slot rest IH]
    end; cbn [run_slots].
    - apply frames_ret; exact _.
    - apply frames_bind; [exact _ | | intros _; exact IH].
      destruct Harg as [-> | ->]; destruct slot; cbn [run_slot];
        first [ apply frames_undefined
              | solve [ unfold pipelineBranchCanceled, pipelineBranchFinished,
                          execute;
                        frame_g; try apply Hbranch ] ]. }
  intros [H | ds last H | ds H | H | run H | k H | H | op H | f H | f H];
    refine (Hk _ _ _ _ _ H).
  - unfold execute. frame_g. apply Hbranch.
  - unfold execute_last. frame_g; apply Hbranch.
  - unfold execute_from. frame_g. apply Hbranch.
  - unfold pause. frame_g.
  - unfold resume, execute. frame_g. apply Hbranch.
  - unfold cancel. frame_g.
  - unfold isRunning. frame_g.
  - unfold getCopyOfImagePriorTo. cbv zeta. frame_g.
  - exact (Hterminal f ArgNone SigCanceled (or_introl eq_refl)).
  - exact (Hterminal f (ArgBool false) SigFinished (or_intror eq_refl)).
Qed.

Lemma control_leaves_structure_witness :
  exists s',
    exec (Future_canceled 0) ex_running = Some s' /\
    dataSources s' = dataSources ex_running.
Proof.
  assert (H : exists s', exec (Future_canceled 0) ex_running = Some s')
    by (eexists; vm_compute; reflexivity).
  destruct H as [s' H]. exists s'. split; [exact H |].
  exact (proj1 (control_leaves_structure ex_running s' (ctl_canceled _ _ 0 H))).
Defined.

(** ** The consumer of a handle's events *)

#[global] Instance unconnecting_preorder : PreOrder unconnecting.
Proof.
  split.
  - intros s. split; [reflexivity |].
    exists []. split; [now rewrite app_nil_r | constructor].
  - intros s1 s2 s3 (L1 & n1 & C1 & F1) (L2 & n2 & C2 & F2).
    split; [lia |]. exists (n1 ++ n2).
    split; [now rewrite C2, C1, app_assoc | now apply Forall_app].
Qed.

#[global] Instance keeps_consumer_preorder : PreOrder keeps_consumer.
Proof.
  split.
  - intros s H. exact H.
  - intros s1 s2 s3 H12 H23 H. apply H23, H12, H.
Qed.

(** Connections on other senders bring no slot to a handle. *)
Lemma slots_of_other_senders new f sig :
  Forall (fun c : Connection => sender_future c.1.1 = None) new ->
  slots_of new (SndFuture f) sig = [].
Proof.
  induction 1 as [| [[a g] t] rest Ha _ IH]; [reflexivity |].
  cbn [slots_of]. destruct a; try discriminate; cbn [sender_eqb andb]; exact IH.
Qed.

(** A handle that is not in the arena has no slot. *)
Lemma slots_of_fresh conns n f sig :
  (forall g sg slot, (SndFuture g, sg, slot) ∈ conns -> g < n) ->
  n <= f ->
  slots_of conns (SndFuture f) sig = [].
Proof.
  intros Hb Hf. induction conns as [| [[a g] t] rest IH]; [reflexivity |].
  cbn [slots_of].
  assert (Hrest : forall g0 sg slot, (SndFuture g0, sg, slot) ∈ rest -> g0 < n)
    by (intros g0 sg slot Hin; apply (Hb g0 sg slot); now right).
  destruct (sender_eqb a (SndFuture f)) eqn:E; [| exact (IH Hrest)].
  destruct a as [| | g0]; try discriminate. cbn [sender_eqb] in E.
  apply Nat.eqb_eq in E. subst g0.
  pose proof (Hb f g t ltac:(left)). lia.
Qed.

Lemma unconnecting_keeps_consumer s s' :
  unconnecting s s' -> keeps_consumer s s'.
Proof.
  intros (L & new & C & F) [Hb Hone]. split.
  - intros f sig slot Hin. rewrite C in Hin.
    apply elem_of_app in Hin as [Hin | Hin]; [pose proof (Hb _ _ _ Hin); lia |].
    rewrite Forall_forall in F. now specialize (F _ Hin).
  - intros f. unfold finished_slots in *.
    rewrite C, slots_of_app, (slots_of_other_senders _ _ _ F), app_nil_r.
    apply Hone.
Qed.

Lemma frames_unconnecting_keeps_consumer {A} (m : M A) :
  frames unconnecting m -> frames keeps_consumer m.
Proof. intros H s a s' Hm. apply unconnecting_keeps_consumer. eauto. Qed.

Ltac unconnecting_update :=
  split; [pnorm0; rewrite ?length_insert, ?length_app; lia |];
  first [ exists []; split; [now rewrite app_nil_r | constructor]
        | eexists [_]; split; [reflexivity | now repeat constructor] ].

(** The connections a dispatch makes on its new handle [n]. *)
Lemma new_handle_one_consumer s conns futs (n : FutId) c1 c2 slot1 :
  one_consumer s ->
  n = length (futures s) ->
  length futs = S n ->
  conns = connections s ++ [(SndFuture n, SigFinished, slot1);
                            (SndFuture n, SigCanceled, c2)] ->
  slot1 = SlotBranchFinished \/ slot1 = SlotImageFinished c1 ->
  forall s', connections s' = conns -> futures s' = futs -> one_consumer s'.
Proof.
  intros [Hb Hone] Hn Hl Hc Hslot s' Ec Ef. split.
  - intros f sig slot Hin. rewrite Ec, Hc in Hin. rewrite Ef, Hl.
    apply elem_of_app in Hin as [Hin | Hin]; [pose proof (Hb _ _ _ Hin); lia |].
    apply elem_of_cons in Hin as [[= -> _ _] | Hin]; [lia |].
    apply list_elem_of_singleton in Hin. injection Hin as -> _ _. lia.
  - intros f. unfold finished_slots in *. rewrite Ec, Hc, slots_of_app.
    cbn [slots_of sender_eqb signal_eqb andb].
    destruct (Nat.eqb n f) eqn:E; cbn [andb app].
    + apply Nat.eqb_eq in E. subst f.
      rewrite (slots_of_fresh _ (length (futures s)) n _ Hb) by lia.
      cbn [app]. destruct Hslot as [-> | ->]; eauto.
    + rewrite app_nil_r. apply Hone.
Qed.

Lemma executePipelineBranch_keeps_consumer ds start :
  frames keeps_consumer (executePipelineBranch ds start).
Proof.
  intros s [] s' Hrun Hone.
  destruct (executePipelineBranch_inv _ _ _ _ Hrun)
    as [-> | (s2 & data & ops & [(_ & S2 & S3) _] & Hst')]; [exact Hone |].
  cbv zeta in Hst'.
  destruct (canceled_state_frame s) as (_ & _ & _ & _ & _ & _ & E7 & _ & E9 & _).
  assert (Hn : length (futures s2) = length (futures s)) by now rewrite S2.
  eapply (new_handle_one_consumer s _ _ (length (futures s)) 0
            SlotBranchCanceled SlotBranchFinished Hone eq_refl).
  3: now left.
  3: subst s'; pnorm0; rewrite S3, E9, Hn; reflexivity.
  3: subst s'; pnorm0; reflexivity.
  - rewrite length_app, Hn. simpl. lia.
  - reflexivity.
Qed.

Lemma preview_run_keeps_consumer op data ops :
  frames keeps_consumer
    (future ← Worker_run data ops; ImageFuture_new op data (Some future)).
Proof.
  intros s a s' H Hone.
  unfold Worker_run, ImageFuture_new, connect, emit, modify, gets, mbind, M_bind,
    mret, M_ret in H.
  injection H as _ H.
  eapply (new_handle_one_consumer s _ _ (length (futures s))
            (length (imageFutures s)) (SlotImageCanceled (length (imageFutures s)))
            (SlotImageFinished (length (imageFutures s))) Hone eq_refl).
  3: now right.
  3: subst s'; pnorm0; rewrite <- app_assoc; reflexivity.
  3: subst s'; pnorm0; reflexivity.
  - rewrite length_app. simpl. lia.
  - reflexivity.
Qed.

(** [cancel] connects the callback to the [canceled] signal. *)
Lemma cancel_keeps_consumer k : frames keeps_consumer (cancel k).
Proof.
  unfold cancel. apply frames_bind; [exact _ | apply frames_gets; exact _ |].
  intros [f|]; [| apply frames_ret; exact _].
  intros s a s' H.
  destruct (proj1 (M_bind_Some _ _ _ _) H) as ([] & s1 & H1 & H2).
  transitivity s1.
  2:{ revert H2. apply frames_unconnecting_keeps_consumer.
      unfold Future_cancel, updFuture, emit.
      repeat first
        [ frame_core
        | match goal with
          | |- frames _ (modify _) =>
              apply frames_modify; intros ?; unconnecting_update
          end ]. }
  assert (Hlt : f < length (futures s1)).
  { unfold Future_cancel, updFuture, getFuture, mbind, M_bind, gets in H2.
    destruct (futures s1 !! f) eqn:E; [| discriminate].
    now apply lookup_lt_Some in E. }
  destruct k as [k|].
  2:{ injection H1 as H1; subst s1. reflexivity. }
  unfold connect, modify in H1. injection H1 as H1; subst s1.
  pnorm0 in Hlt. intros [Hb Hone]. split.
  - intros g sig slot Hin. pnorm0 in Hin. pnorm0.
    apply elem_of_app in Hin as [Hin | Hin]; [eauto |].
    apply list_elem_of_singleton in Hin. now injection Hin as -> _ _.
  - intros g. unfold finished_slots in *. pnorm0.
    rewrite slots_of_app. cbn [slots_of signal_eqb].
    rewrite andb_false_r, app_nil_r. apply Hone.
Qed.

Lemma Future_deleteLater_keeps_consumer f :
  frames keeps_consumer (Future_deleteLater f).
Proof.
  apply frames_unconnecting_keeps_consumer. unfold Future_deleteLater.
  frame_u unconnecting_update.
Qed.

Create HintDb consumer.

Ltac frame_c :=
  repeat first
    [ solve [eauto with consumer]
    | frame_core
    | apply frames_unconnecting_keeps_consumer;
      solve [frame_u unconnecting_update] ].

#[global] Hint Resolve executePipelineBranch_keeps_consumer
  preview_run_keeps_consumer cancel_keeps_consumer
  Future_deleteLater_keeps_consumer : consumer.

Lemma execute_keeps_consumer : frames keeps_consumer execute.
Proof. unfold execute. frame_c. Qed.

Lemma execute_from_keeps_consumer ds : frames keeps_consumer (execute_from ds).
Proof. unfold execute_from. frame_c. Qed.

Lemma execute_last_keeps_consumer ds last :
  frames keeps_consumer (execute_last ds last).
Proof. unfold execute_last. frame_c. Qed.

#[global] Hint Resolve execute_keeps_consumer execute_from_keeps_consumer
  execute_last_keeps_consumer : consumer.

Lemma getCopyOfImagePriorTo_keeps_consumer op :
  frames keeps_consumer (getCopyOfImagePriorTo op).
Proof. unfold getCopyOfImagePriorTo. cbv zeta. frame_c. Qed.

Lemma findTransformedDataSourceOperator_keeps_consumer ds :
  frames keeps_consumer (findTransformedDataSourceOperator ds).
Proof.
  unfold findTransformedDataSourceOperator.
  apply frames_bind; [exact _ | | intros ops].
  - frame_c.
  - apply findTransformedIn_frames; exact _.
Qed.

#[global] Hint Resolve getCopyOfImagePriorTo_keeps_consumer
  findTransformedDataSourceOperator_keeps_consumer : consumer.

Lemma run_slot_keeps_consumer snd arg slot :
  frames keeps_consumer (run_slot snd arg slot).
Proof.
  destruct slot, snd, arg; cbn [run_slot];
    first [ apply frames_undefined
          | solve [ unfold operatorAdded_execute, operatorAdded_relocate,
                      operatorRemoved, pipelineBranchFinished,
                      pipelineBranchCanceled;
                    frame_c ] ].
Qed.

Lemma deliver_keeps_consumer snd sig arg :
  frames keeps_consumer (deliver snd sig arg).
Proof.
  unfold deliver. apply frames_bind; [exact _ | apply frames_gets; exact _ |].
  intros conns. induction (slots_of conns snd sig) as [| slot rest IH];
    cbn [run_slots].
  - apply frames_ret; exact _.
  - apply frames_bind;
      [exact _ | apply run_slot_keeps_consumer | intros _; exact IH].
Qed.

#[global] Hint Resolve deliver_keeps_consumer : consumer.

Lemma one_consumer_step s s' : one_consumer s -> event_step s s' -> one_consumer s'.
Proof.
  assert (Hk : forall {A} (m : M A) s s',
    frames keeps_consumer m -> exec m s = Some s' -> keeps_consumer s s').
  { intros A m s1 s2 Hf He. unfold exec in He.
    destruct (m s1) as [[a s3]|] eqn:Hm; [| discriminate].
    injection He as ->. exact (Hf _ _ _ Hm). }
  intros Hone Hstep.
  assert (H : keeps_consumer s s'); [| exact (H Hone)].
  destruct Hstep as [H | ds last H | ds H | H | run H | k H | H | op H
                    | ds op H | ds op H | op H | f result H | f H | H];
    refine (Hk _ _ _ _ _ H).
  - apply execute_keeps_consumer.
  - apply execute_last_keeps_consumer.
  - apply execute_from_keeps_consumer.
  - unfold pause. frame_c.
  - unfold resume. frame_c.
  - apply cancel_keeps_consumer.
  - unfold isRunning. frame_c.
  - apply getCopyOfImagePriorTo_keeps_consumer.
  - unfold DataSource_addOperator. frame_c.
  - unfold DataSource_removeOperator. frame_c.
  - apply deliver_keeps_consumer.
  - unfold Future_finished. frame_c.
  - unfold Future_canceled. frame_c.
  - unfold processEvents. frame_c.
Qed.

Lemma one_consumer_new objs dss ops root s :
  Pipeline_new objs dss ops root = Some s -> one_consumer s.
Proof.
  unfold Pipeline_new, exec. intros H.
  set (s0 := mkPipeline root false None objs dss ops [] [] [] [] []) in H.
  destruct ((DataSource_setParent root ThisPipeline ≫= _) s0)
    as [[a s1]|] eqn:Hm; [| discriminate].
  injection H as ->.
  assert (Hf : frames keeps_consumer
            (DataSource_setParent root ThisPipeline;; addDataSource root))
    by frame_c.
  apply (Hf _ _ _ Hm). split.
  - intros f sig slot Hin. simpl in Hin. now apply elem_of_nil in Hin.
  - intros f. now left.
Qed.

(** In every pipeline reachable from a new one by the events of
    [event_step], the [finished] signal of a handle has one consumer at
    most: the pipeline's completion handler, for a handle dispatched by
    [executePipelineBranch], or one preview, for a handle dispatched by
    [getCopyOfImagePriorTo]; never both and never twice.  So the
    [finished] event of a preview's handle is forwarded as the
    preview's own [finished] signal and does nothing else: the
    completion handler does not run for it, no data source is created
    or written, and [m_future] keeps its value. *)
Theorem preview_completion_is_only_forwarded (objs : list (option Payload))
  (dss : list DataSource) (ops : list Operator) (root : DsId)
  (s0 s : Pipeline) (f : FutId) (x : Future) (img : ImgId) (result : bool) :
  Pipeline_new objs dss ops root = Some s0 ->
  reachable s0 s ->
  futures s !! f = Some x ->
  (SndFuture f, SigFinished, SlotImageFinished img) ∈ connections s ->
  finished_slots s f = [SlotImageFinished img] /\
  Future_finished f result s
  = Some (tt,
      set_trace (trace s ++ [EvImageFinished img result])
        (set_futures (<[f := withStatus FutTerminated x]> (futures s)) s)).
Proof.
  intros Hnew Hreach Hx Hin.
  assert (Hone : one_consumer s).
  { clear Hx Hin. induction Hreach as [| s1 s2 _ IH Hstep].
    - exact (one_consumer_new _ _ _ _ _ Hnew).
    - exact (one_consumer_step _ _ IH Hstep). }
  assert (Hmem : SlotImageFinished img ∈ finished_slots s f).
  { unfold finished_slots. clear -Hin.
    induction (connections s) as [| [[a g] t] rest IH];
      [now apply elem_of_nil in Hin |].
    apply elem_of_cons in Hin as [[= <- <- <-] | Hin]; cbn [slots_of].
    - cbn [sender_eqb signal_eqb]. rewrite Nat.eqb_refl. left.
    - destruct (sender_eqb a (SndFuture f) && signal_eqb g SigFinished);
        [right |]; now apply IH. }
  assert (Hslots : finished_slots s f = [SlotImageFinished img]).
  { destruct Hone as [_ Hone].
    destruct (Hone f) as [E | [E | [i E]]]; rewrite E in Hmem.
    - now apply elem_of_nil in Hmem.
    - apply list_elem_of_singleton in Hmem. discriminate.
    - apply list_elem_of_singleton in Hmem. now injection Hmem as ->. }
  split; [exact Hslots |].
  unfold Future_finished, Future_setTerminated.
  rewrite (bind_run _ _ _ _ _ (updFuture_run _ _ _ (withStatus FutTerminated) Hx)).
  unfold deliver. rewrite gets_bind. pnorm0.
  unfold finished_slots in Hslots. rewrite Hslots. reflexivity.
Qed.

Lemma preview_completion_is_only_forwarded_witness :
  exists s st',
    exec (getCopyOfImagePriorTo 1) ex_running = Some s /\
    Future_finished 1 true s = Some (tt, st') /\
    trace st' = trace s ++ [EvImageFinished 0 true] /\
    m_future st' = Some 0.
Proof.
  assert (Hnew : Pipeline_new [Some [1; 2]%Z]
                   [mkDataSource "root" None (Some 0) [0; 1]]
                   [mkOperator 0 OpPending false None;
                    mkOperator 0 OpPending false None] 0
                 = Some ex_two_steps) by reflexivity.
  assert (Hs : exists s, exec (getCopyOfImagePriorTo 1) ex_running = Some s)
    by (eexists; vm_compute; reflexivity).
  destruct Hs as [s Hs].
  assert (Hreach : reachable ex_two_steps s).
  { apply (reachable_step _ ex_running).
    - apply (reachable_step _ ex_two_steps); [apply reachable_start |].
      apply step_execute. reflexivity.
    - exact (step_preview _ _ 1 Hs). }
  assert (Hx : futures s !! 1 = Some (mkFuture 2 [0] FutRunning [0])).
  { vm_compute in Hs. injection Hs as <-. reflexivity. }
  assert (Hin : (SndFuture 1, SigFinished, SlotImageFinished 0) ∈ connections s).
  { vm_compute in Hs. injection Hs as <-. simpl.
    do 5 right. left. }
  destruct (preview_completion_is_only_forwarded _ _ _ _ _ s 1 _ 0 true
              Hnew Hreach Hx Hin) as [_ H].
  exists s. eexists. split; [exact Hs |]. split; [exact H |].
  split; [reflexivity |].
  vm_compute in Hs. injection Hs as <-. reflexivity.
Defined.

(** ** When [finished()] is emitted *)

#[global] Instance unfinishing_preorder : PreOrder unfinishing.
Proof.
  split.
  - intros s. split; [auto |]. split; [| auto].
    exists []. split; [now rewrite app_nil_r | constructor].
  - intros s1 s2 s3 (A1 & (n1 & T1 & F1) & M1) (A2 & (n2 & T2 & F2) & M2).
    split; [auto |]. split; [| auto].
    exists (n1 ++ n2). split; [now rewrite T2, T1, app_assoc |].
    now apply Forall_app.
Qed.

#[global] Instance keeps_unfinished_preorder : PreOrder keeps_unfinished.
Proof.
  split.
  - intros s H. exact H.
  - intros s1 s2 s3 H12 H23 H. apply H23, H12, H.
Qed.

#[global] Instance unchanged_preorder : PreOrder unchanged.
Proof.
  split.
  - intros s. reflexivity.
  - intros s1 s2 s3 H1 H2. unfold unchanged in *. congruence.
Qed.

#[global] Instance same_operators_preorder : PreOrder same_operators.
Proof.
  split.
  - intros s. reflexivity.
  - intros s1 s2 s3 H1 H2. unfold same_operators in *. congruence.
Qed.

Lemma unfinishing_keeps_unfinished s s' :
  unfinishing s s' -> keeps_unfinished s s'.
Proof.
  intros (A & (new & T & F) & M) (H1 & H2 & H3).
  split; [auto |]. split; [| auto].
  rewrite T. now apply Forall_app.
Qed.

Lemma frames_unfinishing_keeps_unfinished {A} (m : M A) :
  frames unfinishing m -> frames keeps_unfinished m.
Proof. intros H s a s' Hm. apply unfinishing_keeps_unfinished. eauto. Qed.

(** An operator update that keeps the flag of the operator. *)
Lemma updOperator_unfinishing op g :
  (forall o, op_hasChildDataSource (g o) = op_hasChildDataSource o) ->
  frames unfinishing (updOperator op g).
Proof.
  intros Hg s a s' H. unfold updOperator in H.
  destruct (operators s !! op) as [o|] eqn:Ho.
  2:{ unfold getOperator, mbind, M_bind, gets in H. now rewrite Ho in H. }
  rewrite (bind_run _ _ _ _ _ (getOperator_run _ _ _ Ho)) in H.
  unfold modify in H. injection H as _ <-.
  split; [| split; [| auto]].
  - unfold no_explicit_child. pnorm0. intros Hall.
    apply Forall_insert; [exact Hall |].
    rewrite Hg. exact (proj1 (Forall_lookup _ _) Hall op o Ho).
  - exists []. split; [now rewrite app_nil_r | constructor].
Qed.

Ltac unfinishing_update :=
  split; [exact (fun H => H) |];
  split;
  [ first [ exists []; split; [now rewrite app_nil_r | constructor]
          | eexists [_]; split; [reflexivity | now repeat constructor] ]
  | pnorm0;
    first [ exact (fun H => H)
          | intros ?; apply Forall_app; split;
            [assumption | now repeat constructor] ] ].

(** Frame goals of the functions that do not emit [finished()]. *)
Ltac frame_f :=
  repeat first
    [ frame_core
    | match goal with
      | |- frames _ (modify _) =>
          apply frames_modify; intros ?; unfinishing_update
      | |- frames _ (updOperator _ (withChild _)) =>
          now apply updOperator_unfinishing
      | |- frames _ (updOperator _ (withState _)) =>
          now apply updOperator_unfinishing
      end
    | progress unfold emit, connect, singleShot, newObject,
        updDataSource, updFuture,
        DataSource_operators, DataSource_copyData, DataSource_setData,
        DataSource_dataModified, DataSource_setParent, DataSource_new,
        DataSource_removeAllOperators, DataSource_deleteLater,
        Operator_dataSource, Operator_hasChildDataSource,
        Operator_childDataSource, Operator_setChildDataSource,
        Operator_isCanceled, Operator_resetState,
        Worker_run, ImageFuture_new,
        Future_isRunning, Future_cancel, Future_cancelOp, Future_result,
        Future_operators, Future_deleteLater, Future_setTerminated,
        vtk_Delete, addDataSource ].

Lemma scanCanceled_unfinishing ops start :
  frames unfinishing (scanCanceled ops start).
Proof.
  induction ops as [| op rest IH]; cbn [scanCanceled]; frame_f. exact IH.
Qed.

Lemma executePipelineBranch_unfinishing ds start :
  frames unfinishing (executePipelineBranch ds start).
Proof.
  unfold executePipelineBranch. frame_f.
  - apply findTransformedDataSource_frames; exact _.
  - apply scanCanceled_unfinishing.
Qed.

Lemma execute_from_unfinishing ds : frames unfinishing (execute_from ds).
Proof. unfold execute_from. frame_f. apply executePipelineBranch_unfinishing. Qed.

(** What the getters of an operator return. *)
Lemma Operator_hasChildDataSource_inv op s b s' :
  Operator_hasChildDataSource op s = Some (b, s') ->
  s' = s /\ exists o, operators s !! op = Some o /\ b = op_hasChildDataSource o.
Proof.
  intros H. destruct (operators s !! op) as [o|] eqn:Ho.
  - rewrite (Operator_hasChildDataSource_run _ _ _ Ho) in H.
    injection H as <- <-. eauto.
  - unfold Operator_hasChildDataSource, getOperator, mbind, M_bind, gets in H.
    now rewrite Ho in H.
Qed.

Lemma Operator_childDataSource_inv op s c s' :
  Operator_childDataSource op s = Some (c, s') ->
  s' = s /\ exists o, operators s !! op = Some o /\ c = op_childDataSource o.
Proof.
  intros H. destruct (operators s !! op) as [o|] eqn:Ho.
  - rewrite (Operator_childDataSource_run _ _ _ Ho) in H.
    injection H as <- <-. eauto.
  - unfold Operator_childDataSource, getOperator, mbind, M_bind, gets in H.
    now rewrite Ho in H.
Qed.

(** The success path of [pipelineBranchFinished] on a last step that
    declares no explicit child: after the implicit child is ensured,
    the step has a child, and the branch that emits [finished()] is not
    taken. *)
Lemma pipelineBranchFinished_keeps_unfinished f result :
  frames keeps_unfinished (pipelineBranchFinished f result).
Proof.
  destruct result.
  2:{ apply frames_unfinishing_keeps_unfinished.
      unfold pipelineBranchFinished. frame_f. }
  intros s [] s' H HJ. unfold pipelineBranchFinished in H.
  destruct (proj1 (M_bind_Some _ _ _ _) H) as (ops & s1 & H1 & H2). clear H.
  assert (s1 = s) as ->.
  { assert (Hf : frames unchanged (Future_operators f))
      by (unfold Future_operators; frame).
    exact (Hf _ _ _ H1). }
  destruct (proj1 (M_bind_Some _ _ _ _) H2) as (lastOp & s2 & H3 & H4). clear H2.
  assert (s2 = s) as ->.
  { assert (Hf : frames unchanged (QList_last ops)) by frame.
    exact (Hf _ _ _ H3). }
  destruct (proj1 (M_bind_Some _ _ _ _) H4) as (explicit & s3 & H5 & H6).
  clear H4.
  destruct (Operator_hasChildDataSource_inv _ _ _ _ H5) as (-> & o & Ho & ->).
  assert (Hflag : op_hasChildDataSource o = false).
  { destruct HJ as (Hall & _). exact (proj1 (Forall_lookup _ _) Hall _ _ Ho). }
  rewrite Hflag in H6. cbn [negb when] in H6.
  (* the implicit child is ensured *)
  destruct (proj1 (M_bind_Some _ _ _ _) H6) as (u & sb & HB & H7). clear H6.
  assert (HJb : unfinished sb).
  { revert HJ.
    match type of HB with ?m _ = _ =>
      assert (Hf : frames unfinishing m) end;
      [| exact (unfinishing_keeps_unfinished _ _ (Hf _ _ _ HB))].
    frame_f. }
  assert (Hchild : exists ob child,
    operators sb !! lastOp = Some ob /\ op_childDataSource ob = Some child).
  { destruct (proj1 (M_bind_Some _ _ _ _) HB) as (c & sb1 & _ & HB1).
    destruct (proj1 (M_bind_Some _ _ _ _) HB1) as (new & sb2 & _ & HB2).
    destruct (proj1 (M_bind_Some _ _ _ _) HB2) as (c1 & sb3 & HB3 & HB4).
    destruct (Operator_childDataSource_inv _ _ _ _ HB3) as (-> & ob & Hob & ->).
    destruct (proj1 (M_bind_Some _ _ _ _) HB4) as (child & sb4 & HB5 & HB6).
    destruct (op_childDataSource ob) as [ch|] eqn:Hch; [| discriminate HB5].
    injection HB5 as <- <-.
    exists ob, ch. split; [| exact Hch].
    match type of HB6 with ?m _ = _ =>
      assert (Hf : frames same_operators m) end.
    { frame_h; reflexivity. }
    now rewrite (Hf _ _ _ HB6). }
  destruct Hchild as (ob & child & Hob & Hch).
  (* the child's branch, and the release of the handle *)
  destruct (proj1 (M_bind_Some _ _ _ _) H7) as (c & s4 & H8 & H9). clear H7.
  destruct (Operator_childDataSource_inv _ _ _ _ H8) as (-> & ob' & Hob' & ->).
  rewrite Hob in Hob'. injection Hob' as <-. rewrite Hch in H9.
  revert HJb.
  match type of H9 with ?m _ = _ =>
    assert (Hf : frames unfinishing m) end;
    [| exact (unfinishing_keeps_unfinished _ _ (Hf _ _ _ H9))].
  frame_f. apply execute_from_unfinishing.
Qed.

Create HintDb unfinished.

Ltac frame_n :=
  repeat first
    [ solve [eauto with unfinished]
    | frame_core
    | apply frames_unfinishing_keeps_unfinished; solve [frame_f] ].

Lemma executePipelineBranch_keeps_unfinished ds start :
  frames keeps_unfinished (executePipelineBranch ds start).
Proof.
  apply frames_unfinishing_keeps_unfinished, executePipelineBranch_unfinishing.
Qed.

Lemma findTransformedDataSourceOperator_keeps_unfinished ds :
  frames keeps_unfinished (findTransformedDataSourceOperator ds).
Proof.
  unfold findTransformedDataSourceOperator.
  apply frames_bind; [exact _ | | intros ops].
  - apply frames_unfinishing_keeps_unfinished. frame_f.
  - apply findTransformedIn_frames; exact _.
Qed.

#[global] Hint Resolve executePipelineBranch_keeps_unfinished
  findTransformedDataSourceOperator_keeps_unfinished
  pipelineBranchFinished_keeps_unfinished : unfinished.

Lemma run_slot_keeps_unfinished snd arg slot :
  frames keeps_unfinished (run_slot snd arg slot).
Proof.
  destruct slot, snd, arg; cbn [run_slot];
    first [ apply frames_undefined
          | solve [ unfold operatorAdded_execute, operatorAdded_relocate,
                      operatorRemoved, pipelineBranchCanceled, execute,
                      execute_last, execute_from;
                    frame_n ] ].
Qed.

Lemma deliver_keeps_unfinished snd sig arg :
  frames keeps_unfinished (deliver snd sig arg).
Proof.
  unfold deliver. apply frames_bind; [exact _ | apply frames_gets; exact _ |].
  intros conns. induction (slots_of conns snd sig) as [| slot rest IH];
    cbn [run_slots].
  - apply frames_ret; exact _.
  - apply frames_bind;
      [exact _ | apply run_slot_keeps_unfinished | intros _; exact IH].
Qed.

#[global] Hint Resolve deliver_keeps_unfinished : unfinished.

Lemma processEvents_keeps_unfinished : frames keeps_unfinished processEvents.
Proof.
  unfold processEvents. apply frames_modify. intros s (H1 & H2 & H3).
  split; [exact H1 |]. split; pnorm0; [now apply Forall_app | constructor].
Qed.

Lemma unfinished_step s s' : unfinished s -> event_step s s' -> unfinished s'.
Proof.
  assert (Hk : forall {A} (m : M A) s s',
    frames keeps_unfinished m -> exec m s = Some s' -> keeps_unfinished s s').
  { intros A m s1 s2 Hf He. unfold exec in He.
    destruct (m s1) as [[a s3]|] eqn:Hm; [| discriminate].
    injection He as ->. exact (Hf _ _ _ Hm). }
  intros HJ Hstep.
  assert (H : keeps_unfinished s s'); [| exact (H HJ)].
  destruct Hstep as [H | ds last H | ds H | H | run H | k H | H | op H
                    | ds op H | ds op H | op H | f result H | f H | H];
    refine (Hk _ _ _ _ _ H).
  - unfold execute. frame_n.
  - unfold execute_last. frame_n.
  - unfold execute_from. frame_n.
  - unfold pause. frame_n.
  - unfold resume, execute. frame_n.
  - unfold cancel. frame_n.
  - unfold isRunning. frame_n.
  - unfold getCopyOfImagePriorTo. cbv zeta. frame_n.
  - unfold DataSource_addOperator. frame_n.
  - unfold DataSource_removeOperator. frame_n.
  - apply deliver_keeps_unfinished.
  - unfold Future_finished. frame_n.
  - unfold Future_canceled. frame_n.
  - apply processEvents_keeps_unfinished.
Qed.

(** [finished()] is emitted on one path only: at the successful
    completion of a run whose last step declares an explicit child
    ([hasChildDataSource]) and has none.  A last step that declares
    none is given an implicit child first, and the handler then goes on
    with [execute(child)], which emits [started()].  So in a pipeline
    none of whose operators declares an explicit child (the pipeline
    never sets the flag itself), no sequence of events makes the
    pipeline emit [finished()]. *)
Theorem finished_needs_explicit_child (objs : list (option Payload))
  (dss : list DataSource) (ops : list Operator) (root : DsId)
  (s0 s : Pipeline) :
  Pipeline_new objs dss ops root = Some s0 ->
  Forall (fun o => op_hasChildDataSource o = false) ops ->
  reachable s0 s ->
  EvFinished ∉ trace s.
Proof.
  intros Hnew Hflags Hreach.
  assert (HJ : unfinished s).
  { induction Hreach as [| s1 s2 _ IH Hstep].
    - unfold Pipeline_new, exec in Hnew.
      set (s00 := mkPipeline root false None objs dss ops [] [] [] [] [])
        in Hnew.
      destruct ((DataSource_setParent root ThisPipeline ≫= _) s00)
        as [[a s1]|] eqn:Hm; [| discriminate].
      injection Hnew as ->.
      assert (Hf : frames keeps_unfinished
                (DataSource_setParent root ThisPipeline;; addDataSource root))
        by frame_n.
      apply (Hf _ _ _ Hm). split; [exact Hflags |]. split; constructor.
    - exact (unfinished_step _ _ IH Hstep). }
  destruct HJ as (_ & Ht & _). intros Hin.
  rewrite Forall_forall in Ht. now specialize (Ht _ Hin).
Qed.

Lemma finished_needs_explicit_child_witness :
  exists st1 st2,
    exec execute ex_two_steps = Some st1 /\
    exec (Future_finished 0 true) st1 = Some st2 /\
    EvFinished ∉ trace st2.
Proof.
  assert (Hnew : Pipeline_new [Some [1; 2]%Z]
                   [mkDataSource "root" None (Some 0) [0; 1]]
                   [mkOperator 0 OpPending false None;
                    mkOperator 0 OpPending false None] 0
                 = Some ex_two_steps) by reflexivity.
  assert (H1 : exec execute ex_two_steps = Some ex_running) by reflexivity.
  assert (H2 : exists st2, exec (Future_finished 0 true) ex_running = Some st2)
    by (eexists; vm_compute; reflexivity).
  destruct H2 as [st2 H2]. exists ex_running, st2.
  split; [exact H1 |]. split; [exact H2 |].
  apply (finished_needs_explicit_child _ _ _ _ _ st2 Hnew).
  - repeat constructor.
  - apply (reachable_step _ ex_running).
    + apply (reachable_step _ ex_two_steps); [apply reachable_start |].
      now apply step_execute.
    + exact (step_finished _ _ 0 true H2).
Defined.
